(** * crds: a shallow embedding of the ledger core of [index.js]

    The development follows the layout of the source file: constants,
    asset-name predicates, the message and block validators, the state
    projector ([_commitMainChainBlock]), the balance/minter/price views, the
    consensus helpers and the mempool entry points.

    Conventions of the embedding.
    - The code is embedded twice. The first part reads a JavaScript number
      as an exact rational ([Qc]): it is the code run on finite numbers
      none of whose sums, differences and quotients rounds, as with the
      heights, quantities and balances below 2^53 of its properties;
      [Infinity] and the JSON [null] that [_clone] turns it into are
      separate constructors where the source stores them (the [prices]
      table). The module [Binary64] embeds the consensus helpers,
      [Block.verify] and the state projector over IEEE 754 doubles, with
      the rounding, the infinities, [NaN] and the signed zeros of the
      source; the properties of timestamps, difficulties and supply are
      stated there.
    - In the first part a block hash is a string of hexadecimal digits and
      a signature is well formed; in [Binary64] the big-integer package
      and [Array.prototype.sort] are parameters.
    - A JavaScript object used as a dictionary is a [gmap] keyed by strings.
    - The external primitives (SHA-256, ECDSA, Base58) are symbolic: a
      payload carries its digest, a public key carries the address derived
      from it, and a signature records the key and digest it was made for.
    - A JavaScript exception is the [Throw] outcome of the [Comp] monad.
    - A payload is the record [JSON.parse] yields, by [type], with fields of
      the JSON types the validator reads (numbers and strings); addresses
      and asset names are ordinary keys, not names of members of
      [Object.prototype].
    - Persistence ([saveState]) and the network are left out. *)

From Stdlib Require Import Floats.
From Stdlib Require Import QArith Qcanon Qround ZArith List Ascii String Sorting.Sorted Sorting.Permutation.
From stdpp Require Import numbers strings gmap fin_maps list.

Local Open Scope string_scope.
Local Open Scope Qc_scope.

(** ** Numbers *)

Abbreviation num := Qc.

Definition ofZ (z : Z) : num := Qc_of_Z z.

Definition num_eqb (a b : num) : bool := bool_decide (a = b).
Definition num_ltb (a b : num) : bool := bool_decide (a < b).
Definition num_leb (a b : num) : bool := bool_decide (a ≤ b).
Definition num_gtb (a b : num) : bool := num_ltb b a.
Definition num_geb (a b : num) : bool := num_leb b a.

(** [Math.floor] *)
Definition Math_floor (q : num) : num := ofZ (Qfloor q).
(** [Math.round]: the nearest integer, halves rounded up. *)
Definition Math_round (q : num) : Z := Qfloor (q + Q2Qc (1 # 2)).
(** [Math.max] and [Math.min] on two numbers. *)
Definition Math_max (a b : num) : num := if num_ltb a b then b else a.
Definition Math_min (a b : num) : num := if num_ltb b a then b else a.

(** [q > 0 && Math.floor(q) === q] *)
Definition isPositiveInteger (q : num) : bool :=
  num_gtb q 0 && num_eqb (Math_floor q) q.

(** ** Exceptions *)

Inductive Exn : Type :=
| ReferenceError (name : string)
| TypeError (what : string)
| Error (what : string).

Inductive Comp (A : Type) : Type :=
| Ret (a : A)
| Throw (e : Exn).
Arguments Ret {A} a.
Arguments Throw {A} e.

#[global] Instance Comp_ret : MRet Comp := fun A a => Ret a.
#[global] Instance Comp_bind : MBind Comp := fun A B k c =>
  match c with
  | Ret a => k a
  | Throw e => Throw e
  end.

(** ** Constants (index.js, lines 25-73) *)

Definition MESSAGE_TTL : num := ofZ 10.
Definition UNDO_HEIGHT : nat := 10.
Definition CHARGE_SETTLE_BLOCKS : nat := 100.
Definition MESSAGES_PER_BLOCK_MAX : nat := 10000.
Definition MIN_DIFFICULTY : num := ofZ 1000.
Definition TARGET_BLOCKS : nat := 10.
Definition TARGET_TIME : num := ofZ (10 * 60 * 1000).
Definition TARGET_SWAY_MAX : num := ofZ 2.
Definition TARGET_SWAY_MIN : num := Q2Qc (1 # 2).
Definition CRD : string := "CRD".
Definition COINBASE_QUANTITY : num := ofZ 100.
Definition maxTarget : Z := (2 ^ 256 - 1)%Z.
Definition zeroHash : string := "0".

(** ** Asset names (index.js, lines 2801-2805)

    The three name predicates share one token,
    [(?:[A-Z0-9]|(?!^)\-(?!$))+]: a run of upper-case letters and digits in
    which a dash may stand anywhere but at the first or at the last position
    of the whole input. *)

Definition isUpperOrDigit (c : ascii) : bool :=
  let n := nat_of_ascii c in
  ((65 <=? n)%nat && (n <=? 90)%nat) || ((48 <=? n)%nat && (n <=? 57)%nat).

Definition isDash (c : ascii) : bool := Ascii.eqb c "-"%char.

(** [takeToken first s]: the longest prefix of [s] made of token characters
    and what follows it; [first] tells whether [s] starts the input. *)
Fixpoint takeToken (first : bool) (s : string) : string * string :=
  match s with
  | EmptyString => (EmptyString, EmptyString)
  | String c rest =>
      if isUpperOrDigit c
         || (isDash c && negb first && negb (String.eqb rest EmptyString))
      then let '(tok, after) := takeToken false rest in (String c tok, after)
      else (EmptyString, s)
  end.

Definition nonEmpty (s : string) : bool := negb (String.eqb s EmptyString).

(** [/^TOKEN$/] *)
Definition _isBaseAsset (asset : string) : bool :=
  let '(tok, after) := takeToken true asset in
  nonEmpty tok && String.eqb after "".

(** What may follow the first token of a basic or of a valid asset:
    optionally a dot and a second token, then [tail]. *)
Definition afterFirstToken (tail : string → bool) (after : string) : bool :=
  match after with
  | String "."%char rest =>
      let '(tok2, after2) := takeToken false rest in
      (nonEmpty tok2 && tail after2) || tail after
  | _ => tail after
  end.

(** [/^TOKEN(\.TOKEN)?$/] *)
Definition _isBasicAsset (asset : string) : bool :=
  let '(tok, after) := takeToken true asset in
  nonEmpty tok && afterFirstToken (fun r => String.eqb r "") after.

(** [/^TOKEN(\.TOKEN)?(?::mint)?$/] *)
Definition _isValidAsset (asset : string) : bool :=
  let '(tok, after) := takeToken true asset in
  nonEmpty tok
  && afterFirstToken (fun r => String.eqb r "" || String.eqb r ":mint") after.

(** [asset.match(/^(TOKEN)/)[1]]; indexing the [null] of a failed match
    raises a [TypeError]. *)
Definition _getBaseAsset (asset : string) : Comp string :=
  let '(tok, _) := takeToken true asset in
  if nonEmpty tok then Ret tok else Throw (TypeError "null[1]").

(** [s] ends with [suffix]; on success the part before the suffix. *)
Fixpoint stripSuffix (suffix s : string) : option string :=
  if String.eqb s suffix then Some EmptyString
  else match s with
       | EmptyString => None
       | String c rest => String c <$> stripSuffix suffix rest
       end.

(** [/:mint$/] *)
Definition _isMintAsset (asset : string) : bool :=
  match stripSuffix ":mint" asset with Some _ => true | None => false end.

(** The dot of a regular expression matches every character but a line
    terminator. *)
Fixpoint noLineTerminator (s : string) : bool :=
  match s with
  | EmptyString => true
  | String c rest =>
      negb (Ascii.eqb c "010"%char) && negb (Ascii.eqb c "013"%char)
      && noLineTerminator rest
  end.

(** [asset.match(/^(.+):mint$/)]: the captured group, when the match
    succeeds. *)
Definition matchMint (asset : string) : option string :=
  match stripSuffix ":mint" asset with
  | Some base => if nonEmpty base && noLineTerminator base then Some base else None
  | None => None
  end.

(** ** Data model *)

(** A public key as it appears in a payload ([publicKey], base64), with the
    address [_getAddressFromPublicKey] derives from it. *)
Record PublicKey : Type := {
  pk_text : string;
  pk_address : string;
}.

Definition _getAddressFromPublicKey (publicKey : PublicKey) : string :=
  pk_address publicKey.

Definition NULL_PUBLIC_KEY : PublicKey :=
  {| pk_text := "NULL_PUBLIC_KEY"; pk_address := "NULL_ADDRESS" |}.

(** A signature: its base64 text, and the key and payload digest it signs. *)
Record Signature : Type := {
  sig_text : string;
  sig_key : string;
  sig_digest : string;
}.

(** [eccrypto.verify(publicKeyBuffer, payloadHash, signatureBuffer)] *)
Definition eccrypto_verify (publicKey : PublicKey) (payloadHash : string)
    (signature : Signature) : bool :=
  String.eqb (sig_key signature) (pk_text publicKey)
  && String.eqb (sig_digest signature) payloadHash.

(** The decoded payload, by [type]. *)
Inductive Body : Type :=
| Coinbase (asset : string) (quantity : num) (address : string)
| Send (asset : string) (quantity : num) (srcAddress dstAddress : string)
       (publicKey : PublicKey)
| Minter (asset : string) (publicKey : PublicKey)
| Mint (asset : string) (quantity : num) (publicKey : PublicKey)
| Get (address asset : string) (quantity : num)
| Burn (asset : string) (quantity : num) (publicKey : PublicKey)
| Drop (address asset : string) (quantity : num)
| Price (asset : string) (price : num) (publicKey : PublicKey)
| Buy (asset : string) (quantity price : num) (publicKey : PublicKey)
| Unknown (type : string).

(** [payload]: the SHA-256 digest (hex) of its bytes and its JSON fields. *)
Record Payload : Type := {
  sha256 : string;
  startHeight : num;
  body : Body;
}.

Record Message : Type := {
  payload : Payload;
  hash : string;
  signature : Signature;
}.

(** [Message.equals] *)
Definition Message_equals (this message : Message) : bool :=
  String.eqb (hash this) (hash message).

(** A block; [getHash] is the digest the method of that name computes from
    the other fields. *)
Record Block : Type := {
  blockHash : string;
  prevHash : string;
  height : num;
  difficulty : num;
  version : string;
  timestamp : num;
  messages : list Message;
  nonce : num;
  getHash : string;
}.

(** A stored price: a number, [Infinity], or the [null] that a JSON round
    trip makes of [Infinity]. *)
Inductive StoredPrice : Type :=
| PNumber (p : num)
| PInfinity
| PNull.

(** A price as the views compute it. *)
Inductive PriceValue : Type :=
| Finite (p : num)
| Infinity.

(** What reading [db.minters[asset]] yields. *)
Inductive MinterValue : Type :=
| MUndefined
| MNull
| MAddress (a : string).

Record Db : Type := {
  balances : gmap string (gmap string num);
  messageHashes : list (list string);
  minters : gmap string (option string);
  prices : gmap string StoredPrice;
}.

Record Mempool : Type := {
  mempoolBlocks : list Block;
  mempoolMessages : list Message;
}.

Definition DEFAULT_DB : Db :=
  {| balances := ∅;
     messageHashes := [];
     minters := {[ CRD := None ]};
     prices := {[ "CRD" := PInfinity ]} |}.

Definition DEFAULT_MEMPOOL : Mempool :=
  {| mempoolBlocks := []; mempoolMessages := [] |}.

(** [_clone]: a JSON round trip; of the values a [Db] holds it changes only
    [Infinity], which [JSON.stringify] writes as [null]. *)
Definition _clonePrice (p : StoredPrice) : StoredPrice :=
  match p with
  | PNumber q => PNumber q
  | PInfinity => PNull
  | PNull => PNull
  end.

Definition _clone (db : Db) : Db :=
  {| balances := balances db;
     messageHashes := messageHashes db;
     minters := minters db;
     prices := _clonePrice <$> prices db |}.

(** An error object [{status, error, stack, soft}]; the source names the
    text [error] in some branches and [stack] in others. *)
Record ErrorObject : Type := {
  status : Z;
  error : option string;
  stack : option string;
  soft : bool;
}.

Definition err (st : Z) (text : string) : ErrorObject :=
  {| status := st; error := Some text; stack := None; soft := false |}.
Definition errStack (st : Z) (text : string) : ErrorObject :=
  {| status := st; error := None; stack := Some text; soft := false |}.
Definition errSoft (st : Z) (text : string) : ErrorObject :=
  {| status := st; error := Some text; stack := None; soft := true |}.

(** The value a validator returns: [None] is the source's [null]. *)
Abbreviation Verdict := (option ErrorObject).

(** The height of the next block:
    [((blocks.length > 0) ? blocks[blocks.length - 1].height : 0) + 1] *)
Definition nextHeightOf (blocks : list Block) : num :=
  (match last blocks with Some b => height b | None => 0 end) + 1.

(** ** Minter views (index.js, lines 3220-3273) *)

Definition readMinter (db : Db) (asset : string) : MinterValue :=
  match minters db !! asset with
  | None => MUndefined
  | Some None => MNull
  | Some (Some a) => MAddress a
  end.

(** [minter === s] for a string [s] *)
Definition minterIs (m : MinterValue) (s : string) : bool :=
  match m with
  | MAddress a => String.eqb a s
  | _ => false
  end.

Definition minterIsUndefined (m : MinterValue) : bool :=
  match m with MUndefined => true | _ => false end.

(** Truthiness of a minter value: the empty string is falsy. *)
Definition minterTruthy (m : MinterValue) : bool :=
  match m with
  | MAddress a => nonEmpty a
  | _ => false
  end.

(** The filter of [_getPostMessagesMinter]. *)
Definition isMintMessage (asset : string) (message : Message) : bool :=
  match body (payload message) with
  | Minter a _ => String.eqb a asset
  | Send a _ _ _ _ => String.eqb a (asset ++ ":mint")
  | _ => false
  end.

(** One pass of the [for] loop: the first message that applies to the
    current minter is consumed ([splice]) and sets the new minter. *)
Fixpoint minterPass (m : MinterValue) (mintMessages : list Message)
  : option (MinterValue * list Message) :=
  match mintMessages with
  | [] => None
  | message :: rest =>
      let skip := (fun r : MinterValue * list Message => (r.1, message :: r.2))
                    <$> minterPass m rest in
      match body (payload message) with
      | Minter _ publicKey =>
          if minterIsUndefined m
          then Some (MAddress (_getAddressFromPublicKey publicKey), rest)
          else skip
      | Send _ _ srcAddress dstAddress _ =>
          if minterIs m srcAddress
          then Some (MAddress dstAddress, rest)
          else skip
      | _ => skip
      end
  end.

(** The [while] loop; every productive pass removes a message, so
    [length mintMessages] passes are enough. *)
Fixpoint minterLoop (fuel : nat) (m : MinterValue) (mintMessages : list Message)
  : MinterValue :=
  match fuel with
  | O => m
  | S fuel' =>
      match minterPass m mintMessages with
      | Some (m', rest) => minterLoop fuel' m' rest
      | None => m
      end
  end.

Definition _getPostMessagesMinter (m : MinterValue) (asset : string)
    (msgs : list Message) : MinterValue :=
  let mintMessages := List.filter (isMintMessage asset) msgs in
  minterLoop (length mintMessages) m mintMessages.

Definition _getConfirmedMinter (db : Db) (confirmingMessages : list Message)
    (asset : string) : MinterValue :=
  _getPostMessagesMinter (readMinter db asset) asset confirmingMessages.

Definition _getUnconfirmedMinter (db : Db) (mempool : Mempool)
    (confirmingMessages : list Message) (asset : string) : MinterValue :=
  _getPostMessagesMinter (_getConfirmedMinter db confirmingMessages asset)
    asset (mempoolMessages mempool).

(** [!mempool ? _getConfirmedMinter(..) : _getUnconfirmedMinter(..)] *)
Definition viewMinter (db : Db) (mempool : option Mempool)
    (confirmingMessages : list Message) (asset : string) : MinterValue :=
  match mempool with
  | None => _getConfirmedMinter db confirmingMessages asset
  | Some mp => _getUnconfirmedMinter db mp confirmingMessages asset
  end.

(** ** Price views (index.js, lines 3274-3298) *)

Definition _getPostMessagesPrices (ps : list PriceValue) (asset : string)
    (msgs : list Message) : list PriceValue :=
  ps ++ omap (fun message =>
                match body (payload message) with
                | Price a p _ => if String.eqb a asset then Some (Finite p) else None
                | _ => None
                end) msgs.

Definition _getConfirmedPrices (db : Db) (confirmingMessages : list Message)
    (asset : string) : list PriceValue :=
  let stored := match prices db !! asset with
                | Some (PNumber p) => Finite p
                | _ => Infinity
                end in
  _getPostMessagesPrices [stored] asset confirmingMessages.

Definition _getUnconfirmedPrices (db : Db) (mempool : Mempool)
    (confirmingMessages : list Message) (asset : string) : list PriceValue :=
  _getPostMessagesPrices (_getConfirmedPrices db confirmingMessages asset)
    asset (mempoolMessages mempool).

Definition viewPrices (db : Db) (mempool : option Mempool)
    (confirmingMessages : list Message) (asset : string) : list PriceValue :=
  match mempool with
  | None => _getConfirmedPrices db confirmingMessages asset
  | Some mp => _getUnconfirmedPrices db mp confirmingMessages asset
  end.

(** [prices[prices.length - 1]]; the list is never empty. *)
Definition viewPrice (db : Db) (mempool : option Mempool)
    (confirmingMessages : list Message) (asset : string) : PriceValue :=
  match last (viewPrices db mempool confirmingMessages asset) with
  | Some p => p
  | None => Infinity
  end.

Definition priceIsZero (p : PriceValue) : bool :=
  match p with Finite q => num_eqb q 0 | Infinity => false end.

(** [prices.includes(price)] for a payload price *)
Definition pricesInclude (ps : list PriceValue) (p : num) : bool :=
  existsb (fun x => match x with Finite q => num_eqb q p | Infinity => false end) ps.

(** ** Balance views (index.js, lines 2812-2819 and 3129-3219) *)

Definition readBalance (db : Db) (address asset : string) : num :=
  match balances db !! address with
  | Some entry => default 0 (entry !! asset)
  | None => 0
  end.

(** The body of the loop of [_getPostMessagesBalance]. In the [buy] branch
    [price] and [quantity] are declared inside the first [if] only; the
    second [if] reads them outside that block, which raises a
    [ReferenceError]. *)
Definition postMessageBalance (db : Db) (mempool : option Mempool)
    (confirmingMessages : list Message) (address asset : string)
    (balance : num) (message : Message) : Comp num :=
  match body (payload message) with
  | Coinbase localAsset quantity localAddress =>
      if String.eqb localAsset asset && String.eqb localAddress address
      then Ret (balance + quantity) else Ret balance
  | Send a quantity srcAddress dstAddress _ =>
      if String.eqb a asset then
        let balance1 := if String.eqb srcAddress address
                        then balance - quantity else balance in
        let balance2 := if String.eqb dstAddress address
                        then balance1 + quantity else balance1 in
        Ret balance2
      else Ret balance
  | Buy localAsset quantity price publicKey =>
      let localAddress := _getAddressFromPublicKey publicKey in
      if String.eqb asset CRD then
        let minter := viewMinter db mempool confirmingMessages localAsset in
        let balance1 := if minterIs minter address
                        then balance + price * quantity else balance in
        if String.eqb address localAddress
        then Throw (ReferenceError "price")
        else Ret balance1
      else
        if String.eqb address localAddress && String.eqb asset localAsset
        then Ret (balance + quantity) else Ret balance
  | Mint localAsset quantity publicKey =>
      if String.eqb (_getAddressFromPublicKey publicKey) address
         && String.eqb localAsset asset
      then Ret (balance + quantity) else Ret balance
  | Get localAddress localAsset quantity =>
      if String.eqb localAddress address && String.eqb localAsset asset
      then Ret (balance + quantity) else Ret balance
  | Burn localAsset quantity publicKey =>
      if String.eqb (_getAddressFromPublicKey publicKey) address
         && String.eqb localAsset asset
      then Ret (balance - quantity) else Ret balance
  | Drop localAddress localAsset quantity =>
      if String.eqb localAddress address && String.eqb localAsset asset
      then Ret (balance - quantity) else Ret balance
  | Minter localAsset publicKey =>
      if String.eqb (_getAddressFromPublicKey publicKey) address
         && String.eqb (localAsset ++ ":mint") asset
      then Ret (balance + 1) else Ret balance
  | Price _ _ _ | Unknown _ => Ret balance
  end.

Fixpoint _getPostMessagesBalance (balance : num) (db : Db)
    (mempool : option Mempool) (confirmingMessages : list Message)
    (address asset : string) (msgs : list Message) : Comp num :=
  match msgs with
  | [] => Ret balance
  | message :: rest =>
      balance' ← postMessageBalance db mempool confirmingMessages address asset
                   balance message;
      _getPostMessagesBalance balance' db mempool confirmingMessages
        address asset rest
  end.

Definition _getConfirmedBalance (db : Db) (confirmingMessages : list Message)
    (address asset : string) : Comp num :=
  _getPostMessagesBalance (readBalance db address asset) db None
    confirmingMessages address asset confirmingMessages.

Definition _getUnconfirmedBalance (db : Db) (mempool : Mempool)
    (confirmingMessages : list Message) (address asset : string) : Comp num :=
  result ← _getConfirmedBalance db confirmingMessages address asset;
  _getPostMessagesBalance result db (Some mempool) confirmingMessages
    address asset (mempoolMessages mempool).

Definition viewBalance (db : Db) (mempool : option Mempool)
    (confirmingMessages : list Message) (address asset : string) : Comp num :=
  match mempool with
  | None => _getConfirmedBalance db confirmingMessages address asset
  | Some mp => _getUnconfirmedBalance db mp confirmingMessages address asset
  end.

(** ** The message validator (index.js, lines 222-676) *)

(** [isFinite(price)]: a payload number is finite. *)
Definition isFinite (p : num) : bool := true.

(** The rule of [mint]: the signer is the minter, or the price is 0. *)
Definition checkMint (db : Db) (mempool : option Mempool)
    (confirmingMessages : list Message) (baseAsset address : string) : Verdict :=
  if minterIs (viewMinter db mempool confirmingMessages baseAsset) address
  then None
  else if priceIsZero (viewPrice db mempool confirmingMessages baseAsset)
       then None
       else Some (errStack 400 "address cannot mint this asset").

(** [_checkFree] of [get], [burn] and [drop]; they differ in the text. *)
Definition _checkFree (db : Db) (mempool : option Mempool)
    (confirmingMessages : list Message) (baseAsset address text : string)
  : Verdict :=
  let minter := viewMinter db mempool confirmingMessages baseAsset in
  if minterIsUndefined minter || minterIs minter address
  then None
  else if priceIsZero (viewPrice db mempool confirmingMessages baseAsset)
       then None
       else Some (errStack 400 text).

Definition _checkBalance (db : Db) (mempool : option Mempool)
    (confirmingMessages : list Message) (address asset : string)
    (quantity : num) : Comp Verdict :=
  balance ← viewBalance db mempool confirmingMessages address asset;
  if num_geb balance quantity then Ret None
  else Ret (Some (err 402 "insufficient funds")).

(** The [switch (type)] of [Message.verify]. *)
Definition verifyBody (db : Db) (mempool : option Mempool)
    (confirmingMessages : list Message) (payloadHash : string)
    (sig : Signature) (b : Body) : Comp Verdict :=
  match b with
  | Coinbase asset quantity address =>
      if eccrypto_verify NULL_PUBLIC_KEY payloadHash sig then
        if String.eqb asset CRD && num_eqb quantity COINBASE_QUANTITY then
          if (length (List.filter
                 (fun confirmingMessage =>
                    match body (payload confirmingMessage) with
                    | Coinbase _ _ _ => true
                    | _ => false
                    end) confirmingMessages) =? 0)%nat
          then Ret None
          else Ret (Some (err 400 "multiple coinbases"))
        else Ret (Some (err 400 "invalid coinbase"))
      else Ret (Some (err 400 "invalid signature"))
  | Send asset quantity srcAddress dstAddress publicKey =>
      if eccrypto_verify publicKey payloadHash sig
         && String.eqb (_getAddressFromPublicKey publicKey) srcAddress then
        if _isValidAsset asset then
          if num_gtb quantity 0 && num_eqb (Math_floor quantity) quantity
             && (negb (_isMintAsset asset) || num_eqb quantity 1) then
            balance ← viewBalance db mempool confirmingMessages srcAddress asset;
            if num_geb balance quantity then Ret None
            else Ret (Some (err 402 "insufficient funds"))
          else Ret (Some (err 400 "invalid quantity"))
        else Ret (Some (err 400 "invalid asset"))
      else Ret (Some (err 400 "invalid signature"))
  | Minter asset publicKey =>
      if eccrypto_verify publicKey payloadHash sig then
        if _isBaseAsset asset then
          if minterIsUndefined (viewMinter db mempool confirmingMessages asset)
          then Ret None
          else Ret (Some (errStack 400 "asset already has minter"))
        else Ret (Some (errStack 400 "invalid asset"))
      else Ret (Some (err 400 "invalid signature"))
  | Mint asset quantity publicKey =>
      if eccrypto_verify publicKey payloadHash sig then
        if _isBasicAsset asset then
          if isPositiveInteger quantity then
            let address := _getAddressFromPublicKey publicKey in
            baseAsset ← _getBaseAsset asset;
            Ret (checkMint db mempool confirmingMessages baseAsset address)
          else Ret (Some (err 400 "invalid quantity"))
        else Ret (Some (err 400 "invalid asset"))
      else Ret (Some (err 400 "invalid signature"))
  | Get address asset quantity =>
      if eccrypto_verify NULL_PUBLIC_KEY payloadHash sig then
        if _isBasicAsset asset then
          if isPositiveInteger quantity then
            baseAsset ← _getBaseAsset asset;
            Ret (_checkFree db mempool confirmingMessages baseAsset address
                   "address cannot mint this asset")
          else Ret (Some (err 400 "invalid quantity"))
        else Ret (Some (err 400 "invalid asset"))
      else Ret (Some (err 400 "invalid signature"))
  | Burn asset quantity publicKey =>
      if eccrypto_verify publicKey payloadHash sig then
        if _isBasicAsset asset then
          if isPositiveInteger quantity then
            let address := _getAddressFromPublicKey publicKey in
            baseAsset ← _getBaseAsset asset;
            match _checkFree db mempool confirmingMessages baseAsset address
                    "address cannot burn this asset" with
            | Some e => Ret (Some e)
            | None => _checkBalance db mempool confirmingMessages address asset
                        quantity
            end
          else Ret (Some (err 400 "invalid quantity"))
        else Ret (Some (err 400 "invalid asset"))
      else Ret (Some (err 400 "invalid signature"))
  | Drop address asset quantity =>
      if eccrypto_verify NULL_PUBLIC_KEY payloadHash sig then
        if _isBasicAsset asset then
          if isPositiveInteger quantity then
            baseAsset ← _getBaseAsset asset;
            match _checkFree db mempool confirmingMessages baseAsset address
                    "address cannot drop this asset" with
            | Some e => Ret (Some e)
            | None => _checkBalance db mempool confirmingMessages address asset
                        quantity
            end
          else Ret (Some (err 400 "invalid quantity"))
        else Ret (Some (err 400 "invalid asset"))
      else Ret (Some (err 400 "invalid signature"))
  | Price asset price publicKey =>
      if eccrypto_verify publicKey payloadHash sig then
        if _isBaseAsset asset then
          let address := _getAddressFromPublicKey publicKey in
          if minterIs (viewMinter db mempool confirmingMessages asset) address then
            if isFinite price && num_geb price 0
               && num_eqb (Math_floor price) price
            then Ret None
            else Ret (Some (errStack 400 "invalid price"))
          else Ret (Some (errStack 400 "address is not minter of this asset"))
        else Ret (Some (err 400 "invalid asset"))
      else Ret (Some (err 400 "invalid signature"))
  | Buy asset quantity price publicKey =>
      if eccrypto_verify publicKey payloadHash sig then
        if _isBaseAsset asset then
          if isPositiveInteger quantity then
            if isFinite price && num_gtb price 0
               && num_eqb (Math_floor price) price then
              let address := _getAddressFromPublicKey publicKey in
              if minterTruthy (viewMinter db mempool confirmingMessages asset) then
                if pricesInclude (viewPrices db mempool confirmingMessages asset)
                     price then
                  balance ← viewBalance db mempool confirmingMessages address CRD;
                  if num_geb balance (quantity * price) then Ret None
                  else Ret (Some (errStack 400 "insufficient funds"))
                else Ret (Some (errStack 400 "incorrect declared price"))
              else Ret (Some (errStack 400 "address is not minter of this asset"))
            else Ret (Some (errStack 400 "invalid price"))
          else Ret (Some (errStack 400 "invalid quantity"))
        else Ret (Some (err 400 "invalid asset"))
      else Ret (Some (err 400 "invalid signature"))
  | Unknown _ => Ret (Some (err 400 "unknown message type"))
  end.

(** [db.messageHashes.some(hashes => hashes.includes(hash))] *)
Definition replayed (db : Db) (h : string) : bool :=
  existsb (fun hashes => existsb (String.eqb h) hashes) (messageHashes db).

(** [Message.verify(db, blocks, mempool = null, confirmingMessages = [])] *)
Definition Message_verify (db : Db) (blocks : list Block)
    (mempool : option Mempool) (confirmingMessages : list Message)
    (this : Message) : Comp Verdict :=
  let payloadHashHex := sha256 (payload this) in
  if String.eqb payloadHashHex (hash this) then
    let endHeight := startHeight (payload this) + MESSAGE_TTL in
    let nextHeight := nextHeightOf blocks in
    if num_geb nextHeight (startHeight (payload this))
       && num_ltb nextHeight endHeight then
      if negb (replayed db (hash this)) then
        verifyBody db mempool confirmingMessages payloadHashHex
          (signature this) (body (payload this))
      else Ret (Some (errSoft 400 "replay detected"))
    else Ret (Some (err 400 "ttl expired"))
  else Ret (Some (err 400 "invalid hash")).

(** ** Consensus helpers (index.js, lines 64-73 and 3299-3363) *)

Definition hexDigit (c : ascii) : option Z :=
  let n := Z.of_nat (nat_of_ascii c) in
  if (48 <=? n)%Z && (n <=? 57)%Z then Some (n - 48)%Z
  else if (97 <=? n)%Z && (n <=? 102)%Z then Some (n - 87)%Z
  else if (65 <=? n)%Z && (n <=? 70)%Z then Some (n - 55)%Z
  else None.

Fixpoint hexValue (acc : Z) (s : string) : option Z :=
  match s with
  | EmptyString => Some acc
  | String c rest =>
      match hexDigit c with
      | Some d => hexValue (16 * acc + d)%Z rest
      | None => None
      end
  end.

(** [bigint(hash, 16)] of the big-integer package, on hexadecimal text; any
    other character makes the parser throw. *)
Definition bigint16 (h : string) : Comp Z :=
  match hexValue 0 h with
  | Some v => Ret v
  | None => Throw (Error "not a valid character")
  end.

(** [maxTarget.divide(bigint(Math.round(difficulty)))]; [divide] truncates
    and throws on a zero divisor. *)
Definition _getDifficultyTarget (d : num) : Comp Z :=
  let r := Math_round d in
  if (r =? 0)%Z then Throw (Error "Cannot divide by zero")
  else Ret (Z.quot maxTarget r).

(** [bigint(hash, 16).divide(maxTarget).valueOf()] *)
Definition _getHashDifficulty (h : string) : Comp num :=
  v ← bigint16 h; Ret (ofZ (Z.quot v maxTarget)).

Definition _checkHashMeetsTarget (h : string) (target : Z) : Comp bool :=
  v ← bigint16 h; Ret (v <=? target)%Z.

(** [blocks.slice(-n)] *)
Definition sliceLast {A : Type} (n : nat) (l : list A) : list A :=
  List.skipn (length l - n) l.

(** [Array.prototype.sort] with the comparator
    [(a, b) => a.timestamp - b.timestamp]: a stable sort by timestamp. *)
Fixpoint insertByTimestamp (b : Block) (sorted : list Block) : list Block :=
  match sorted with
  | [] => [b]
  | c :: rest =>
      if num_leb (timestamp b) (timestamp c) then b :: sorted
      else c :: insertByTimestamp b rest
  end.

Definition sortByTimestamp (l : list Block) : list Block :=
  List.fold_right insertByTimestamp [] l.

(** [a[i].timestamp]; reading a field of [undefined] raises a [TypeError]. *)
Definition timestampAt (a : list Block) (i : nat) : Comp num :=
  match a !! i with
  | Some b => Ret (timestamp b)
  | None => Throw (TypeError "undefined.timestamp")
  end.

Definition _getNextBlockMinTimestamp (blocks : list Block) : Comp num :=
  let checkBlocks := sliceLast TARGET_BLOCKS blocks in
  let sortedCheckBlocks := sortByTimestamp checkBlocks in
  if (0 <? length sortedCheckBlocks)%nat then
    let middleIndex := ((length sortedCheckBlocks - 1) / 2)%nat in
    if (length sortedCheckBlocks mod 2 =? 0)%nat then
      a ← timestampAt sortedCheckBlocks middleIndex;
      b ← timestampAt sortedCheckBlocks (middleIndex + 1);
      Ret ((a + b) / ofZ 2)
    else timestampAt sortedCheckBlocks middleIndex
  else Ret 0.

(** The loop that finds the blocks with the least and the greatest
    timestamp; [None] is the initial [null]. *)
Definition firstLastStep (acc : option Block * option Block) (checkBlock : Block)
  : option Block * option Block :=
  let firstCheckBlock :=
    match acc.1 with
    | None => Some checkBlock
    | Some f => if num_ltb (timestamp checkBlock) (timestamp f)
                then Some checkBlock else Some f
    end in
  let lastCheckBlock :=
    match acc.2 with
    | None => Some checkBlock
    | Some l => if num_gtb (timestamp checkBlock) (timestamp l)
                then Some checkBlock else Some l
    end in
  (firstCheckBlock, lastCheckBlock).

Definition checkBlocksTimeDiff (checkBlocks : list Block) : Comp num :=
  if (0 <? length checkBlocks)%nat then
    match List.fold_left firstLastStep checkBlocks (None, None) with
    | (Some firstCheckBlock, Some lastCheckBlock) =>
        Ret (timestamp lastCheckBlock - timestamp firstCheckBlock)
    | _ => Throw (TypeError "null.timestamp")
    end
  else Ret 0.

Definition averageDifficulty (checkBlocks : list Block) : num :=
  if (0 <? length checkBlocks)%nat then
    List.fold_left (fun acc checkBlock => acc + difficulty checkBlock)
      checkBlocks 0 / ofZ (Z.of_nat (length checkBlocks))
  else 0.

Definition _getNextBlockBaseDifficulty (blocks : list Block) : Comp num :=
  let checkBlocks := sliceLast TARGET_BLOCKS blocks in
  timeDiff ← checkBlocksTimeDiff checkBlocks;
  let expectedTimeDiff := TARGET_TIME in
  let accuracyFactor :=
    Math_max (Math_min (timeDiff / expectedTimeDiff) TARGET_SWAY_MAX)
      TARGET_SWAY_MIN in
  Ret (Math_max (averageDifficulty checkBlocks / accuracyFactor) MIN_DIFFICULTY).

Fixpoint _getMessagesDifficulty_from (result : num) (msgs : list Message)
  : Comp num :=
  match msgs with
  | [] => Ret result
  | message :: rest =>
      d ← _getHashDifficulty (hash message);
      _getMessagesDifficulty_from (result + d) rest
  end.

Definition _getMessagesDifficulty (msgs : list Message) : Comp num :=
  _getMessagesDifficulty_from 0 msgs.

(** ** The block validator (index.js, lines 131-203) *)

Section BlockVerify.
Variables (this : Block) (db : Db) (blocks : list Block)
          (mempool : option Mempool).

Definition _checkHash : bool := String.eqb (getHash this) (blockHash this).

Definition _checkPrevHash : bool :=
  let prevBlockHash := match last blocks with
                       | Some b => blockHash b
                       | None => zeroHash
                       end in
  String.eqb (prevHash this) prevBlockHash.

Definition _checkHeight : bool := num_eqb (height this) (nextHeightOf blocks).

Definition _checkTimestamp : Comp bool :=
  t ← _getNextBlockMinTimestamp blocks; Ret (num_geb (timestamp this) t).

Definition _checkDifficultyClaim : Comp bool :=
  target ← _getDifficultyTarget (difficulty this);
  _checkHashMeetsTarget (blockHash this) target.

Definition _checkSufficientDifficulty : Comp bool :=
  base ← _getNextBlockBaseDifficulty blocks;
  bonus ← _getMessagesDifficulty (messages this);
  Ret (num_geb (difficulty this) (Math_max (base - bonus) MIN_DIFFICULTY)).

Definition _checkMessagesCount : bool :=
  (length (messages this) <=? MESSAGES_PER_BLOCK_MAX)%nat.

(** The loop of [_verifyMessages]: [before] and [after] are the messages
    on either side of the one at index [i]. *)
Fixpoint verifyMessagesFrom (before rest : list Message) : Comp Verdict :=
  match rest with
  | [] => Ret None
  | message :: after =>
      e ← Message_verify db blocks mempool (before ++ after) message;
      match e with
      | Some e' => Ret (Some e')
      | None => verifyMessagesFrom (before ++ [message]) after
      end
  end.

Definition _verifyMessages : Comp Verdict :=
  verifyMessagesFrom [] (messages this).

Definition Block_verify : Comp Verdict :=
  if negb _checkHash then Ret (Some (err 400 "invalid hash"))
  else if negb _checkPrevHash
  then Ret (Some (errSoft 400 "invalid previous hash"))
  else if negb _checkHeight then Ret (Some (err 400 "invalid height"))
  else
    okTimestamp ← _checkTimestamp;
    if negb okTimestamp then Ret (Some (err 400 "invalid timestamp"))
    else
      okClaim ← _checkDifficultyClaim;
      if negb okClaim then Ret (Some (err 400 "invalid difficulty claim"))
      else if negb _checkMessagesCount
      then Ret (Some (err 400 "too many messages"))
      else
        okDifficulty ← _checkSufficientDifficulty;
        if negb okDifficulty
        then Ret (Some (err 400 "insufficient difficulty"))
        else _verifyMessages.
End BlockVerify.

(** ** The state projector (index.js, lines 1076-1283) *)

Abbreviation Balances := (gmap string (gmap string num)).

(** [entry[asset] = (entry[asset] or 0) + quantity] on the entry of
    [address], created when missing. *)
Definition credit (bal : Balances) (address asset : string) (quantity : num)
  : Balances :=
  let addressEntry := default ∅ (bal !! address) in
  let assetEntry := default 0 (addressEntry !! asset) in
  <[address := <[asset := assetEntry + quantity]> addressEntry]> bal.

(** The same with a subtraction, as [send] and [buy] do it. *)
Definition debit (bal : Balances) (address asset : string) (quantity : num)
  : Balances :=
  let addressEntry := default ∅ (bal !! address) in
  let assetEntry := default 0 (addressEntry !! asset) in
  <[address := <[asset := assetEntry - quantity]> addressEntry]> bal.

(** [burn] and [drop]: the entry is not defaulted, so a missing one gives
    [NaN], which is not [> 0]; a result that is not positive deletes the
    asset, and the address once it holds nothing. *)
Definition debitOrDelete (bal : Balances) (address asset : string)
    (quantity : num) : Balances :=
  let addressEntry := default ∅ (bal !! address) in
  let pruned :=
    let addressEntry' := delete asset addressEntry in
    if bool_decide (size addressEntry' = 0%nat)
    then delete address bal
    else <[address := addressEntry']> bal in
  match addressEntry !! asset with
  | Some assetEntry =>
      if num_gtb (assetEntry - quantity) 0
      then <[address := <[asset := assetEntry - quantity]> addressEntry]> bal
      else pruned
  | None => pruned
  end.

(** The property key a minter value is turned into by [balances[srcAddress]]. *)
Definition minterKey (m : MinterValue) : string :=
  match m with
  | MUndefined => "undefined"
  | MNull => "null"
  | MAddress a => a
  end.

Definition withBalances (db : Db) (bal : Balances) : Db :=
  {| balances := bal; messageHashes := messageHashes db;
     minters := minters db; prices := prices db |}.

Definition withMinter (db : Db) (asset address : string) : Db :=
  {| balances := balances db; messageHashes := messageHashes db;
     minters := <[asset := Some address]> (minters db); prices := prices db |}.

Definition withPrice (db : Db) (asset : string) (p : num) : Db :=
  {| balances := balances db; messageHashes := messageHashes db;
     minters := minters db; prices := <[asset := PNumber p]> (prices db) |}.

(** The body of the loop over [block.messages]. *)
Definition commitMessage (newDb : Db) (message : Message) : Comp Db :=
  match body (payload message) with
  | Coinbase asset quantity address =>
      Ret (withBalances newDb (credit (balances newDb) address asset quantity))
  | Send asset quantity srcAddress dstAddress _ =>
      let bal1 := debit (balances newDb) srcAddress asset quantity in
      let bal2 := credit bal1 dstAddress asset quantity in
      let db2 := withBalances newDb bal2 in
      match matchMint asset with
      | Some baseAsset => Ret (withMinter db2 baseAsset dstAddress)
      | None => Ret db2
      end
  | Price asset price _ => Ret (withPrice newDb asset price)
  | Buy asset quantity price publicKey =>
      let srcAddress := minterKey (readMinter newDb asset) in
      let dstAddress := _getAddressFromPublicKey publicKey in
      let bal1 := credit (balances newDb) srcAddress CRD (quantity * price) in
      let bal2 := debit bal1 dstAddress CRD (quantity * price) in
      let bal3 := credit bal2 dstAddress asset quantity in
      Ret (withBalances newDb bal3)
  | Mint asset quantity publicKey =>
      Ret (withBalances newDb
             (credit (balances newDb) (_getAddressFromPublicKey publicKey)
                asset quantity))
  | Get address asset quantity =>
      Ret (withBalances newDb (credit (balances newDb) address asset quantity))
  | Burn asset quantity publicKey =>
      Ret (withBalances newDb
             (debitOrDelete (balances newDb)
                (_getAddressFromPublicKey publicKey) asset quantity))
  | Drop address asset quantity =>
      Ret (withBalances newDb
             (debitOrDelete (balances newDb) address asset quantity))
  | Minter asset publicKey =>
      let address := _getAddressFromPublicKey publicKey in
      let mintAsset := asset ++ ":mint" in
      Ret (withMinter
             (withBalances newDb (credit (balances newDb) address mintAsset 1))
             asset address)
  | Unknown type =>
      Throw (Error "internal error: committing a block with unknown message type")
  end.

Fixpoint commitMessages (newDb : Db) (msgs : list Message) : Comp Db :=
  match msgs with
  | [] => Ret newDb
  | message :: rest =>
      newDb' ← commitMessage newDb message; commitMessages newDb' rest
  end.

(** [newDb.messageHashes.push(..)] and the [shift] loop that keeps the last
    [MESSAGE_TTL] entries. *)
Definition pushMessageHashes (db : Db) (block : Block) : Db :=
  {| balances := balances db;
     messageHashes :=
       sliceLast 10 (messageHashes db ++ [List.map hash (messages block)]);
     minters := minters db; prices := prices db |}.

Definition evictMempool (mempool : Mempool) (block : Block) : Mempool :=
  {| mempoolBlocks :=
       List.filter (fun mempoolBlock =>
                      negb (String.eqb (blockHash mempoolBlock) (blockHash block)))
         (mempoolBlocks mempool);
     mempoolMessages :=
       List.filter
         (fun mempoolMessage =>
            negb (existsb
                    (fun blockMessage =>
                       String.eqb (sig_text (signature blockMessage))
                         (sig_text (signature mempoolMessage)))
                    (messages block)))
         (mempoolMessages mempool) |}.

Definition _commitMainChainBlock (db : Db) (blocks : list Block)
    (mempool : option Mempool) (block : Block) : Comp (Db * option Mempool) :=
  newDb ← commitMessages (_clone db) (messages block);
  Ret (pushMessageHashes newDb block,
       (fun mp => evictMempool mp block) <$> mempool).

(** ** The node: mempool entry points and block attachment
    (index.js, lines 930-955 and 1284-1474) *)

Record Crds : Type := {
  dbs : list Db;
  blocks : list Block;
  mempool : Mempool;
}.

(** What [this.emit] publishes. *)
Inductive Event : Type :=
| MessageEvent (message : Message)
| BlockEvent (block : Block).

(** [(this.dbs.length > 0) ? this.dbs[this.dbs.length - 1] : DEFAULT_DB] *)
Definition topDb (c : Crds) : Db := default DEFAULT_DB (last (dbs c)).

(** [addMessage]: the verdict, the mempool after the call and the events
    emitted. A call that throws has touched nothing before it threw. *)
Definition addMessage (db : Db) (blocks : list Block) (mempool : Mempool)
    (message : Message) : Comp (Verdict * Mempool * list Event) :=
  if (length (mempoolMessages mempool) <? MESSAGES_PER_BLOCK_MAX)%nat then
    if negb (existsb (fun mempoolMessage => Message_equals mempoolMessage message)
               (mempoolMessages mempool)) then
      error ← Message_verify db blocks (Some mempool) [] message;
      match error with
      | None =>
          Ret (None,
               {| mempoolBlocks := mempoolBlocks mempool;
                  mempoolMessages := mempoolMessages mempool ++ [message] |},
               [MessageEvent message])
      | Some e => Ret (Some e, mempool, [])
      end
    else Ret (None, mempool, [])
  else Ret (Some (err 503 "mempool full"), mempool, []).

Definition submitMessage (c : Crds) (message : Message)
  : Comp (Verdict * Crds * list Event) :=
  r ← addMessage (topDb c) (blocks c) (mempool c) message;
  Ret (r.1.1, {| dbs := dbs c; blocks := blocks c; mempool := r.1.2 |}, r.2).

(** [ToIntegerOrInfinity] of an index, and [a.slice(start)]. *)
Definition toInteger (q : num) : Z :=
  if num_ltb q 0 then Qceiling q else Qfloor q.

Definition sliceFrom {A : Type} (start : num) (l : list A) : list A :=
  let k := toInteger start in
  if (k <? 0)%Z
  then List.skipn (Z.to_nat (Z.max (Z.of_nat (length l) + k) 0)) l
  else List.skipn (Z.to_nat k) l.

Fixpoint _getBlocksTotalDifficulty_from (result : num) (bs : list Block)
  : Comp num :=
  match bs with
  | [] => Ret result
  | block :: rest =>
      d ← _getHashDifficulty (blockHash block);
      _getBlocksTotalDifficulty_from (result + d) rest
  end.

Definition _getBlocksTotalDifficulty (bs : list Block) : Comp num :=
  _getBlocksTotalDifficulty_from 0 bs.

(** [_getBlocksMessages]: the inner loop is bounded by [j < messages], a
    number compared with an array; an array of message objects converts to
    [NaN] and an empty one to [0], so the body never runs. *)
Definition _getBlocksMessages (bs : list Block) : list Message := [].

(** [_commitSideChainBlock], statement by statement up to line 1317. That
    line reads [sidechainBlocks], a name no scope declares (the parameter
    is [sideChainBlocks]): evaluating it raises a [ReferenceError], so the
    statements after it, and the [return] (which reads the equally
    undeclared [newMemPool]), are never reached. *)
Definition _commitSideChainBlock (dbs : list Db) (blocks : list Block)
    (mempool : Mempool) (block : Block) (forkedBlock : option Block)
    (sideChainBlocks : list Block) : Comp (list Db * list Block * Mempool) :=
  let forkedBlockHeight :=
    match forkedBlock with Some b => height b | None => 0 end in
  mainChainDifficulty ←
    _getBlocksTotalDifficulty (sliceFrom forkedBlockHeight blocks);
  sideChainDifficulty ←
    _getBlocksTotalDifficulty (sliceFrom forkedBlockHeight sideChainBlocks);
  let needsReorg := num_gtb sideChainDifficulty mainChainDifficulty in
  let forkedBlockIndex := forkedBlockHeight - 1 in
  let topBlockIndex := ofZ (Z.of_nat (length blocks)) - 1 in
  let numSlicedBlocks := topBlockIndex - forkedBlockIndex in
  let slicedBlocks := sliceFrom (- numSlicedBlocks) blocks in
  let slicedMessages := _getBlocksMessages slicedBlocks in
  Throw (ReferenceError "sidechainBlocks").

Inductive AttachPoint : Type :=
| mainChain
| sideChain (forkedBlock : option Block) (sideChainBlocks : list Block)
| dangling
| outOfRange (direction : Z).

(** [addBlock] from the point where [_findBlockAttachPoint] has classified
    the block: the verdict, the node after the call and the events emitted.
    The fields of the node are assigned only after the validator and the
    commit function have returned, so a call that throws leaves the node as
    it was. *)
Definition addBlockAt (c : Crds) (block : Block) (attachPoint : AttachPoint)
  : Comp (Verdict * Crds * list Event) :=
  match attachPoint with
  | mainChain =>
      let db := topDb c in
      error ← Block_verify block db (blocks c) None;
      match error with
      | None =>
          r ← _commitMainChainBlock db (blocks c) (Some (mempool c)) block;
          Ret (None,
               {| dbs := sliceLast UNDO_HEIGHT (dbs c ++ [r.1]);
                  blocks := sliceLast CHARGE_SETTLE_BLOCKS (blocks c ++ [block]);
                  mempool := default (mempool c) r.2 |},
               [BlockEvent block])
      | Some e => Ret (Some e, c, [])
      end
  | sideChain forkedBlock sideChainBlocks =>
      let db := topDb c in
      error ← Block_verify block db sideChainBlocks None;
      match error with
      | None =>
          r ← _commitSideChainBlock (dbs c) (blocks c) (mempool c) block
                forkedBlock sideChainBlocks;
          Ret (None,
               {| dbs := sliceLast UNDO_HEIGHT r.1.1;
                  blocks := sliceLast CHARGE_SETTLE_BLOCKS r.1.2;
                  mempool := r.2 |},
               [BlockEvent block])
      | Some e => Ret (Some e, c, [])
      end
  | outOfRange direction =>
      if (direction =? -1)%Z
      then Ret (Some (errSoft 400 "stale block"), c, [])
      else Ret (Some (errSoft 400 "desynchronized block"), c, [])
  | dangling => Ret (Some (errSoft 400 "dangling block"), c, [])
  end.

(** ** Scenarios: concrete keys, messages and blocks used by the examples *)

(** The key of the holder of address [name]. *)
Definition keyOf (name : string) : PublicKey :=
  {| pk_text := name ++ "-key"; pk_address := name |}.

(** A message whose [hash] is the digest [h] of its payload, signed with
    [k]. *)
Definition signedBy (k : PublicKey) (h : string) (start : Z) (b : Body)
  : Message :=
  {| payload := {| sha256 := h; startHeight := ofZ start; body := b |};
     hash := h;
     signature := {| sig_text := h ++ "-sig"; sig_key := pk_text k;
                     sig_digest := h |} |}.

(** A block whose [hash] is the digest [getHash] computes. *)
Definition minedBlock (h prev : string) (ht d : Z) (ms : list Message) : Block :=
  {| blockHash := h; prevHash := prev; height := ofZ ht; difficulty := ofZ d;
     version := "0.0.1"; timestamp := ofZ 0; messages := ms; nonce := ofZ 0;
     getHash := h |}.

Definition emptyNode : Crds :=
  {| dbs := []; blocks := []; mempool := DEFAULT_MEMPOOL |}.

(** A send of an asset whose name is not valid, with quantity 0. *)
Definition lowercaseSend : Message :=
  signedBy (keyOf "A") "b1" 1 (Send "gold" 0 "A" "B" (keyOf "A")).

(** A message that was valid at height 5 and is stale at height 15. *)
Definition staleSend : Message :=
  signedBy (keyOf "A") "b2" 5 (Send "CRD" (ofZ 1) "A" "B" (keyOf "A")).

Definition blockAtHeight (h : Z) : Block := minedBlock "1f" "0" h 1000 [].

(** An address holding 50 CRD, and its send of 100 CRD. *)
Definition fiftyCrdDb : Db :=
  {| balances := {[ "A" := {[ "CRD" := ofZ 50 ]} ]};
     messageHashes := [];
     minters := {[ CRD := None ]};
     prices := {[ "CRD" := PNull ]} |}.

Definition send100 : Message :=
  signedBy (keyOf "A") "b3" 1 (Send "CRD" (ofZ 100) "A" "B" (keyOf "A")).

(** A mempool that already holds [staleSend]. *)
Definition mempoolWithStale : Mempool :=
  {| mempoolBlocks := []; mempoolMessages := [staleSend] |}.

Definition nodeAtHeight14 : Crds :=
  {| dbs := []; blocks := [blockAtHeight 14]; mempool := mempoolWithStale |}.

(** ** Total supply *)

(** The balance an address entry holds of an asset; a missing key is 0. *)
Definition balanceIn (entry : gmap string num) (asset : string) : num :=
  default 0 (entry !! asset).

(** The total supply of an asset: its balance summed over all addresses. *)
Definition totalSupply (bal : Balances) (asset : string) : num :=
  map_fold (fun _ entry acc => acc + balanceIn entry asset) 0 bal.

Definition isSend (message : Message) : bool :=
  match body (payload message) with
  | Send _ _ _ _ _ => true
  | _ => false
  end.

(** Two sends of one CRD, each funded by the other. *)
Definition sendAB : Message :=
  signedBy (keyOf "A") "a1" 1 (Send "CRD" (ofZ 1) "A" "B" (keyOf "A")).
Definition sendBA : Message :=
  signedBy (keyOf "B") "a2" 1 (Send "CRD" (ofZ 1) "B" "A" (keyOf "B")).
Definition sendOnlyBlock : Block := minedBlock "1f" "0" 1 1000 [sendAB; sendBA].

(** ** The median, in the spec's words *)

(** The median of a sorted sample: its middle value, or the arithmetic mean
    of its two middle values when the size is even; 0 for no sample. *)
Definition medianOfSorted (s : list num) : num :=
  let n := length s in
  if (n =? 0)%nat then 0
  else if Nat.even n
       then (nth (n / 2 - 1) s 0 + nth (n / 2) s 0) / ofZ 2
       else nth (n / 2) s 0.

(** ** The retarget formula, in the spec's words *)

Definition sumOf (l : list num) : num := foldr Qcplus 0 l.

Definition meanOf (l : list num) : num :=
  sumOf l / ofZ (Z.of_nat (length l)).

Definition clamp (x lo hi : num) : num :=
  if decide (x < lo) then lo else if decide (hi < x) then hi else x.

Definition maxOf (a b : num) : num := if decide (a ≤ b) then b else a.

(** Two sends of the unit [CRD:mint], each funded by the other, in one
    block on top of the empty chain; then a price for CRD by the address
    that ends up as its minter. *)
Definition mintAB : Message :=
  signedBy (keyOf "A") "a1" 1 (Send "CRD:mint" (ofZ 1) "A" "B" (keyOf "A")).
Definition mintBA : Message :=
  signedBy (keyOf "B") "a2" 1 (Send "CRD:mint" (ofZ 1) "B" "A" (keyOf "B")).
Definition crdMintBlock : Block := minedBlock "1f" "0" 1 1000 [mintAB; mintBA].

Definition priceCrd : Message :=
  signedBy (keyOf "A") "a3" 2 (Price "CRD" 0 (keyOf "A")).
Definition crdPriceBlock : Block := minedBlock "2f" "1f" 2 2000 [priceCrd].

(** Block 1: a coinbase to B, M1 claims GOLD and prices it at 5.
    Block 2: B buys 10 GOLD, M1 hands the GOLD minter unit to M2, and M2
    sends 50 CRD to X. *)
Definition coinbaseB : Message :=
  signedBy NULL_PUBLIC_KEY "c1" 1 (Coinbase "CRD" (ofZ 100) "B").
Definition claimGold : Message :=
  signedBy (keyOf "M1") "c2" 1 (Minter "GOLD" (keyOf "M1")).
Definition priceGold : Message :=
  signedBy (keyOf "M1") "c3" 1 (Price "GOLD" (ofZ 5) (keyOf "M1")).
Definition goldSetupBlock : Block :=
  minedBlock "1f" "0" 1 1000 [coinbaseB; claimGold; priceGold].

Definition buyGold : Message :=
  signedBy (keyOf "B") "d1" 2 (Buy "GOLD" (ofZ 10) (ofZ 5) (keyOf "B")).
Definition handOverGold : Message :=
  signedBy (keyOf "M1") "d2" 2 (Send "GOLD:mint" (ofZ 1) "M1" "M2" (keyOf "M1")).
Definition spendProceeds : Message :=
  signedBy (keyOf "M2") "d3" 2 (Send "CRD" (ofZ 50) "M2" "X" (keyOf "M2")).
Definition goldBuyBlock : Block :=
  minedBlock "2f" "1f" 2 2000 [buyGold; handOverGold; spendProceeds].

(** A chain of one block, and a rival block of the same height. *)
Definition nodeWithOneBlock : Crds :=
  {| dbs := [DEFAULT_DB]; blocks := [blockAtHeight 1];
     mempool := DEFAULT_MEMPOOL |}.
Definition rivalBlock : Block := minedBlock "2f" "0" 1 1000 [].

(** ** Error objects and the block checks, in the spec's words *)

Definition ttlExpired : ErrorObject :=
  {| status := 400; error := Some "ttl expired"; stack := None; soft := false |}.

Definition invalidQuantity : ErrorObject :=
  {| status := 400; error := Some "invalid quantity"; stack := None;
     soft := false |}.

Definition invalidAsset : ErrorObject :=
  {| status := 400; error := Some "invalid asset"; stack := None;
     soft := false |}.

Definition insufficientFunds : ErrorObject :=
  {| status := 402; error := Some "insufficient funds"; stack := None;
     soft := false |}.

Definition invalidHash : ErrorObject :=
  {| status := 400; error := Some "invalid hash"; stack := None; soft := false |}.
Definition invalidPreviousHash : ErrorObject :=
  {| status := 400; error := Some "invalid previous hash"; stack := None;
     soft := true |}.
Definition invalidHeight : ErrorObject :=
  {| status := 400; error := Some "invalid height"; stack := None;
     soft := false |}.
Definition invalidTimestamp : ErrorObject :=
  {| status := 400; error := Some "invalid timestamp"; stack := None;
     soft := false |}.
Definition invalidDifficultyClaim : ErrorObject :=
  {| status := 400; error := Some "invalid difficulty claim"; stack := None;
     soft := false |}.
Definition tooManyMessages : ErrorObject :=
  {| status := 400; error := Some "too many messages"; stack := None;
     soft := false |}.
Definition insufficientDifficulty : ErrorObject :=
  {| status := 400; error := Some "insufficient difficulty"; stack := None;
     soft := false |}.

(** What a block is compared with: the hash and the height of the tip. *)
Definition parentHash (blocks : list Block) : string :=
  match last blocks with Some parent => blockHash parent | None => "0" end.

Definition parentHeight (blocks : list Block) : num :=
  match last blocks with Some parent => height parent | None => 0 end.

(** "On first failure return its error." *)
Fixpoint firstFailure (checks : list (Comp bool * ErrorObject))
    (otherwise : Comp Verdict) : Comp Verdict :=
  match checks with
  | [] => otherwise
  | (check, e) :: rest =>
      ok ← check;
      if ok : bool then firstFailure rest otherwise else Ret (Some e)
  end.

Fixpoint firstError (verdicts : list (Comp Verdict)) : Comp Verdict :=
  match verdicts with
  | [] => Ret None
  | v :: rest =>
      e ← v; match e with Some e' => Ret (Some e') | None => firstError rest end
  end.

(** * Further code of [index.js] *)

(** ** Per-address balance views (index.js, lines 2806-2811 and 2993-3128) *)

(** [balances[asset] = (balances[asset] or 0) + quantity] on one address
    entry, and the same with a subtraction. *)
Definition entryCredit (entry : gmap string num) (asset : string)
    (quantity : num) : gmap string num :=
  <[asset := default 0 (entry !! asset) + quantity]> entry.

Definition entryDebit (entry : gmap string num) (asset : string)
    (quantity : num) : gmap string num :=
  <[asset := default 0 (entry !! asset) - quantity]> entry.

(** [burn] and [drop] in the views: an undefaulted read, and a [delete]
    when the result is not positive. *)
Definition entryDebitOrDelete (entry : gmap string num) (asset : string)
    (quantity : num) : gmap string num :=
  match entry !! asset with
  | Some assetEntry =>
      if num_gtb (assetEntry - quantity) 0
      then <[asset := assetEntry - quantity]> entry
      else delete asset entry
  | None => delete asset entry
  end.

(** The body of the loop of [_getPostMessagesBalances]. *)
Definition postMessageBalances (db : Db) (mempool : option Mempool)
    (confirmingMessages : list Message) (address : string)
    (entry : gmap string num) (message : Message) : gmap string num :=
  match body (payload message) with
  | Coinbase asset quantity localAddress =>
      if String.eqb localAddress address
      then entryCredit entry asset quantity else entry
  | Send asset quantity srcAddress dstAddress _ =>
      let entry1 := if String.eqb srcAddress address
                    then entryDebit entry asset quantity else entry in
      if String.eqb dstAddress address
      then entryCredit entry1 asset quantity else entry1
  | Buy asset quantity price publicKey =>
      let srcAddress := viewMinter db mempool confirmingMessages asset in
      let dstAddress := _getAddressFromPublicKey publicKey in
      let entry1 := if minterIs srcAddress address
                    then entryCredit entry CRD (price * quantity) else entry in
      if String.eqb dstAddress address
      then entryCredit (entryDebit entry1 CRD (price * quantity)) asset quantity
      else entry1
  | Mint asset quantity publicKey =>
      if String.eqb (_getAddressFromPublicKey publicKey) address
      then entryCredit entry asset quantity else entry
  | Get localAddress asset quantity =>
      if String.eqb localAddress address
      then entryCredit entry asset quantity else entry
  | Burn asset quantity publicKey =>
      if String.eqb (_getAddressFromPublicKey publicKey) address
      then entryDebitOrDelete entry asset quantity else entry
  | Drop localAddress asset quantity =>
      if String.eqb localAddress address
      then entryDebitOrDelete entry asset quantity else entry
  | Minter asset publicKey =>
      if String.eqb (_getAddressFromPublicKey publicKey) address
      then entryCredit entry (asset ++ ":mint") 1 else entry
  | Price _ _ _ | Unknown _ => entry
  end.

Definition _getPostMessagesBalances (entry : gmap string num) (db : Db)
    (mempool : option Mempool) (confirmingMessages : list Message)
    (address : string) (msgs : list Message) : gmap string num :=
  List.fold_left (postMessageBalances db mempool confirmingMessages address)
    msgs entry.

Definition _getConfirmedBalances (db : Db) (confirmingMessages : list Message)
    (address : string) : gmap string num :=
  _getPostMessagesBalances (default ∅ (balances db !! address)) db None
    confirmingMessages address confirmingMessages.

Definition _getUnconfirmedBalances (db : Db) (mempool : Mempool)
    (confirmingMessages : list Message) (address : string)
  : gmap string num :=
  _getPostMessagesBalances (_getConfirmedBalances db confirmingMessages address)
    db (Some mempool) confirmingMessages address (mempoolMessages mempool).

(** ** All balances with the mempool applied (index.js, lines 2806 and
    2820-2992) *)

Definition _getAllConfirmedBalances (db : Db) : Balances := balances db.

(** The body of the loop of [_getAllUnconfirmedBalances]: the balance
    updates of the commit loop, with the seller of a [buy] read from the
    unconfirmed minter view and no branch for other types. *)
Definition allUnconfirmedStep (db : Db) (mempool : Mempool) (result : Balances)
    (message : Message) : Balances :=
  match body (payload message) with
  | Coinbase asset quantity address => credit result address asset quantity
  | Send asset quantity srcAddress dstAddress _ =>
      credit (debit result srcAddress asset quantity) dstAddress asset quantity
  | Buy asset quantity price publicKey =>
      let srcAddress := minterKey (_getUnconfirmedMinter db mempool [] asset) in
      let dstAddress := _getAddressFromPublicKey publicKey in
      credit
        (debit (credit result srcAddress CRD (quantity * price))
           dstAddress CRD (quantity * price))
        dstAddress asset quantity
  | Mint asset quantity publicKey =>
      credit result (_getAddressFromPublicKey publicKey) asset quantity
  | Get address asset quantity => credit result address asset quantity
  | Burn asset quantity publicKey =>
      debitOrDelete result (_getAddressFromPublicKey publicKey) asset quantity
  | Drop address asset quantity => debitOrDelete result address asset quantity
  | Minter asset publicKey =>
      credit result (_getAddressFromPublicKey publicKey) (asset ++ ":mint") 1
  | Price _ _ _ | Unknown _ => result
  end.

Definition _getAllUnconfirmedBalances (db : Db) (mempool : Mempool) : Balances :=
  List.fold_left (allUnconfirmedStep db mempool) (mempoolMessages mempool)
    (_getAllConfirmedBalances db).

(** ** Block attachment (index.js, lines 957-1075 and 1377-1474) *)

(** [a[i]] for a number [i]: an element for an index that is a
    non-negative integer within bounds, [undefined] otherwise. *)
Definition indexNum {A : Type} (a : list A) (i : num) : option A :=
  if num_leb 0 i && num_eqb (Math_floor i) i
  then a !! Z.to_nat (Qfloor i)
  else None.

(** [a.slice(0, end)] *)
Definition sliceTo {A : Type} (e : num) (l : list A) : list A :=
  let k := toInteger e in
  if (k <? 0)%Z
  then List.firstn (Z.to_nat (Z.max (Z.of_nat (length l) + k) 0)) l
  else List.firstn (Z.to_nat k) l.

Definition topBlockHeightOf (chain : list Block) : num :=
  match last chain with Some b => height b | None => 0 end.

Definition _checkBlockExists (chain : list Block) (mempool : Mempool)
    (block : Block) : bool :=
  let checkBlockIndex := height block - 1 in
  let topBlockIndex := topBlockHeightOf chain - 1 in
  let firstBlockHeight := match chain with b :: _ => height b | [] => 0 end in
  let firstBlockIndex := firstBlockHeight - 1 in
  let mainChainBlock :=
    if num_leb checkBlockIndex topBlockIndex
    then indexNum chain (checkBlockIndex - firstBlockIndex)
    else None in
  match mainChainBlock with
  | Some b =>
      if String.eqb (blockHash b) (blockHash block) then true
      else existsb (fun mempoolBlock =>
                      String.eqb (blockHash mempoolBlock) (blockHash block)
                      && num_eqb (height mempoolBlock) (height block))
             (mempoolBlocks mempool)
  | None =>
      existsb (fun mempoolBlock =>
                 String.eqb (blockHash mempoolBlock) (blockHash block)
                 && num_eqb (height mempoolBlock) (height block))
        (mempoolBlocks mempool)
  end.

(** [_getPreviousMainChainBlock]; an index within [0, length) that is not
    an integer reads [undefined], whose [hash] cannot be read. *)
Definition _getPreviousMainChainBlock (chain : list Block) (block : Block)
  : Comp (option Block) :=
  let previousBlockIndex := height block - 1 - 1 in
  if num_geb previousBlockIndex 0
     && num_ltb previousBlockIndex (ofZ (Z.of_nat (length chain)))
  then match indexNum chain previousBlockIndex with
       | Some candidateMainChainBlock =>
           if String.eqb (blockHash candidateMainChainBlock) (prevHash block)
           then Ret (Some candidateMainChainBlock)
           else Ret None
       | None => Throw (TypeError "undefined.hash")
       end
  else Ret None.

(** [mempool.blocks.find(mempoolBlock => mempoolBlock.hash === prevHash)] *)
Definition _getPreviousMempoolBlock (mempool : Mempool) (block : Block)
  : option Block :=
  List.find (fun mempoolBlock =>
               String.eqb (blockHash mempoolBlock) (prevHash block))
    (mempoolBlocks mempool).

(** The [for (;;)] loop of [_getBlockForkOrigin]. The source puts no bound
    on it; [None] stands for a run that has not returned within [fuel]
    iterations. *)
Fixpoint _getBlockForkOrigin (fuel : nat) (chain : list Block)
    (mempool : Mempool) (b : Block) : option (Comp (option Block)) :=
  match fuel with
  | O => None
  | S fuel' =>
      match _getPreviousMainChainBlock chain b with
      | Throw e => Some (Throw e)
      | Ret (Some previousMainChainBlock) =>
          Some (Ret (Some previousMainChainBlock))
      | Ret None =>
          match _getPreviousMempoolBlock mempool b with
          | Some previousMempoolBlock =>
              _getBlockForkOrigin fuel' chain mempool previousMempoolBlock
          | None => Some (Ret None)
          end
      end
  end.

(** The loop that collects [extraBlocks]: from the block back through the
    mempool until the fork origin's hash is met; [b] is the loop variable,
    [undefined] when [find] found nothing. *)
Fixpoint extraBlocksLoop (fuel : nat) (mempool : Mempool)
    (forkedBlock : Block) (b : option Block) (result : list Block)
  : option (Comp (list Block)) :=
  match fuel with
  | O => None
  | S fuel' =>
      match b with
      | None => Some (Throw (TypeError "undefined.hash"))
      | Some b' =>
          if negb (String.eqb (blockHash b') (blockHash forkedBlock))
          then extraBlocksLoop fuel' mempool forkedBlock
                 (_getPreviousMempoolBlock mempool b') (b' :: result)
          else Some (Ret result)
      end
  end.

Definition _findBlockAttachPoint (fuel : nat) (chain : list Block)
    (mempool : Mempool) (block : Block) : option (Comp AttachPoint) :=
  let blockIndex := height block - 1 in
  let topBlockIndex := topBlockHeightOf chain - 1 in
  if num_geb blockIndex (Math_max (topBlockIndex - ofZ 10) 0)
     && num_leb blockIndex (topBlockIndex + 1)
  then
    let candidateTopMainChainBlockHash :=
      match last chain with Some b => blockHash b | None => zeroHash end in
    if num_eqb blockIndex (topBlockIndex + 1)
       && String.eqb candidateTopMainChainBlockHash (prevHash block)
    then Some (Ret mainChain)
    else
      match _getBlockForkOrigin fuel chain mempool block with
      | None => None
      | Some (Throw e) => Some (Throw e)
      | Some (Ret (Some forkedBlock)) =>
          match extraBlocksLoop fuel mempool forkedBlock (Some block) [] with
          | None => None
          | Some (Throw e) => Some (Throw e)
          | Some (Ret extraBlocks) =>
              Some (Ret (sideChain (Some forkedBlock)
                           (sliceTo (height forkedBlock) chain ++ extraBlocks)))
          end
      | Some (Ret None) =>
          if num_eqb (height block) 1
          then Some (Ret (sideChain None [block]))
          else Some (Ret dangling)
      end
  else
    if num_ltb blockIndex (Math_max (topBlockIndex - ofZ 10) 0)
    then Some (Ret (outOfRange (-1)))
    else Some (Ret (outOfRange 1)).

Definition blockExists : ErrorObject :=
  {| status := 400; error := Some "block exists"; stack := None; soft := true |}.

(** [addBlock]: [None] when one of the two unbounded loops has not returned
    within [fuel] iterations. *)
Definition addBlock (fuel : nat) (c : Crds) (block : Block)
  : option (Comp (Verdict * Crds * list Event)) :=
  if negb (_checkBlockExists (blocks c) (mempool c) block) then
    match _findBlockAttachPoint fuel (blocks c) (mempool c) block with
    | None => None
    | Some (Throw e) => Some (Throw e)
    | Some (Ret attachPoint) => Some (addBlockAt c block attachPoint)
    end
  else Some (Ret (Some blockExists, c, [])).

(** ** Asset names, in words *)

Definition headChar (s : string) : option ascii :=
  match s with
  | EmptyString => None
  | String c _ => Some c
  end.

Fixpoint lastChar (s : string) : option ascii :=
  match s with
  | EmptyString => None
  | String c rest =>
      match rest with
      | EmptyString => Some c
      | String _ _ => lastChar rest
      end
  end.

Fixpoint allChars (p : ascii → bool) (s : string) : bool :=
  match s with
  | EmptyString => true
  | String c rest => p c && allChars p rest
  end.

(** A base asset name: not empty, made of upper-case letters, digits and
    dashes, with no dash at either end. *)
Definition isBaseAssetName (s : string) : Prop :=
  s ≠ ""
  ∧ allChars (fun c => isUpperOrDigit c || isDash c) s = true
  ∧ headChar s ≠ Some "-"%char
  ∧ lastChar s ≠ Some "-"%char.

Definition notColon (c : ascii) : bool := negb (Ascii.eqb c ":"%char).

(** ** Vocabulary for the properties of blocks and of the node *)

Definition isCoinbase (message : Message) : bool :=
  match body (payload message) with
  | Coinbase _ _ _ => true
  | _ => false
  end.

Definition isBuy (message : Message) : bool :=
  match body (payload message) with
  | Buy _ _ _ _ => true
  | _ => false
  end.

Definition isUnknown (message : Message) : bool :=
  match body (payload message) with
  | Unknown _ => true
  | _ => false
  end.

Definition replayDetected : ErrorObject :=
  {| status := 400; error := Some "replay detected"; stack := None;
     soft := true |}.

Definition mempoolFull : ErrorObject :=
  {| status := 503; error := Some "mempool full"; stack := None;
     soft := false |}.

(** Each block names its predecessor's hash and has the next height. *)
Definition linked (chain : list Block) : Prop :=
  ∀ (i : nat) (b1 b2 : Block),
    chain !! i = Some b1 → chain !! S i = Some b2 →
    prevHash b2 = blockHash b1 ∧ height b2 = height b1 + 1.


(** * The same code over IEEE 754 doubles

    The definitions of this part evaluate the arithmetic of the source in
    binary64, the number type of JavaScript, with the kernel's primitive
    floats. What the source obtains from its environment is a parameter:
    [Array.prototype.sort], whose algorithm the engine chooses, and the
    big-integer package. *)

Module Binary64.

Abbreviation number := PrimFloat.float.

(** The exact value of a finite double, as a rational; 0 for the others. *)
Definition toQ (x : number) : Q :=
  match Prim2SF x with
  | S754_finite s m e =>
      let v := if s then Z.neg m else Z.pos m in
      if (0 <=? e)%Z then inject_Z (v * 2 ^ e)
      else Qmake v (Z.to_pos (2 ^ (- e)))
  | _ => 0%Q
  end.

Definition valueOf (x : number) : num := Q2Qc (toQ x).

(** The double of an integer (exact below [2^53]), of a length. *)
Definition ofInteger (z : Z) : number :=
  SF2Prim (binary_normalize prec emax z 0 false).

Definition ofLength (n : nat) : number := ofInteger (Z.of_nat n).

(** [Math.max] and [Math.min] of two numbers: [NaN] if either is [NaN];
    of the two zeros, [+0] is the larger. *)
Definition Math_max (a b : number) : number :=
  if PrimFloat.is_nan a || PrimFloat.is_nan b then PrimFloat.nan
  else if (a <? b)%float then b
  else if (b <? a)%float then a
  else if PrimFloat.get_sign a then b else a.

Definition Math_min (a b : number) : number :=
  if PrimFloat.is_nan a || PrimFloat.is_nan b then PrimFloat.nan
  else if (a <? b)%float then a
  else if (b <? a)%float then b
  else if PrimFloat.get_sign a then a else b.

(** [Math.round]: the nearest integer, a tie going up; [-0] for a result
    of zero from a negative argument. *)
Definition Math_round (x : number) : number :=
  if PrimFloat.is_finite x && (PrimFloat.abs x <? 4503599627370496)%float
  then let z := Qfloor (toQ x + (1 # 2)) in
       if (z =? 0)%Z && PrimFloat.get_sign x then PrimFloat.neg_zero
       else ofInteger z
  else x.

Definition MIN_DIFFICULTY : number := 1000%float.
Definition TARGET_TIME : number := 600000%float.
Definition TARGET_SWAY_MAX : number := 2%float.
Definition TARGET_SWAY_MIN : number := 0.5%float.

(** ** The data model with double fields *)

Inductive Body : Type :=
| Coinbase (asset : string) (quantity : number) (address : string)
| Send (asset : string) (quantity : number) (srcAddress dstAddress : string)
       (publicKey : PublicKey)
| Minter (asset : string) (publicKey : PublicKey)
| Mint (asset : string) (quantity : number) (publicKey : PublicKey)
| Get (address asset : string) (quantity : number)
| Burn (asset : string) (quantity : number) (publicKey : PublicKey)
| Drop (address asset : string) (quantity : number)
| Price (asset : string) (price : number) (publicKey : PublicKey)
| Buy (asset : string) (quantity price : number) (publicKey : PublicKey)
| Unknown (type : string).

Record Payload : Type := {
  sha256 : string;
  startHeight : number;
  body : Body;
}.

Record Message : Type := {
  payload : Payload;
  hash : string;
  signature : Signature;
}.

Record Block : Type := {
  blockHash : string;
  prevHash : string;
  height : number;
  difficulty : number;
  version : string;
  timestamp : number;
  messages : list Message;
  nonce : number;
  getHash : string;
}.

(** ** Consensus helpers (index.js, lines 64-73 and 3299-3363) *)

Section Consensus.

(** [Array.prototype.sort(comparefn)]: the engine's algorithm. *)
Variable Array_sort : (Block → Block → number) → list Block → list Block.

(** The big-integer package: [bigint(text, 16)], [bigint(number)],
    [divide], [leq], [valueOf], and the constant [maxTarget] the source
    parses when it is loaded. *)
Variable BigInteger : Type.
Variable bigint_parse16 : string → Comp BigInteger.
Variable bigint_of_number : number → Comp BigInteger.
Variable bigint_divide : BigInteger → BigInteger → Comp BigInteger.
Variable bigint_leq : BigInteger → BigInteger → bool.
Variable bigint_valueOf : BigInteger → number.
Variable maxTarget : BigInteger.

(** [Message.verify], and the types of the arguments [Block.verify] hands
    on to it. *)
Variables Db Mempool : Type.
Variable Message_verify :
  Db → list Block → option Mempool → list Message → Message → Comp Verdict.

Definition _getDifficultyTarget (d : number) : Comp BigInteger :=
  r ← bigint_of_number (Math_round d); bigint_divide maxTarget r.

Definition _getHashDifficulty (h : string) : Comp number :=
  v ← bigint_parse16 h; q ← bigint_divide v maxTarget; Ret (bigint_valueOf q).

Definition _checkHashMeetsTarget (h : string) (target : BigInteger)
  : Comp bool :=
  v ← bigint_parse16 h; Ret (bigint_leq v target).

(** [a[i].timestamp]; reading a field of [undefined] raises a [TypeError]. *)
Definition timestampAt (a : list Block) (i : nat) : Comp number :=
  match a !! i with
  | Some b => Ret (timestamp b)
  | None => Throw (TypeError "undefined.timestamp")
  end.

Definition _getNextBlockMinTimestamp (blocks : list Block) : Comp number :=
  let checkBlocks := sliceLast TARGET_BLOCKS blocks in
  let sortedCheckBlocks :=
    Array_sort (fun a b => (timestamp a - timestamp b)%float) checkBlocks in
  if (0 <? length sortedCheckBlocks)%nat then
    let middleIndex := ((length sortedCheckBlocks - 1) / 2)%nat in
    if (length sortedCheckBlocks mod 2 =? 0)%nat then
      a ← timestampAt sortedCheckBlocks middleIndex;
      b ← timestampAt sortedCheckBlocks (middleIndex + 1);
      Ret ((a + b) / 2)%float
    else timestampAt sortedCheckBlocks middleIndex
  else Ret 0%float.

(** The loop that finds the blocks with the least and the greatest
    timestamp; [None] is the initial [null]. *)
Definition firstLastStep (acc : option Block * option Block)
    (checkBlock : Block) : option Block * option Block :=
  let firstCheckBlock :=
    match acc.1 with
    | None => Some checkBlock
    | Some f => if (timestamp checkBlock <? timestamp f)%float
                then Some checkBlock else Some f
    end in
  let lastCheckBlock :=
    match acc.2 with
    | None => Some checkBlock
    | Some l => if (timestamp l <? timestamp checkBlock)%float
                then Some checkBlock else Some l
    end in
  (firstCheckBlock, lastCheckBlock).

Definition checkBlocksTimeDiff (checkBlocks : list Block) : Comp number :=
  if (0 <? length checkBlocks)%nat then
    match List.fold_left firstLastStep checkBlocks (None, None) with
    | (Some firstCheckBlock, Some lastCheckBlock) =>
        Ret (timestamp lastCheckBlock - timestamp firstCheckBlock)%float
    | _ => Throw (TypeError "null.timestamp")
    end
  else Ret 0%float.

Definition averageDifficulty (checkBlocks : list Block) : number :=
  if (0 <? length checkBlocks)%nat then
    (List.fold_left (fun acc checkBlock => (acc + difficulty checkBlock)%float)
       checkBlocks 0%float
     / ofLength (length checkBlocks))%float
  else 0%float.

Definition _getNextBlockBaseDifficulty (blocks : list Block) : Comp number :=
  let checkBlocks := sliceLast TARGET_BLOCKS blocks in
  timeDiff ← checkBlocksTimeDiff checkBlocks;
  let expectedTimeDiff := TARGET_TIME in
  let accuracyFactor :=
    Math_max (Math_min (timeDiff / expectedTimeDiff)%float TARGET_SWAY_MAX)
      TARGET_SWAY_MIN in
  Ret (Math_max (averageDifficulty checkBlocks / accuracyFactor)%float
         MIN_DIFFICULTY).

Fixpoint _getMessagesDifficulty_from (result : number) (msgs : list Message)
  : Comp number :=
  match msgs with
  | [] => Ret result
  | message :: rest =>
      d ← _getHashDifficulty (hash message);
      _getMessagesDifficulty_from (result + d)%float rest
  end.

Definition _getMessagesDifficulty (msgs : list Message) : Comp number :=
  _getMessagesDifficulty_from 0%float msgs.

(** ** The block validator (index.js, lines 131-203) *)

Section BlockVerify.
Variables (this : Block) (db : Db) (blocks : list Block)
          (mempool : option Mempool).

Definition _checkHash : bool := String.eqb (getHash this) (blockHash this).

Definition _checkPrevHash : bool :=
  let prevBlockHash := match last blocks with
                       | Some b => blockHash b
                       | None => zeroHash
                       end in
  String.eqb (prevHash this) prevBlockHash.

Definition _checkHeight : bool :=
  let nextBlockHeight :=
    (match last blocks with Some b => height b | None => 0 end + 1)%float in
  (height this =? nextBlockHeight)%float.

Definition _checkTimestamp : Comp bool :=
  t ← _getNextBlockMinTimestamp blocks; Ret (t <=? timestamp this)%float.

Definition _checkDifficultyClaim : Comp bool :=
  target ← _getDifficultyTarget (difficulty this);
  _checkHashMeetsTarget (blockHash this) target.

Definition _checkSufficientDifficulty : Comp bool :=
  base ← _getNextBlockBaseDifficulty blocks;
  bonus ← _getMessagesDifficulty (messages this);
  Ret (Math_max (base - bonus)%float MIN_DIFFICULTY <=? difficulty this)%float.

Definition _checkMessagesCount : bool :=
  (length (messages this) <=? MESSAGES_PER_BLOCK_MAX)%nat.

(** The loop of [_verifyMessages]: [before] and [after] are the messages
    on either side of the one at index [i]. *)
Fixpoint verifyMessagesFrom (before rest : list Message) : Comp Verdict :=
  match rest with
  | [] => Ret None
  | message :: after =>
      e ← Message_verify db blocks mempool (before ++ after) message;
      match e with
      | Some e' => Ret (Some e')
      | None => verifyMessagesFrom (before ++ [message]) after
      end
  end.

Definition _verifyMessages : Comp Verdict :=
  verifyMessagesFrom [] (messages this).

Definition Block_verify : Comp Verdict :=
  if negb _checkHash then Ret (Some (err 400 "invalid hash"))
  else if negb _checkPrevHash
  then Ret (Some (errSoft 400 "invalid previous hash"))
  else if negb _checkHeight then Ret (Some (err 400 "invalid height"))
  else
    okTimestamp ← _checkTimestamp;
    if negb okTimestamp then Ret (Some (err 400 "invalid timestamp"))
    else
      okClaim ← _checkDifficultyClaim;
      if negb okClaim then Ret (Some (err 400 "invalid difficulty claim"))
      else if negb _checkMessagesCount
      then Ret (Some (err 400 "too many messages"))
      else
        okDifficulty ← _checkSufficientDifficulty;
        if negb okDifficulty
        then Ret (Some (err 400 "insufficient difficulty"))
        else _verifyMessages.
End BlockVerify.

End Consensus.

(** ** The retarget formula and the median, evaluated in doubles *)

(** A running sum from 0, left to right, and the mean it gives. *)
Definition sumLeft (l : list number) : number :=
  List.fold_left PrimFloat.add l 0%float.

Definition meanOf (l : list number) : number :=
  (sumLeft l / ofLength (length l))%float.

(** The greatest and the least of a sample, found by comparing each value
    with the best one so far; the first of equal values is kept. *)
Definition greatest (l : list number) : number :=
  match l with
  | [] => 0%float
  | x :: rest =>
      List.fold_left (fun best y => if (best <? y)%float then y else best)
        rest x
  end.

Definition least (l : list number) : number :=
  match l with
  | [] => 0%float
  | x :: rest =>
      List.fold_left (fun best y => if (y <? best)%float then y else best)
        rest x
  end.

Definition clamp (x lo hi : number) : number := Math_max (Math_min x hi) lo.

(** The median of a sorted sample: its middle value, or the sum of its two
    middle values divided by 2 when the size is even; 0 for no sample. *)
Definition medianOfSorted (s : list number) : number :=
  let n := length s in
  if (n =? 0)%nat then 0%float
  else if Nat.even n
       then ((nth (n / 2 - 1) s 0 + nth (n / 2) s 0) / 2)%float
       else nth (n / 2) s 0%float.

(** The order a comparator leaves: no later element is strictly before an
    earlier one ([comparefn(later, earlier) < 0] does not hold). *)
Definition sortedBy {A : Type} (comparefn : A → A → number) (s : list A)
  : Prop :=
  ∀ (i j : nat) (a b : A),
    (i < j)%nat → s !! i = Some a → s !! j = Some b →
    (comparefn b a <? 0)%float = false.

(** An insertion sort, as engines use for short arrays. *)
Fixpoint insertSorted {A : Type} (comparefn : A → A → number) (x : A)
    (sorted : list A) : list A :=
  match sorted with
  | [] => [x]
  | y :: rest =>
      if (0 <? comparefn x y)%float
      then y :: insertSorted comparefn x rest
      else x :: sorted
  end.

Definition insertionSort {A : Type} (comparefn : A → A → number)
    (l : list A) : list A :=
  List.fold_right (insertSorted comparefn) [] l.

(** The parent of the next block: the last block of the chain. *)
Definition parentHash (blocks : list Block) : string :=
  match last blocks with Some parent => blockHash parent | None => "0" end.

Definition parentHeight (blocks : list Block) : number :=
  match last blocks with Some parent => height parent | None => 0%float end.

(** ** Scenarios *)

(** A block with the given hash, parent, height, difficulty and timestamp,
    whose [hash] is the digest [getHash] computes. *)
Definition minedBlock (h prev : string) (ht d t : number)
    (ms : list Message) : Block :=
  {| blockHash := h; prevHash := prev; height := ht; difficulty := d;
     version := "0.0.1"; timestamp := t; messages := ms; nonce := 0%float;
     getHash := h |}.

(** Two blocks 700 seconds apart, of difficulties 1000 and 2000. *)
Definition slowChain : list Block :=
  [minedBlock "1f" "0" 1 1000 0 []; minedBlock "2f" "1f" 2 2000 700000 []].

(** Two blocks whose timestamps are the neighbouring integers
    [2^53 - 2] and [2^53 - 1]. *)
Definition lateChain : list Block :=
  [minedBlock "1f" "0" 1 1000 9007199254740990 [];
   minedBlock "2f" "1f" 2 1000 9007199254740991 []].

(** An instance of the big-integer package for hexadecimal text and
    integral numbers, used by the examples. *)
Definition hexParse (h : string) : Comp Z := bigint16 h.

Definition integerOf (x : number) : Comp Z :=
  if PrimFloat.is_finite x then Ret (Qfloor (toQ x))
  else Throw (Error "Invalid integer").

Definition integerDivide (a b : Z) : Comp Z :=
  if (b =? 0)%Z then Throw (Error "Cannot divide by zero")
  else Ret (Z.quot a b).

(** ** The checks of [Block.verify], in the spec's words *)

Section OrderedChecks.
Variable Array_sort : (Block → Block → number) → list Block → list Block.
Variable BigInteger : Type.
Variable bigint_parse16 : string → Comp BigInteger.
Variable bigint_of_number : number → Comp BigInteger.
Variable bigint_divide : BigInteger → BigInteger → Comp BigInteger.
Variable bigint_leq : BigInteger → BigInteger → bool.
Variable bigint_valueOf : BigInteger → number.
Variable maxTarget : BigInteger.
Variables Db Mempool : Type.
Variable Message_verify :
  Db → list Block → option Mempool → list Message → Message → Comp Verdict.

(** The median timestamp of the last 10 blocks, as the engine sorts them. *)
Definition medianTimestamp (blocks : list Block) : number :=
  medianOfSorted
    (map timestamp
       (Array_sort (fun a b => (timestamp a - timestamp b)%float)
          (sliceLast 10 blocks))).

(** The base difficulty: [max(mean / f, 1000)] over the last 10 blocks,
    and 1000 when there is none. *)
Definition baseDifficulty (blocks : list Block) : number :=
  let window := sliceLast 10 blocks in
  match window with
  | [] => 1000%float
  | _ :: _ =>
      Math_max
        (meanOf (map difficulty window)
         / clamp ((greatest (map timestamp window)
                   - least (map timestamp window)) / 600000) 0.5 2)%float
        1000%float
  end.

(** [hashDifficulty(h)]: the hash, read in base 16, divided by
    [maxTarget]. *)
Definition hashDifficulty (h : string) : Comp number :=
  v ← bigint_parse16 h; q ← bigint_divide v maxTarget; Ret (bigint_valueOf q).

(** The hash difficulties of the messages, in order. *)
Fixpoint hashDifficulties (msgs : list Message) : Comp (list number) :=
  match msgs with
  | [] => Ret []
  | message :: rest =>
      d ← hashDifficulty (hash message);
      ds ← hashDifficulties rest;
      Ret (d :: ds)
  end.

(** The message bonus: their sum. *)
Definition messagesBonus (msgs : list Message) : Comp number :=
  ds ← hashDifficulties msgs; Ret (sumLeft ds).

(** The difficulty target: [maxTarget] divided by the rounded difficulty. *)
Definition difficultyTarget (d : number) : Comp BigInteger :=
  r ← bigint_of_number (Math_round d); bigint_divide maxTarget r.

Definition orderedChecks (this : Block) (blocks : list Block)
  : list (Comp bool * ErrorObject) :=
  [ (Ret (bool_decide (getHash this = blockHash this)), invalidHash);
    (Ret (bool_decide (prevHash this = parentHash blocks)), invalidPreviousHash);
    (Ret (height this =? parentHeight blocks + 1)%float, invalidHeight);
    (Ret (medianTimestamp blocks <=? timestamp this)%float, invalidTimestamp);
    (target ← difficultyTarget (difficulty this);
     value ← bigint_parse16 (blockHash this);
     Ret (bigint_leq value target), invalidDifficultyClaim);
    (Ret (bool_decide (length (messages this) ≤ MESSAGES_PER_BLOCK_MAX)%nat),
     tooManyMessages);
    (bonus ← messagesBonus (messages this);
     Ret (Math_max (baseDifficulty blocks - bonus) 1000 <=? difficulty this)%float,
     insufficientDifficulty) ].

(** Check 8: every message, validated with the other messages of the block
    as siblings and no mempool. *)
Definition messageVerdicts (this : Block) (db : Db) (blocks : list Block)
  : list (Comp Verdict) :=
  imap (fun i message =>
          Message_verify db blocks None (delete i (messages this)) message)
    (messages this).

End OrderedChecks.

(** ** The state projector (index.js, lines 1076-1283) *)

(** What a table of numbers holds after [_clone] (a JSON round trip) has
    gone over it: a number, or the [null] that [JSON.stringify] writes for
    [NaN] and the infinities. *)
Inductive Stored : Type :=
| Num (x : number)
| Null.

(** [ToNumber]: [null] counts as [+0] in arithmetic. *)
Definition toNumber (v : Stored) : number :=
  match v with
  | Num x => x
  | Null => 0%float
  end.

Definition _cloneStored (v : Stored) : Stored :=
  match v with
  | Num x =>
      match Prim2SF x with
      | S754_zero _ => Num 0%float
      | S754_finite _ _ _ => Num x
      | S754_infinity _ | S754_nan => Null
      end
  | Null => Null
  end.

Abbreviation Balances := (gmap string (gmap string Stored)).

Record Db : Type := {
  balances : Balances;
  messageHashes : list (list string);
  minters : gmap string (option string);
  prices : gmap string Stored;
}.

Record Mempool : Type := {
  mempoolBlocks : list Block;
  mempoolMessages : list Message;
}.

Definition DEFAULT_DB : Db :=
  {| balances := ∅;
     messageHashes := [];
     minters := {[ CRD := None ]};
     prices := {[ "CRD" := Num PrimFloat.infinity ]} |}.

Definition _clone (db : Db) : Db :=
  {| balances :=
       (fun entry : gmap string Stored => _cloneStored <$> entry)
         <$> balances db;
     messageHashes := messageHashes db;
     minters := minters db;
     prices := _cloneStored <$> prices db |}.

(** [entry[asset]] with [undefined] replaced by 0, as the additions read
    it, and without the replacement, as [burn] and [drop] read it. *)
Definition entryOrZero (entry : gmap string Stored) (asset : string)
  : number :=
  match entry !! asset with
  | Some v => toNumber v
  | None => 0%float
  end.

Definition entryOrNaN (entry : gmap string Stored) (asset : string)
  : number :=
  match entry !! asset with
  | Some v => toNumber v
  | None => PrimFloat.nan
  end.

(** [entry[asset] = (entry[asset] or 0) + quantity] on the entry of
    [address], created when missing. *)
Definition credit (bal : Balances) (address asset : string)
    (quantity : number) : Balances :=
  let addressEntry := default ∅ (bal !! address) in
  let assetEntry := entryOrZero addressEntry asset in
  <[address := <[asset := Num (assetEntry + quantity)%float]> addressEntry]>
    bal.

Definition debit (bal : Balances) (address asset : string)
    (quantity : number) : Balances :=
  let addressEntry := default ∅ (bal !! address) in
  let assetEntry := entryOrZero addressEntry asset in
  <[address := <[asset := Num (assetEntry - quantity)%float]> addressEntry]>
    bal.

(** [burn] and [drop]: a result that is not positive deletes the asset,
    and the address once it holds nothing. *)
Definition debitOrDelete (bal : Balances) (address asset : string)
    (quantity : number) : Balances :=
  let addressEntry := default ∅ (bal !! address) in
  let assetEntry := (entryOrNaN addressEntry asset - quantity)%float in
  if (0 <? assetEntry)%float
  then <[address := <[asset := Num assetEntry]> addressEntry]> bal
  else
    let addressEntry' := delete asset addressEntry in
    if bool_decide (size addressEntry' = 0%nat)
    then delete address bal
    else <[address := addressEntry']> bal.

Definition readMinter (db : Db) (asset : string) : MinterValue :=
  match minters db !! asset with
  | None => MUndefined
  | Some None => MNull
  | Some (Some a) => MAddress a
  end.

Definition withBalances (db : Db) (bal : Balances) : Db :=
  {| balances := bal; messageHashes := messageHashes db;
     minters := minters db; prices := prices db |}.

Definition withMinter (db : Db) (asset address : string) : Db :=
  {| balances := balances db; messageHashes := messageHashes db;
     minters := <[asset := Some address]> (minters db); prices := prices db |}.

Definition withPrice (db : Db) (asset : string) (p : number) : Db :=
  {| balances := balances db; messageHashes := messageHashes db;
     minters := minters db; prices := <[asset := Num p]> (prices db) |}.

(** The body of the loop over [block.messages]. *)
Definition commitMessage (newDb : Db) (message : Message) : Comp Db :=
  match body (payload message) with
  | Coinbase asset quantity address =>
      Ret (withBalances newDb (credit (balances newDb) address asset quantity))
  | Send asset quantity srcAddress dstAddress _ =>
      let bal1 := debit (balances newDb) srcAddress asset quantity in
      let bal2 := credit bal1 dstAddress asset quantity in
      let db2 := withBalances newDb bal2 in
      match matchMint asset with
      | Some baseAsset => Ret (withMinter db2 baseAsset dstAddress)
      | None => Ret db2
      end
  | Price asset price _ => Ret (withPrice newDb asset price)
  | Buy asset quantity price publicKey =>
      let srcAddress := minterKey (readMinter newDb asset) in
      let dstAddress := _getAddressFromPublicKey publicKey in
      let bal1 :=
        credit (balances newDb) srcAddress CRD (quantity * price)%float in
      let bal2 := debit bal1 dstAddress CRD (quantity * price)%float in
      let bal3 := credit bal2 dstAddress asset quantity in
      Ret (withBalances newDb bal3)
  | Mint asset quantity publicKey =>
      Ret (withBalances newDb
             (credit (balances newDb) (_getAddressFromPublicKey publicKey)
                asset quantity))
  | Get address asset quantity =>
      Ret (withBalances newDb (credit (balances newDb) address asset quantity))
  | Burn asset quantity publicKey =>
      Ret (withBalances newDb
             (debitOrDelete (balances newDb)
                (_getAddressFromPublicKey publicKey) asset quantity))
  | Drop address asset quantity =>
      Ret (withBalances newDb
             (debitOrDelete (balances newDb) address asset quantity))
  | Minter asset publicKey =>
      let address := _getAddressFromPublicKey publicKey in
      let mintAsset := asset ++ ":mint" in
      Ret (withMinter
             (withBalances newDb (credit (balances newDb) address mintAsset 1))
             asset address)
  | Unknown type =>
      Throw (Error "internal error: committing a block with unknown message type")
  end.

Fixpoint commitMessages (newDb : Db) (msgs : list Message) : Comp Db :=
  match msgs with
  | [] => Ret newDb
  | message :: rest =>
      newDb' ← commitMessage newDb message; commitMessages newDb' rest
  end.

Definition pushMessageHashes (db : Db) (block : Block) : Db :=
  {| balances := balances db;
     messageHashes :=
       sliceLast 10 (messageHashes db ++ [List.map hash (messages block)]);
     minters := minters db; prices := prices db |}.

Definition evictMempool (mempool : Mempool) (block : Block) : Mempool :=
  {| mempoolBlocks :=
       List.filter (fun mempoolBlock =>
                      negb (String.eqb (blockHash mempoolBlock) (blockHash block)))
         (mempoolBlocks mempool);
     mempoolMessages :=
       List.filter (fun mempoolMessage =>
                      negb (existsb
                              (fun blockMessage =>
                                 String.eqb (sig_text (signature blockMessage))
                                   (sig_text (signature mempoolMessage)))
                              (messages block)))
         (mempoolMessages mempool) |}.

Definition _commitMainChainBlock (db : Db) (blocks : list Block)
    (mempool : option Mempool) (block : Block) : Comp (Db * option Mempool) :=
  newDb ← commitMessages (_clone db) (messages block);
  Ret (pushMessageHashes newDb block,
       (fun mp => evictMempool mp block) <$> mempool).

(** ** Exact values of a ledger, and updates that do not round *)

(** The exact value a stored number stands for; [null] and the numbers
    that are not finite count as 0. *)
Definition storedValue (v : Stored) : num := valueOf (toNumber v).

Definition exactBalances (bal : Balances) : gmap string (gmap string num) :=
  (fun entry : gmap string Stored => storedValue <$> entry) <$> bal.

(** The total supply of an asset: the exact sum of its balances. *)
Definition supply (bal : Balances) (asset : string) : num :=
  totalSupply (exactBalances bal) asset.

(** Every stored balance is a finite number. *)
Definition finiteLedger (bal : Balances) : Prop :=
  ∀ (address asset : string) (entry : gmap string Stored) (v : Stored),
    bal !! address = Some entry → entry !! asset = Some v →
    ∃ x : number, v = Num x ∧ PrimFloat.is_finite x = true.

(** The sum, or the difference, of two doubles is computed without
    rounding: the result is finite and is the exact sum, or difference. *)
Definition exactSum (x q : number) : Prop :=
  PrimFloat.is_finite (x + q)%float = true
  ∧ valueOf (x + q)%float = valueOf x + valueOf q.

Definition exactDifference (x q : number) : Prop :=
  PrimFloat.is_finite (x - q)%float = true
  ∧ valueOf (x - q)%float = valueOf x - valueOf q.

(** [credit], or [debit], of [quantity] rounds nothing on these balances. *)
Definition exactCredit (bal : Balances) (address asset : string)
    (quantity : number) : Prop :=
  exactSum (entryOrZero (default ∅ (bal !! address)) asset) quantity.

Definition exactDebit (bal : Balances) (address asset : string)
    (quantity : number) : Prop :=
  exactDifference (entryOrZero (default ∅ (bal !! address)) asset) quantity.

(** Committing the message rounds no balance. *)
Definition exactStep (db : Db) (message : Message) : Prop :=
  let bal := balances db in
  match body (payload message) with
  | Coinbase asset quantity address => exactCredit bal address asset quantity
  | Send asset quantity srcAddress dstAddress _ =>
      exactDebit bal srcAddress asset quantity
      ∧ exactCredit (debit bal srcAddress asset quantity) dstAddress asset
          quantity
  | Buy asset quantity price publicKey =>
      let srcAddress := minterKey (readMinter db asset) in
      let dstAddress := _getAddressFromPublicKey publicKey in
      let cost := (quantity * price)%float in
      let bal1 := credit bal srcAddress CRD cost in
      let bal2 := debit bal1 dstAddress CRD cost in
      exactCredit bal srcAddress CRD cost
      ∧ exactDebit bal1 dstAddress CRD cost
      ∧ exactCredit bal2 dstAddress asset quantity
  | Mint asset quantity publicKey =>
      exactCredit bal (_getAddressFromPublicKey publicKey) asset quantity
  | Get address asset quantity => exactCredit bal address asset quantity
  | Minter asset publicKey =>
      exactCredit bal (_getAddressFromPublicKey publicKey) (asset ++ ":mint") 1
  | Price _ _ _ | Burn _ _ _ | Drop _ _ _ | Unknown _ => True
  end.

(** Committing the messages, in order, rounds no balance. *)
Fixpoint exactRun (db : Db) (msgs : list Message) : Prop :=
  match msgs with
  | [] => True
  | message :: rest =>
      exactStep db message
      ∧ match commitMessage db message with
        | Ret db' => exactRun db' rest
        | Throw _ => True
        end
  end.

(** The names of the members of [Object.prototype]: used as a key of a
    plain object they do not name a property of the object's own. *)
Definition objectPrototypeKeys : list string :=
  ["__proto__"; "constructor"; "hasOwnProperty"; "isPrototypeOf";
   "propertyIsEnumerable"; "toLocaleString"; "toString"; "valueOf";
   "__defineGetter__"; "__defineSetter__"; "__lookupGetter__";
   "__lookupSetter__"].

Definition plainKey (key : string) : Prop := key ∉ objectPrototypeKeys.

(** The addresses and asset names a message hands to the commit loop. *)
Definition ledgerKeys (message : Message) : list string :=
  match body (payload message) with
  | Coinbase asset _ address | Get address asset _ | Drop address asset _ =>
      [address; asset]
  | Send asset _ srcAddress dstAddress _ => [srcAddress; dstAddress; asset]
  | Minter asset publicKey =>
      [_getAddressFromPublicKey publicKey; asset; asset ++ ":mint"]
  | Mint asset _ publicKey | Burn asset _ publicKey
  | Buy asset _ _ publicKey =>
      [_getAddressFromPublicKey publicKey; asset]
  | Price asset _ _ => [asset]
  | Unknown _ => []
  end.

Definition isSend (message : Message) : bool :=
  match body (payload message) with
  | Send _ _ _ _ _ => true
  | _ => false
  end.

(** The messages the commit loop applies by additions and subtractions of
    the payload's amounts. *)
Definition isLedgerMove (message : Message) : bool :=
  match body (payload message) with
  | Burn _ _ _ | Drop _ _ _ | Unknown _ => false
  | _ => true
  end.

(** The units of [asset] that committing the message creates. *)
Definition issued (asset : string) (message : Message) : num :=
  match body (payload message) with
  | Coinbase localAsset quantity _ | Mint localAsset quantity _
  | Get _ localAsset quantity | Buy localAsset quantity _ _ =>
      if String.eqb localAsset asset then valueOf quantity else 0
  | Minter localAsset _ =>
      if String.eqb (localAsset ++ ":mint") asset then 1 else 0
  | _ => 0
  end.

Definition totalIssued (asset : string) (msgs : list Message) : num :=
  List.fold_right (fun message acc => issued asset message + acc) 0 msgs.

(** A message signed by [k] whose [hash] is the digest [h] of its payload. *)
Definition signedBy (k : PublicKey) (h : string) (start : number) (b : Body)
  : Message :=
  {| payload := {| sha256 := h; startHeight := start; body := b |};
     hash := h;
     signature := {| sig_text := h ++ "-sig"; sig_key := pk_text k;
                     sig_digest := h |} |}.

(** A holds [2^53] units of NEW and B holds 3; B sends A one unit, three
    times. *)
Definition crowdedDb : Db :=
  {| balances := {[ "A" := {[ "NEW" := Num 9007199254740992 ]};
                    "B" := {[ "NEW" := Num 3 ]} ]};
     messageHashes := [];
     minters := {[ CRD := None ]};
     prices := {[ "CRD" := Null ]} |}.

Definition unitSends : Block :=
  minedBlock "1f" "0" 1 1000 0
    [signedBy (keyOf "B") "e1" 1 (Send "NEW" 1 "B" "A" (keyOf "B"));
     signedBy (keyOf "B") "e2" 1 (Send "NEW" 1 "B" "A" (keyOf "B"));
     signedBy (keyOf "B") "e3" 1 (Send "NEW" 1 "B" "A" (keyOf "B"))].

(** A holds 50 CRD and sends B one; B sends it back. *)
Definition fiftyCrdDb : Db :=
  {| balances := {[ "A" := {[ "CRD" := Num 50 ]} ]};
     messageHashes := [];
     minters := {[ CRD := None ]};
     prices := {[ "CRD" := Null ]} |}.

Definition sendOnlyBlock : Block :=
  minedBlock "1f" "0" 1 1000 0
    [signedBy (keyOf "A") "a1" 1 (Send "CRD" 1 "A" "B" (keyOf "A"));
     signedBy (keyOf "B") "a2" 1 (Send "CRD" 1 "B" "A" (keyOf "B"))].

(** B is paid a coinbase of 100 CRD, M1 claims GOLD and prices it at 5. *)
Definition goldSetupBlock : Block :=
  minedBlock "1f" "0" 1 1000 0
    [signedBy NULL_PUBLIC_KEY "c1" 1 (Coinbase "CRD" 100 "B");
     signedBy (keyOf "M1") "c2" 1 (Minter "GOLD" (keyOf "M1"));
     signedBy (keyOf "M1") "c3" 1 (Price "GOLD" 5 (keyOf "M1"))].

(** A is given [2^53] units of NEW and then one more. *)
Definition crowdedGets : Block :=
  minedBlock "1f" "0" 1 1000 0
    [signedBy NULL_PUBLIC_KEY "g1" 1 (Get "A" "NEW" 9007199254740992);
     signedBy NULL_PUBLIC_KEY "g2" 1 (Get "A" "NEW" 1)].

(** ** The quantity test of [send] (index.js, line 279) *)

(** [Math.floor]; [-0] stays [-0]. *)
Definition Math_floor (x : number) : number :=
  if PrimFloat.is_finite x && (PrimFloat.abs x <? 4503599627370496)%float
  then let z := Qfloor (toQ x) in
       if (z =? 0)%Z && PrimFloat.get_sign x then PrimFloat.neg_zero
       else ofInteger z
  else x.

(** [quantity > 0 && Math.floor(quantity) === quantity
     && (!_isMintAsset(asset) || quantity === 1)] *)
Definition sendQuantityTest (asset : string) (quantity : number) : bool :=
  (0 <? quantity)%float && (Math_floor quantity =? quantity)%float
  && (negb (_isMintAsset asset) || (quantity =? 1)%float).

End Binary64.

(** * Properties *)

(** ** Numbers *)

Lemma num_ltb_true (a b : num) : num_ltb a b = true ↔ a < b.
Proof. unfold num_ltb. apply bool_decide_eq_true. Qed.

Lemma num_ltb_false (a b : num) : num_ltb a b = false ↔ b ≤ a.
Proof.
  unfold num_ltb. rewrite bool_decide_eq_false. symmetry. apply Qcle_ngt.
Qed.

Lemma num_leb_true (a b : num) : num_leb a b = true ↔ a ≤ b.
Proof. unfold num_leb. apply bool_decide_eq_true. Qed.

Lemma num_leb_false (a b : num) : num_leb a b = false ↔ b < a.
Proof.
  unfold num_leb. rewrite bool_decide_eq_false. symmetry. apply Qclt_nge.
Qed.

Lemma num_eqb_true (a b : num) : num_eqb a b = true ↔ a = b.
Proof. unfold num_eqb. apply bool_decide_eq_true. Qed.

Lemma ofZ_floor (z : Z) : Math_floor (ofZ z) = ofZ z.
Proof.
  unfold Math_floor, ofZ. f_equal. simpl. apply Qfloor_Z.
Qed.

Lemma ofZ_pos (z : Z) : 0 < ofZ z ↔ (0 < z)%Z.
Proof.
  unfold Qclt, ofZ, Qc_of_Z. simpl. unfold Qlt. simpl. lia.
Qed.

(** [quantity > 0 && Math.floor(quantity) === quantity] holds of the
    positive integers and of nothing else. *)
Lemma isPositiveInteger_spec (q : num) :
  isPositiveInteger q = true ↔ ∃ z : Z, (0 < z)%Z ∧ q = ofZ z.
Proof.
  unfold isPositiveInteger, num_gtb.
  rewrite andb_true_iff, num_ltb_true, num_eqb_true. split.
  - intros [Hpos Hfl]. exists (Qfloor q). split; [|done].
    apply ofZ_pos. unfold Math_floor in Hfl. by rewrite Hfl.
  - intros (z & Hz & ->). split; [by apply ofZ_pos | apply ofZ_floor].
Qed.

(** ** The minter loop *)

Lemma minterPass_length (m m' : MinterValue) (l rest : list Message) :
  minterPass m l = Some (m', rest) → length l = S (length rest).
Proof.
  revert rest. induction l as [|message l IH]; intros rest; simpl.
  - intros E. discriminate E.
  - destruct (body (payload message));
      try destruct (minterIsUndefined m); try destruct (minterIs m _);
      destruct (minterPass m l) as [[m1 l1]|]; simpl;
      intros E; inversion E; subst; simpl; try reflexivity;
      f_equal; by apply IH.
Qed.

Lemma minterLoop_S (fuel : nat) (m : MinterValue) (l : list Message) :
  minterLoop (S fuel) m l
  = match minterPass m l with
    | Some (m', rest) => minterLoop fuel m' rest
    | None => m
    end.
Proof. reflexivity. Qed.

(** [length mintMessages] passes are enough: more fuel changes nothing, so
    [_getPostMessagesMinter] returns what the [while] loop of the source
    returns when it stops. *)
Lemma minterLoop_fuel (fuel : nat) (m : MinterValue) (l : list Message) :
  (length l ≤ fuel)%nat → minterLoop fuel m l = minterLoop (length l) m l.
Proof.
  revert m l. induction fuel as [|fuel IH]; intros m l Hlen.
  - destruct l; [done | simpl in Hlen; lia].
  - destruct l as [|message l]; [done|].
    change (length (message :: l)) with (S (length l)).
    rewrite !minterLoop_S.
    destruct (minterPass m (message :: l)) as [[m' rest]|] eqn:E; [|done].
    apply minterPass_length in E. simpl in E, Hlen.
    assert (length rest = length l) as Hrest by lia.
    rewrite IH by lia. by rewrite Hrest.
Qed.

(** ** The message validator *)

(** The validator reaches the type-specific rules exactly when the three
    shared checks on hash, window and replay pass. *)
Lemma Message_verify_body db blocks mempool confirmingMessages (m : Message) :
  sha256 (payload m) = hash m →
  startHeight (payload m) ≤ nextHeightOf blocks →
  nextHeightOf blocks < startHeight (payload m) + MESSAGE_TTL →
  replayed db (hash m) = false →
  Message_verify db blocks mempool confirmingMessages m
  = verifyBody db mempool confirmingMessages (sha256 (payload m))
      (signature m) (body (payload m)).
Proof.
  intros Hhash Hlo Hhi Hrep. unfold Message_verify.
  rewrite Hhash, String.eqb_refl, Hrep. simpl.
  apply num_leb_true in Hlo. apply num_ltb_true in Hhi.
  unfold num_geb. by rewrite Hlo, Hhi.
Qed.

(** C3. A message whose payload hashes to its [hash] is accepted only when
    the next height lies in [startHeight, startHeight + 10); outside that
    window the verdict is [{status: 400, error: "ttl expired"}]. A message
    with [startHeight = 5] at tail height 14 is such a case. *)
Theorem Message_verify_ttl (db : Db) (blocks : list Block)
    (mempool : option Mempool) (confirmingMessages : list Message)
    (m : Message) :
  sha256 (payload m) = hash m →
  let nextHeight :=
    (match last blocks with Some tail => height tail | None => 0 end) + 1 in
  let start := startHeight (payload m) in
  (Message_verify db blocks mempool confirmingMessages m = Ret None →
   start ≤ nextHeight ∧ nextHeight < start + ofZ 10)
  ∧ (¬ (start ≤ nextHeight ∧ nextHeight < start + ofZ 10) →
     Message_verify db blocks mempool confirmingMessages m
     = Ret (Some ttlExpired))
  ∧ (start = ofZ 5 →
     (∃ tail, last blocks = Some tail ∧ height tail = ofZ 14) →
     Message_verify db blocks mempool confirmingMessages m
     = Ret (Some ttlExpired)).
Proof.
  intros Hhash nextHeight start.
  assert (Hout : ¬ (start ≤ nextHeight ∧ nextHeight < start + ofZ 10) →
                 Message_verify db blocks mempool confirmingMessages m
                 = Ret (Some ttlExpired)).
  { intros Hnot. unfold Message_verify.
    rewrite Hhash, String.eqb_refl.
    fold start. change (nextHeightOf blocks) with nextHeight.
    destruct (num_geb nextHeight start && num_ltb nextHeight (start + MESSAGE_TTL))
      eqn:Hw; [|reflexivity].
    exfalso. apply Hnot. apply andb_true_iff in Hw as [Hlo Hhi].
    split; [by apply num_leb_true | by apply num_ltb_true]. }
  split; [|split].
  - intros Hok.
    destruct (decide (start ≤ nextHeight ∧ nextHeight < start + ofZ 10))
      as [Hin|Hnot]; [exact Hin|].
    rewrite (Hout Hnot) in Hok. discriminate.
  - exact Hout.
  - intros Hstart (tail & Hlast & Hheight). apply Hout.
    subst nextHeight. rewrite Hlast, Hheight, Hstart.
    intros [_ Hlt]. revert Hlt. apply Qcle_not_lt. by vm_compute.
Qed.

(** A stale message at tail height 14, through the theorem. *)
Lemma Message_verify_ttl_witness :
  sha256 (payload staleSend) = hash staleSend
  ∧ Message_verify DEFAULT_DB [blockAtHeight 14] None [] staleSend
    = Ret (Some ttlExpired).
Proof.
  split; [reflexivity|].
  apply (Message_verify_ttl DEFAULT_DB [blockAtHeight 14] None [] staleSend);
    [reflexivity | reflexivity |].
  exists (blockAtHeight 14). split; reflexivity.
Defined.




(** ** The mempool *)

Lemma existsb_equals_dup (msgs : list Message) (message dup : Message) :
  dup ∈ msgs → hash dup = hash message →
  existsb (fun mempoolMessage => Message_equals mempoolMessage message) msgs
  = true.
Proof.
  intros Hin Hhash. apply existsb_exists. exists dup. split.
  - by apply list_elem_of_In.
  - unfold Message_equals. rewrite Hhash. apply String.eqb_refl.
Qed.

(** C10. When the mempool holds fewer than 10000 messages and one of them
    has the hash of the submitted message, [addMessage] returns [null]
    whatever the validator would say, leaves the mempool as it is and emits
    nothing; [submitMessage] therefore reports success and the node is
    unchanged. *)
Theorem addMessage_duplicate (c : Crds) (message dup : Message) :
  (length (mempoolMessages (mempool c)) < MESSAGES_PER_BLOCK_MAX)%nat →
  dup ∈ mempoolMessages (mempool c) →
  hash dup = hash message →
  (∀ (db : Db) (chain : list Block),
     addMessage db chain (mempool c) message = Ret (None, mempool c, []))
  ∧ submitMessage c message = Ret (None, c, []).
Proof.
  intros Hlen Hin Hhash.
  assert (Hadd : ∀ db chain,
             addMessage db chain (mempool c) message = Ret (None, mempool c, [])).
  { intros db chain. unfold addMessage.
    apply Nat.ltb_lt in Hlen. rewrite Hlen.
    by rewrite (existsb_equals_dup _ _ _ Hin Hhash). }
  split; [exact Hadd|].
  unfold submitMessage. rewrite Hadd. simpl. by destruct c.
Qed.

(** Resubmitting a message that the validator now rejects ("ttl expired")
    is still reported as a success. *)
Lemma addMessage_duplicate_witness :
  Message_verify (topDb nodeAtHeight14) (blocks nodeAtHeight14)
    (Some (mempool nodeAtHeight14)) [] staleSend = Ret (Some ttlExpired)
  ∧ submitMessage nodeAtHeight14 staleSend = Ret (None, nodeAtHeight14, []).
Proof.
  split; [by vm_compute|].
  refine (proj2 (addMessage_duplicate nodeAtHeight14 staleSend staleSend _ _ _)).
  - apply Nat.ltb_lt. by vm_compute.
  - apply list_elem_of_here.
  - reflexivity.
Defined.

(** ** Boolean tests as decisions *)

Lemma String_eqb_decide (a b : string) : String.eqb a b = bool_decide (a = b).
Proof.
  destruct (String.eqb_spec a b) as [->|Hne].
  - by rewrite bool_decide_eq_true_2.
  - by rewrite bool_decide_eq_false_2.
Qed.

Lemma Nat_leb_decide (a b : nat) : (a <=? b)%nat = bool_decide (a ≤ b)%nat.
Proof.
  destruct (Nat.leb_spec a b).
  - by rewrite bool_decide_eq_true_2.
  - rewrite bool_decide_eq_false_2; [done | lia].
Qed.

(** ** The supply under [credit] and [debit] *)

Lemma supply_step_comm (asset : string) (e1 e2 : gmap string num) (y : num) :
  y + balanceIn e2 asset + balanceIn e1 asset
  = y + balanceIn e1 asset + balanceIn e2 asset.
Proof. ring. Qed.

Lemma totalSupply_insert (bal : Balances) (address : string)
    (entry : gmap string num) (asset : string) :
  totalSupply (<[address := entry]> bal) asset
  = totalSupply bal asset - balanceIn (default ∅ (bal !! address)) asset
    + balanceIn entry asset.
Proof.
  unfold totalSupply. destruct (bal !! address) as [old|] eqn:Hold; simpl.
  - rewrite <- insert_delete_eq.
    rewrite map_fold_insert_L;
      [| intros; apply supply_step_comm | apply lookup_delete_eq].
    rewrite (map_fold_delete_L _ _ address old bal);
      [| intros; apply supply_step_comm | exact Hold].
    ring.
  - rewrite map_fold_insert_L;
      [| intros; apply supply_step_comm | exact Hold].
    assert (E : balanceIn (∅ : gmap string num) asset = 0)
      by (unfold balanceIn; by rewrite lookup_empty).
    rewrite E. ring.
Qed.

Lemma balanceIn_insert (entry : gmap string num) (asset asset' : string)
    (v : num) :
  balanceIn (<[asset := v]> entry) asset'
  = if decide (asset = asset') then v else balanceIn entry asset'.
Proof. unfold balanceIn. rewrite lookup_insert. by case_decide. Qed.

Lemma totalSupply_credit (bal : Balances) (address asset asset' : string)
    (quantity : num) :
  totalSupply (credit bal address asset quantity) asset'
  = totalSupply bal asset'
    + (if decide (asset = asset') then quantity else 0).
Proof.
  unfold credit. rewrite totalSupply_insert, balanceIn_insert.
  case_decide as Heq.
  - subst. fold (balanceIn (default ∅ (bal !! address)) asset'). ring.
  - ring.
Qed.

Lemma totalSupply_debit (bal : Balances) (address asset asset' : string)
    (quantity : num) :
  totalSupply (debit bal address asset quantity) asset'
  = totalSupply bal asset'
    - (if decide (asset = asset') then quantity else 0).
Proof.
  unfold debit. rewrite totalSupply_insert, balanceIn_insert.
  case_decide as Heq.
  - subst. fold (balanceIn (default ∅ (bal !! address)) asset'). ring.
  - ring.
Qed.

(** ** Halves and windows *)

Lemma half_even (n : nat) :
  (0 < n)%nat → (n mod 2 = 0)%nat →
  Nat.even n = true ∧ ((n - 1) / 2 = n / 2 - 1)%nat
  ∧ ((n - 1) / 2 + 1 = n / 2)%nat ∧ (n / 2 < n)%nat.
Proof.
  intros Hpos Hmod.
  assert (Hn := Nat.div_mod_eq n 2). rewrite Hmod in Hn.
  assert (Hh : (n - 1 = 2 * (n / 2 - 1) + 1)%nat) by lia.
  assert (Hd : ((n - 1) / 2 = n / 2 - 1)%nat).
  { symmetry. apply (Nat.div_unique _ 2 _ 1); [lia | exact Hh]. }
  split.
  - apply Nat.even_spec. exists (n / 2)%nat. lia.
  - lia.
Qed.

Lemma half_odd (n : nat) :
  (n mod 2 ≠ 0)%nat →
  Nat.even n = false ∧ ((n - 1) / 2 = n / 2)%nat ∧ (n / 2 < n)%nat.
Proof.
  intros Hmod.
  assert (Hn := Nat.div_mod_eq n 2).
  assert (Hlt := Nat.mod_upper_bound n 2).
  assert (Hh : (n - 1 = 2 * (n / 2) + 0)%nat) by lia.
  assert (Hd : ((n - 1) / 2 = n / 2)%nat).
  { symmetry. apply (Nat.div_unique _ 2 _ 0); [lia | exact Hh]. }
  split.
  - destruct (Nat.even n) eqn:E; [|done].
    apply Nat.even_spec in E as [k Hk]. lia.
  - lia.
Qed.

Lemma sliceLast_length {A : Type} (n : nat) (l : list A) :
  length (sliceLast n l) = Nat.min n (length l).
Proof. unfold sliceLast. rewrite length_skipn. lia. Qed.

Lemma sliceLast_suffix {A : Type} (n : nat) (l : list A) :
  ∃ older, l = (older ++ sliceLast n l)%list.
Proof.
  exists (firstn (length l - n) l). unfold sliceLast.
  symmetry. apply firstn_skipn.
Qed.

(** ** The loop over the window *)

(** The loop of [checkBlocksTimeDiff] ends
 on a block of least and a block
    of greatest timestamp. *)
Lemma firstLast_fold (l : list Block) :
  l ≠ [] →
  ∃ f la,
    List.fold_left firstLastStep l (None, None) = (Some f, Some la)
    ∧ f ∈ l ∧ la ∈ l
    ∧ ∀ b, b ∈ l → timestamp f ≤ timestamp b ∧ timestamp b ≤ timestamp la.
Proof.
  induction l as [|x l IH] using rev_ind; [done|]. intros _.
  rewrite fold_left_app.
  change (List.fold_left firstLastStep [x]
            (List.fold_left firstLastStep l (None, None)))
    with (firstLastStep (List.fold_left firstLastStep l (None, None)) x).
  destruct (decide (l = [])) as [->|Hl].
  - exists x, x. simpl. repeat split; try apply list_elem_of_here.
    + apply list_elem_of_singleton in H. subst. apply Qcle_refl.
    + apply list_elem_of_singleton in H. subst. apply Qcle_refl.
  - destruct (IH Hl) as (f & la & E & Hf & Hla & Hall).
    rewrite E. unfold firstLastStep. simpl.
    set (f' := if num_ltb (timestamp x) (timestamp f) then x else f).
    set (la' := if num_gtb (timestamp x) (timestamp la) then x else la).
    exists f', la'.
    assert (Hf' : timestamp f' ≤ timestamp f ∧ timestamp f' ≤ timestamp x
                  ∧ f' ∈ (l ++ [x])%list).
    { unfold f'. destruct (num_ltb (timestamp x) (timestamp f)) eqn:C.
      - apply num_ltb_true in C. split; [by apply Qclt_le_weak|].
        split; [apply Qcle_refl|]. apply elem_of_app. right.
        apply list_elem_of_here.
      - apply num_ltb_false in C. split; [apply Qcle_refl|].
        split; [done|]. apply elem_of_app. by left. }
    assert (Hla' : timestamp la ≤ timestamp la' ∧ timestamp x ≤ timestamp la'
                   ∧ la' ∈ (l ++ [x])%list).
    { unfold la', num_gtb.
      destruct (num_ltb (timestamp la) (timestamp x)) eqn:C.
      - apply num_ltb_true in C. split; [by apply Qclt_le_weak|].
        split; [apply Qcle_refl|]. apply elem_of_app. right.
        apply list_elem_of_here.
      - apply num_ltb_false in C. split; [apply Qcle_refl|].
        split; [done|]. apply elem_of_app. by left. }
    destruct Hf' as (Hf1 & Hf2 & Hf3). destruct Hla' as (Hl1 & Hl2 & Hl3).
    split.
    { unfold f', la'. by destruct (num_ltb _ _), (num_gtb _ _). }
    split; [done|]. split; [done|].
    intros b Hb. apply elem_of_app in Hb as [Hb|Hb].
    + destruct (Hall b Hb) as [H1 H2]. split.
      * by apply Qcle_trans with (timestamp f).
      * by apply Qcle_trans with (timestamp la).
    + apply list_elem_of_singleton in Hb. by subst.
Qed.

Lemma sliceLast_nonempty {A : Type} (n : nat) (l : list A) :
  (0 < n)%nat → l ≠ [] → sliceLast n l ≠ [].
Proof.
  intros Hn Hl Hnil. apply (f_equal length) in Hnil.
  rewrite sliceLast_length in Hnil. simpl in Hnil.
  destruct l; [done|]. simpl in Hnil. lia.
Qed.

(** ** Accepted blocks and the ledger *)

(** C1 at a failing input. Both blocks below pass [Block.verify] and are
    committed on the main chain, starting from the empty node. The
    validator credits the proceeds of the [buy] to the minter that results
    from all sibling messages (M2), the commit credits the minter at the
    time the [buy] is applied (M1): M2's send is accepted and leaves M2 with
    -50 CRD. The send of M1's only [GOLD:mint] unit leaves the key behind
    with balance 0. *)
Theorem accepted_blocks_negative_balance :
  ∃ node1 node2 : Crds,
    addBlockAt emptyNode goldSetupBlock mainChain
    = Ret (None, node1, [BlockEvent goldSetupBlock])
    ∧ Block_verify goldBuyBlock (topDb node1) (blocks node1) None = Ret None
    ∧ addBlockAt node1 goldBuyBlock mainChain
      = Ret (None, node2, [BlockEvent goldBuyBlock])
    ∧ readBalance (topDb node2) "M2" "CRD" = ofZ (-50)
    ∧ readBalance (topDb node2) "M2" "CRD" < 0
    ∧ is_Some (balances (topDb node2) !! "M1" ≫= (.!! "GOLD:mint"))
    ∧ readBalance (topDb node2) "M1" "GOLD:mint" = 0.
Proof.
  eexists _, _. split; [vm_compute; reflexivity|].
  split; [vm_compute; reflexivity|].
  split; [vm_compute; reflexivity|].
  split; [apply Qc_is_canon; vm_compute; reflexivity|].
  split; [vm_compute; reflexivity|].
  split; [vm_compute; eexists; reflexivity|].
  apply Qc_is_canon; vm_compute; reflexivity.
Qed.

(** C9 at a failing input. On the empty chain, a block of two sends of
    [CRD:mint], each funded by the other in the sibling-aware balance, passes
    [Block.verify]; committing it sets [minters[CRD]] to an address. That
    address may then price CRD: after the second block the stored and the
    viewed price of CRD are 0. After the first commit the stored price is
    already [null], the JSON image of [Infinity]. *)
Theorem crd_minter_and_price_change :
  ∃ node1 node2 : Crds,
    Block_verify crdMintBlock DEFAULT_DB [] None = Ret None
    ∧ addBlockAt emptyNode crdMintBlock mainChain
      = Ret (None, node1, [BlockEvent crdMintBlock])
    ∧ minters (topDb node1) !! "CRD" = Some (Some "A")
    ∧ prices (topDb node1) !! "CRD" = Some PNull
    ∧ addBlockAt node1 crdPriceBlock mainChain
      = Ret (None, node2, [BlockEvent crdPriceBlock])
    ∧ prices (topDb node2) !! "CRD" = Some (PNumber 0)
    ∧ viewPrice (topDb node2) None [] "CRD" = Finite 0.
Proof.
  eexists _, _. split; [vm_compute; reflexivity|].
  split; [vm_compute; reflexivity|].
  split; [vm_compute; reflexivity|].
  split; [vm_compute; reflexivity|].
  split; [vm_compute; reflexivity|].
  split; [vm_compute; reflexivity|].
  vm_compute; reflexivity.
Qed.

(** ** Side-chain blocks *)

Lemma _commitSideChainBlock_throws (ds : list Db) (chain : list Block)
    (mp : Mempool) (block : Block) (forkedBlock : option Block)
    (sideChainBlocks : list Block) :
  ∃ e, _commitSideChainBlock ds chain mp block forkedBlock sideChainBlocks
       = Throw e.
Proof.
  unfold _commitSideChainBlock.
  destruct (_getBlocksTotalDifficulty (sliceFrom _ chain)) as [d1|e1];
    simpl; [|by eexists].
  destruct (_getBlocksTotalDifficulty (sliceFrom _ sideChainBlocks)) as [d2|e2];
    simpl; by eexists.
Qed.

(** C8 on the code. [_commitSideChainBlock] never returns: whatever the
    work of the two chains, it throws before it builds a result. A block
    classified as side-chain is therefore never stored in [mempool.blocks]:
    [addBlock] either returns the validator's error or throws, and the node
    is as it was. With a chain of one block and a rival block of the same
    height and the same work, the validator (run against a chain that ends
    with the rival block itself) answers "invalid previous hash". *)
Theorem side_chain_block_never_stashed (c : Crds) (block : Block)
    (forkedBlock : option Block) (sideChainBlocks : list Block) :
  (∃ e, _commitSideChainBlock (dbs c) (blocks c) (mempool c) block forkedBlock
          sideChainBlocks = Throw e)
  ∧ ((∃ e, addBlockAt c block (sideChain forkedBlock sideChainBlocks) = Throw e)
     ∨ (∃ e, addBlockAt c block (sideChain forkedBlock sideChainBlocks)
             = Ret (Some e, c, [])))
  ∧ _commitSideChainBlock (dbs nodeWithOneBlock) (blocks nodeWithOneBlock)
      (mempool nodeWithOneBlock) rivalBlock None [rivalBlock]
    = Throw (ReferenceError "sidechainBlocks")
  ∧ addBlockAt nodeWithOneBlock rivalBlock (sideChain None [rivalBlock])
    = Ret (Some invalidPreviousHash, nodeWithOneBlock, []).
Proof.
  split; [apply _commitSideChainBlock_throws|].
  split; [|split; vm_compute; reflexivity].
  unfold addBlockAt.
  destruct (Block_verify block (topDb c) sideChainBlocks None) as [[e|]|e];
    simpl.
  - right. by eexists.
  - left.
    destruct (_commitSideChainBlock_throws (dbs c) (blocks c) (mempool c) block
                forkedBlock sideChainBlocks) as [e ->].
    by eexists.
  - left. by eexists.
Qed.

(** * Properties of the further code *)

(** ** Asset names *)

Lemma isDash_true (c : ascii) : isDash c = true ↔ c = "-"%char.
Proof. unfold isDash. apply Ascii.eqb_eq. Qed.

Lemma takeToken_app (first : bool) (s : string) :
  ((takeToken first s).1 ++ (takeToken first s).2)%string = s.
Proof.
  revert first. induction s as [|c rest IH]; intros first; simpl; [done|].
  destruct (isUpperOrDigit c
            || isDash c && negb first && negb (rest =? "")%string); [|done].
  specialize (IH false). destruct (takeToken false rest) as [tok after].
  simpl in *. apply (f_equal (String c)) in IH. exact IH.
Qed.

Lemma takeToken_chars (first : bool) (s : string) :
  allChars (fun c => isUpperOrDigit c || isDash c) (takeToken first s).1 = true.
Proof.
  revert first. induction s as [|c rest IH]; intros first; simpl; [done|].
  destruct (isUpperOrDigit c
            || isDash c && negb first && negb (rest =? "")%string) eqn:E;
    [|done].
  specialize (IH false). destruct (takeToken false rest) as [tok after].
  simpl in *. rewrite IH, andb_true_r.
  apply orb_true_iff in E as [->|E]; [done|].
  apply andb_true_iff in E as [E _]. apply andb_true_iff in E as [-> _].
  apply orb_true_r.
Qed.

Lemma string_app_nil_r (s : string) : (s ++ "")%string = s.
Proof.
  induction s as [|c s IH]; [done|].
  apply (f_equal (String c)) in IH. exact IH.
Qed.

Lemma takeToken_cons (first : bool) (c : ascii) (rest : string) :
  takeToken first (String c rest)
  = if isUpperOrDigit c || isDash c && negb first && negb (rest =? "")%string
    then (String c (takeToken false rest).1, (takeToken false rest).2)
    else ("", String c rest).
Proof.
  simpl. destruct (isUpperOrDigit c || _); [|done].
  by destruct (takeToken false rest).
Qed.

Lemma lastChar_cons (c : ascii) (rest : string) :
  lastChar (String c rest) = if (rest =? "")%string then Some c else lastChar rest.
Proof. by destruct rest. Qed.

(** The whole input is one token exactly when it is made of token
    characters, does not start with a dash if it starts the input, and does
    not end with one. *)
Lemma takeToken_whole (first : bool) (s : string) :
  (takeToken first s).2 = ""
  ↔ allChars (fun c => isUpperOrDigit c || isDash c) s = true
    ∧ (first = true → headChar s ≠ Some "-"%char)
    ∧ lastChar s ≠ Some "-"%char.
Proof.
  revert first. induction s as [|c rest IH]; intros first.
  - simpl. split; [intros _; repeat split; try done | done].
  - rewrite takeToken_cons, lastChar_cons.
    change (allChars (λ c0, isUpperOrDigit c0 || isDash c0) (String c rest))
      with ((isUpperOrDigit c || isDash c)
            && allChars (λ c0, isUpperOrDigit c0 || isDash c0) rest).
    change (headChar (String c rest)) with (Some c).
    destruct (isUpperOrDigit c) eqn:Hc; simpl orb.
    + cbn [snd andb]. rewrite (IH false).
      assert (Hnd : c ≠ "-"%char) by (intros ->; discriminate Hc).
      split.
      * intros (Hall & _ & Hlast). split; [done|]. split; [congruence|].
        destruct (rest =? "")%string; [congruence | done].
      * intros (Hall & _ & Hlast). split; [done|]. split; [done|].
        destruct (String.eqb_spec rest ""); [by subst | done].
    + destruct (isDash c) eqn:Hd; simpl andb.
      * apply isDash_true in Hd. subst c.
        destruct first; simpl negb; simpl andb.
        -- cbn [snd]. split; [done|]. intros (_ & Hhead & _). by destruct Hhead.
        -- destruct (String.eqb_spec rest "") as [->|Hrest]; simpl negb.
           ++ cbn [snd]. split; [done|]. intros (_ & _ & Hlast). by destruct Hlast.
           ++ cbn [snd]. rewrite (IH false). split.
              ** intros (Hall & _ & Hlast). done.
              ** intros (Hall & _ & Hlast). done.
      * cbn [snd]. split; [done|]. intros (Hall & _). done.
Qed.

Lemma base_asset_name (asset : string) :
  _isBaseAsset asset = true ↔ isBaseAssetName asset.
Proof.
  unfold _isBaseAsset, isBaseAssetName.
  pose proof (takeToken_app true asset) as Happ.
  pose proof (takeToken_whole true asset) as Hwhole.
  destruct (takeToken true asset) as [tok after]. simpl in *.
  rewrite andb_true_iff, String.eqb_eq. unfold nonEmpty.
  rewrite negb_true_iff, String.eqb_neq. split.
  - intros [Hne ->]. rewrite string_app_nil_r in Happ. subst tok.
    destruct Hwhole as [Hw _]. destruct (Hw eq_refl) as (H1 & H2 & H3).
    repeat split; try done. by apply H2.
  - intros (Hne & Hall & Hhead & Hlast).
    destruct Hwhole as [_ Hw].
    assert (after = "") as -> by (apply Hw; repeat split; done).
    rewrite string_app_nil_r in Happ. by subst tok.
Qed.

(** X1. [_isBaseAsset] accepts exactly the non-empty names made of
    upper-case letters, digits and dashes that neither start nor end with a
    dash. *)
Theorem _isBaseAsset_spec (asset : string) :
  _isBaseAsset asset = true ↔ isBaseAssetName asset.
Proof. apply base_asset_name. Qed.

Lemma allChars_app (p : ascii → bool) (a b : string) :
  allChars p (a ++ b)%string = allChars p a && allChars p b.
Proof.
  induction a as [|c a IH]; [done|].
  change (allChars p (String c (a ++ b)%string)
          = p c && allChars p a && allChars p b).
  simpl. by rewrite IH, andb_assoc.
Qed.

Lemma allChars_impl (p q : ascii → bool) (s : string) :
  (∀ c, p c = true → q c = true) →
  allChars p s = true → allChars q s = true.
Proof.
  intros Hpq. induction s as [|c s IH]; simpl; [done|].
  intros [Hc Hs]%andb_true_iff. by rewrite (Hpq c Hc), IH.
Qed.

Lemma tokenChar_notColon (c : ascii) :
  isUpperOrDigit c || isDash c = true → notColon c = true.
Proof.
  unfold notColon. destruct (Ascii.eqb_spec c ":"%char) as [->|]; [|done].
  by vm_compute.
Qed.

Lemma stripSuffix_eq (suffix s : string) :
  stripSuffix suffix s
  = if (s =? suffix)%string then Some ""
    else match s with
         | EmptyString => None
         | String c rest => String c <$> stripSuffix suffix rest
         end.
Proof. by destruct s. Qed.

Lemma stripSuffix_app_inv (suffix s p : string) :
  stripSuffix suffix s = Some p → s = (p ++ suffix)%string.
Proof.
  revert p. induction s as [|c s IH]; intros p; rewrite stripSuffix_eq.
  - destruct (String.eqb_spec "" suffix) as [<-|]; [|done]. by intros [= <-].
  - destruct (String.eqb_spec (String c s) suffix) as [<-|].
    + by intros [= <-].
    + destruct (stripSuffix suffix s) as [p'|]; [|done].
      intros [= <-]. by rewrite (IH p' eq_refl) at 1.
Qed.

(** A basic asset name holds no colon, so it is not a mint asset. *)
Lemma basic_no_colon (asset : string) :
  _isBasicAsset asset = true → allChars notColon asset = true.
Proof.
  unfold _isBasicAsset.
  pose proof (takeToken_app true asset) as Happ.
  pose proof (takeToken_chars true asset) as Htok.
  destruct (takeToken true asset) as [tok after]. simpl in *.
  intros [_ Hafter]%andb_true_iff. rewrite <- Happ, allChars_app.
  rewrite (allChars_impl _ _ _ tokenChar_notColon Htok). simpl.
  unfold afterFirstToken in Hafter.
  destruct after as [|d rest]; [done|].
  destruct (Ascii.eqb_spec d "."%char) as [->|Hd].
  - pose proof (takeToken_app false rest) as Happ2.
    pose proof (takeToken_chars false rest) as Htok2.
    destruct (takeToken false rest) as [tok2 after2]. simpl in *.
    apply orb_true_iff in Hafter as [Hafter|Hafter]; [|done].
    apply andb_true_iff in Hafter as [_ ->%String.eqb_eq].
    rewrite string_app_nil_r in Happ2. subst tok2.
    by apply (allChars_impl _ _ _ tokenChar_notColon).
  - exfalso. revert Hafter. clear -Hd.
    destruct d as [[] [] [] [] [] [] [] []]; try done.
Qed.

Lemma mint_has_colon (asset : string) :
  _isMintAsset asset = true → allChars notColon asset = false.
Proof.
  unfold _isMintAsset.
  destruct (stripSuffix ":mint" asset) as [p|] eqn:E; [|done]. intros _.
  apply stripSuffix_app_inv in E. subst asset.
  rewrite allChars_app. apply andb_false_r.
Qed.

Lemma basic_not_mint (asset : string) :
  _isBasicAsset asset = true → _isMintAsset asset = false.
Proof.
  intros Hb%basic_no_colon. destruct (_isMintAsset asset) eqn:E; [|done].
  apply mint_has_colon in E. congruence.
Qed.

Lemma afterFirstToken_mono (t1 t2 : string → bool) (after : string) :
  (∀ r, t1 r = true → t2 r = true) →
  afterFirstToken t1 after = true → afterFirstToken t2 after = true.
Proof.
  intros Ht. unfold afterFirstToken. destruct after as [|d rest]; [apply Ht|].
  destruct (Ascii.eqb_spec d "."%char) as [->|Hd].
  - destruct (takeToken false rest) as [tok2 after2].
    intros [[? ?]%andb_true_iff|?]%orb_true_iff; apply orb_true_iff.
    + left. apply andb_true_iff. split; [done | by apply Ht].
    + right. by apply Ht.
  - destruct d as [[] [] [] [] [] [] [] []]; try apply Ht. by destruct Hd.
Qed.

(** X2. The three classes of asset names are nested, and the basic names
    stop short of the mint assets: a base asset is a basic asset; a basic
    asset is a valid asset, is not a mint asset, and has a non-empty base
    ([_getBaseAsset] does not throw on it). *)
Theorem asset_classes (asset : string) :
  (_isBaseAsset asset = true → _isBasicAsset asset = true)
  ∧ (_isBasicAsset asset = true →
     _isValidAsset asset = true
     ∧ _isMintAsset asset = false
     ∧ ∃ base rest, _getBaseAsset asset = Ret base ∧ base ≠ ""
                    ∧ asset = (base ++ rest)%string).
Proof.
  split.
  - unfold _isBaseAsset, _isBasicAsset.
    destruct (takeToken true asset) as [tok after].
    intros [-> ->%String.eqb_eq]%andb_true_iff. reflexivity.
  - intros Hbasic. split; [|split; [by apply basic_not_mint|]].
    + revert Hbasic. unfold _isBasicAsset, _isValidAsset.
      destruct (takeToken true asset) as [tok after].
      intros [-> Hafter]%andb_true_iff. simpl.
      revert Hafter. apply afterFirstToken_mono. by intros r ->.
    + revert Hbasic. unfold _isBasicAsset, _getBaseAsset.
      pose proof (takeToken_app true asset) as Happ.
      destruct (takeToken true asset) as [tok after]. simpl in *.
      intros [Hne _]%andb_true_iff. rewrite Hne.
      exists tok, after. split; [done|]. split; [|done].
      unfold nonEmpty in Hne. apply negb_true_iff in Hne.
      by apply String.eqb_neq in Hne.
Qed.

Lemma takeToken_append_mint (first : bool) (s : string) :
  (takeToken first s).2 = "" →
  takeToken first (s ++ ":mint")%string = (s, ":mint").
Proof.
  revert first. induction s as [|c rest IH]; intros first.
  - intros _. by destruct first.
  - rewrite takeToken_cons.
    change ((String c rest ++ ":mint")%string)
      with (String c (rest ++ ":mint")%string).
    rewrite takeToken_cons.
    assert (Hne : (rest ++ ":mint" =? "")%string = false).
    { apply String.eqb_neq. by destruct rest. }
    rewrite Hne. simpl negb. rewrite andb_true_r.
    destruct (isUpperOrDigit c) eqn:Hc; simpl orb.
    + cbn [snd]. intros H. by rewrite (IH false H).
    + destruct (isDash c && negb first) eqn:Hd; simpl andb.
      * destruct (negb (rest =? "")%string); cbn [snd]; [|done].
        intros H. by rewrite (IH false H).
      * cbn [snd]. done.
Qed.

Lemma string_length_app (a b : string) :
  String.length (a ++ b)%string = (String.length a + String.length b)%nat.
Proof.
  induction a as [|c a IH]; [done|].
  change (S (String.length (a ++ b)%string)
          = S (String.length a + String.length b)). by rewrite IH.
Qed.

Lemma stripSuffix_mint_app (a : string) :
  stripSuffix ":mint" (a ++ ":mint")%string = Some a.
Proof.
  induction a as [|c a IH]; [done|].
  change ((String c a ++ ":mint")%string) with (String c (a ++ ":mint")%string).
  rewrite stripSuffix_eq.
  replace (String c (a ++ ":mint") =? ":mint")%string with false.
  - by rewrite IH.
  - symmetry. apply String.eqb_neq. intros E.
    apply (f_equal String.length) in E. simpl in E.
    rewrite string_length_app in E. simpl in E. lia.
Qed.

Lemma tokenChars_noLineTerminator (s : string) :
  allChars (fun c => isUpperOrDigit c || isDash c) s = true →
  noLineTerminator s = true.
Proof.
  induction s as [|c s IH]; simpl; [done|].
  intros [Hc Hs]%andb_true_iff. rewrite (IH Hs), andb_true_r.
  destruct (Ascii.eqb_spec c "010"%char) as [->|]; [by vm_compute in Hc|].
  destruct (Ascii.eqb_spec c "013"%char) as [->|]; [by vm_compute in Hc|].
  done.
Qed.

(** X3. The mint asset of a base asset round-trips: for a base asset [a],
    the name [a:mint] (the one a [minter] message credits) is a valid asset
    and a mint asset, it is not a basic asset, and the pattern the commit of
    a [send] uses to find whose minter to reassign recovers exactly [a]. *)
Theorem mint_asset_round_trip (a : string) :
  _isBaseAsset a = true →
  _isValidAsset (a ++ ":mint") = true
  ∧ _isMintAsset (a ++ ":mint") = true
  ∧ _isBasicAsset (a ++ ":mint") = false
  ∧ matchMint (a ++ ":mint") = Some a.
Proof.
  intros Hbase.
  assert (Hmint : _isMintAsset (a ++ ":mint") = true).
  { unfold _isMintAsset. by rewrite stripSuffix_mint_app. }
  pose proof (proj1 (base_asset_name a) Hbase) as (Hne & Hall & _ & _).
  revert Hbase. unfold _isBaseAsset, _isValidAsset.
  pose proof (takeToken_append_mint true a) as Happ.
  pose proof (takeToken_app true a) as Hsplit.
  destruct (takeToken true a) as [tok after]. simpl in *.
  intros [Htok ->%String.eqb_eq]%andb_true_iff.
  rewrite string_app_nil_r in Hsplit. subst tok.
  rewrite (Happ eq_refl). rewrite Htok. simpl.
  split; [done|]. split; [done|]. split.
  - destruct (_isBasicAsset (a ++ ":mint")) eqn:E; [|done].
    apply basic_not_mint in E. congruence.
  - unfold matchMint. rewrite stripSuffix_mint_app, Htok.
    by rewrite (tokenChars_noLineTerminator a Hall).
Qed.

Lemma mint_asset_round_trip_witness :
  _isValidAsset ("GOLD-1" ++ ":mint") = true
  ∧ _isMintAsset ("GOLD-1" ++ ":mint") = true
  ∧ _isBasicAsset ("GOLD-1" ++ ":mint") = false
  ∧ matchMint ("GOLD-1" ++ ":mint") = Some "GOLD-1".
Proof. apply (mint_asset_round_trip "GOLD-1"). reflexivity. Defined.

(** ** What an accepted block has passed *)

Lemma Block_verify_accepted (this : Block) (db : Db) (chain : list Block)
    (mp : option Mempool) :
  Block_verify this db chain mp = Ret None →
  getHash this = blockHash this
  ∧ prevHash this = parentHash chain
  ∧ height this = parentHeight chain + 1
  ∧ _checkTimestamp this chain = Ret true
  ∧ _checkDifficultyClaim this = Ret true
  ∧ (length (messages this) ≤ MESSAGES_PER_BLOCK_MAX)%nat
  ∧ _checkSufficientDifficulty this chain = Ret true
  ∧ _verifyMessages this db chain mp = Ret None.
Proof.
  unfold Block_verify, _checkHash, _checkPrevHash, _checkHeight,
    _checkMessagesCount.
  destruct (String.eqb_spec (getHash this) (blockHash this)) as [H1|];
    [|done]. simpl negb. cbv iota.
  change (match last chain with Some b => blockHash b | None => zeroHash end)
    with (parentHash chain).
  destruct (String.eqb_spec (prevHash this) (parentHash chain)) as [H2|];
    [|done]. simpl negb. cbv iota.
  change (nextHeightOf chain) with (parentHeight chain + 1).
  destruct (num_eqb (height this) (parentHeight chain + 1)) eqn:H3;
    [|done]. simpl negb. cbv iota. apply num_eqb_true in H3.
  destruct (_checkTimestamp this chain) as [[|]|]; try done.
  change (Ret true ≫= _) with
    (okClaim ← _checkDifficultyClaim this;
     if negb okClaim then Ret (Some (err 400 "invalid difficulty claim"))
     else if negb (length (messages this) <=? MESSAGES_PER_BLOCK_MAX)%nat
          then Ret (Some (err 400 "too many messages"))
          else okDifficulty ← _checkSufficientDifficulty this chain;
               if negb okDifficulty
               then Ret (Some (err 400 "insufficient difficulty"))
               else _verifyMessages this db chain mp).
  destruct (_checkDifficultyClaim this) as [[|]|]; try done.
  change (Ret true ≫= _) with
    (if negb (length (messages this) <=? MESSAGES_PER_BLOCK_MAX)%nat
     then Ret (Some (err 400 "too many messages"))
     else okDifficulty ← _checkSufficientDifficulty this chain;
          if negb okDifficulty
          then Ret (Some (err 400 "insufficient difficulty"))
          else _verifyMessages this db chain mp).
  destruct (Nat.leb_spec (length (messages this)) MESSAGES_PER_BLOCK_MAX)
    as [H6|]; [|done]. simpl negb. cbv iota.
  destruct (_checkSufficientDifficulty this chain) as [[|]|]; done.
Qed.

(** ** Hashes as numbers *)

Lemma hexDigit_range (c : ascii) (d : Z) :
  hexDigit c = Some d → (0 ≤ d ≤ 15)%Z.
Proof.
  unfold hexDigit. generalize (Z.of_nat (nat_of_ascii c)) as n. intros n.
  destruct (Z.leb_spec 48 n), (Z.leb_spec n 57); simpl;
    try (intros [= <-]; lia);
    destruct (Z.leb_spec 97 n), (Z.leb_spec n 102); simpl;
    try (intros [= <-]; lia);
    destruct (Z.leb_spec 65 n), (Z.leb_spec n 70); simpl;
    try (intros [= <-]; lia); done.
Qed.

Lemma hexValue_bounds (s : string) (acc v : Z) :
  (0 ≤ acc)%Z → hexValue acc s = Some v →
  (acc * 16 ^ Z.of_nat (String.length s) ≤ v
   < (acc + 1) * 16 ^ Z.of_nat (String.length s))%Z.
Proof.
  revert acc. induction s as [|c s IH]; intros acc Hacc; simpl hexValue.
  - intros [= <-]. simpl. lia.
  - destruct (hexDigit c) as [d|] eqn:Hd; [|done].
    apply hexDigit_range in Hd. intros Hv.
    apply IH in Hv; [|lia].
    change (String.length (String c s)) with (S (String.length s)).
    rewrite Nat2Z.inj_succ, Z.pow_succ_r by lia.
    assert (0 < 16 ^ Z.of_nat (String.length s))%Z by (apply Z.pow_pos_nonneg; lia).
    nia.
Qed.

Lemma ofZ_0 : ofZ 0 = 0.
Proof. by apply Qc_is_canon. Qed.

Lemma hashDifficulty_short (h : string) (v : Z) :
  (String.length h ≤ 64)%nat →
  bigint16 h = Ret v →
  (0 ≤ v ≤ maxTarget)%Z
  ∧ _getHashDifficulty h
    = Ret (if (v =? maxTarget)%Z then ofZ 1 else ofZ 0).
Proof.
  intros Hlen Hv. unfold _getHashDifficulty. rewrite Hv.
  unfold bigint16 in Hv. destruct (hexValue 0 h) as [v'|] eqn:E; [|done].
  injection Hv as ->. apply hexValue_bounds in E; [|lia].
  assert (Hpow : (16 ^ Z.of_nat (String.length h) ≤ 16 ^ 64)%Z)
    by (apply Z.pow_le_mono_r; lia).
  assert (Hmax : (16 ^ 64 = maxTarget + 1)%Z) by reflexivity.
  assert (Hrange : (0 ≤ v ≤ maxTarget)%Z) by lia.
  split; [exact Hrange|].
  change (Ret (ofZ (v ÷ maxTarget))
          = Ret (if (v =? maxTarget)%Z then ofZ 1 else ofZ 0)).
  destruct (Z.eqb_spec v maxTarget) as [->|Hne].
  - by rewrite Z.quot_same.
  - rewrite Z.quot_small; [done | lia].
Qed.

(** X4. The hash difficulty of a hash of at most 64 hexadecimal digits (a
    SHA-256 digest has 64) is 0, unless the hash is the largest one,
    [ff..ff], for which it is 1: the division by [maxTarget] is an integer
    division. *)
Theorem _getHashDifficulty_short (h : string) (v : Z) :
  (String.length h ≤ 64)%nat →
  bigint16 h = Ret v →
  (0 ≤ v ≤ maxTarget)%Z
  ∧ _getHashDifficulty h
    = Ret (if (v =? maxTarget)%Z then ofZ 1 else ofZ 0).
Proof. apply hashDifficulty_short. Qed.

Lemma _getHashDifficulty_short_witness :
  (0 ≤ 31 ≤ maxTarget)%Z
  ∧ _getHashDifficulty "1f"
    = Ret (if (31 =? maxTarget)%Z then ofZ 1 else ofZ 0).
Proof.
  apply (_getHashDifficulty_short "1f" 31); [simpl; lia | reflexivity].
Defined.

Lemma _getMessagesDifficulty_from_zero (msgs : list Message) (result : num) :
  Forall (fun message =>
            (String.length (hash message) ≤ 64)%nat
            ∧ ∃ v, bigint16 (hash message) = Ret v ∧ v ≠ maxTarget) msgs →
  _getMessagesDifficulty_from result msgs = Ret result.
Proof.
  intros Hall. revert result.
  induction Hall as [|message rest (Hlen & v & Hv & Hne) _ IH]; intros result;
    [done|].
  simpl. destruct (hashDifficulty_short _ _ Hlen Hv) as [_ ->].
  replace (v =? maxTarget)%Z with false by (symmetry; by apply Z.eqb_neq).
  change (_getMessagesDifficulty_from (result + ofZ 0) rest = Ret result).
  by rewrite ofZ_0, Qcplus_0_r.
Qed.

(** ** Difficulty *)

Lemma Math_max_ge_l (a b : num) : a ≤ Math_max a b.
Proof.
  unfold Math_max. destruct (num_ltb a b) eqn:E.
  - apply num_ltb_true in E. by apply Qclt_le_weak.
  - apply Qcle_refl.
Qed.

Lemma Math_max_ge_r (a b : num) : b ≤ Math_max a b.
Proof.
  unfold Math_max. destruct (num_ltb a b) eqn:E.
  - apply Qcle_refl.
  - by apply num_ltb_false in E.
Qed.

Lemma Math_max_lub (a b c : num) : a ≤ c → b ≤ c → Math_max a b ≤ c.
Proof. intros Ha Hb. unfold Math_max. by destruct (num_ltb a b). Qed.

Lemma checkBlocksTimeDiff_total (checkBlocks : list Block) :
  ∃ t, checkBlocksTimeDiff checkBlocks = Ret t.
Proof.
  unfold checkBlocksTimeDiff. destruct checkBlocks as [|b l]; [by eexists|].
  destruct (firstLast_fold (b :: l)) as (f & la & E & _); [done|].
  rewrite E. simpl. by eexists.
Qed.

Lemma base_difficulty_total (chain : list Block) :
  ∃ d, _getNextBlockBaseDifficulty chain = Ret d ∧ MIN_DIFFICULTY ≤ d.
Proof.
  unfold _getNextBlockBaseDifficulty.
  destruct (checkBlocksTimeDiff_total (sliceLast TARGET_BLOCKS chain)) as [t ->].
  eexists. split; [reflexivity|]. apply Math_max_ge_r.
Qed.

(** X6. When every message hash of a block has at most 64 hexadecimal
    digits and is not [ff..ff], the message bonus is 0, and the
    sufficient-difficulty check compares the claimed difficulty with the
    base difficulty alone. *)
Theorem message_bonus_is_zero (this : Block) (chain : list Block) :
  Forall (fun message =>
            (String.length (hash message) ≤ 64)%nat
            ∧ ∃ v, bigint16 (hash message) = Ret v ∧ v ≠ maxTarget)
    (messages this) →
  _getMessagesDifficulty (messages this) = Ret 0
  ∧ ∃ base : num,
      _getNextBlockBaseDifficulty chain = Ret base
      ∧ _checkSufficientDifficulty this chain
        = Ret (bool_decide (base ≤ difficulty this)).
Proof.
  intros Hall.
  assert (Hbonus : _getMessagesDifficulty (messages this) = Ret 0)
    by (by apply _getMessagesDifficulty_from_zero).
  split; [exact Hbonus|].
  destruct (base_difficulty_total chain) as (base & Hbase & Hmin).
  exists base. split; [exact Hbase|].
  unfold _checkSufficientDifficulty. rewrite Hbase, Hbonus.
  change (Ret (num_geb (difficulty this) (Math_max (base - 0) MIN_DIFFICULTY))
          = Ret (bool_decide (base ≤ difficulty this))).
  replace (base - 0) with base by ring.
  replace (Math_max base MIN_DIFFICULTY) with base; [done|].
  unfold Math_max. destruct (num_ltb base MIN_DIFFICULTY) eqn:E; [|done].
  apply num_ltb_true in E. by apply Qclt_not_le in E.
Qed.

Lemma message_bonus_is_zero_witness :
  _getMessagesDifficulty (messages goldBuyBlock) = Ret 0
  ∧ ∃ base : num,
      _getNextBlockBaseDifficulty [goldSetupBlock] = Ret base
      ∧ _checkSufficientDifficulty goldBuyBlock [goldSetupBlock]
        = Ret (bool_decide (base ≤ difficulty goldBuyBlock)).
Proof.
  apply (message_bonus_is_zero goldBuyBlock [goldSetupBlock]).
  repeat constructor; simpl; try lia; eexists; (split; [reflexivity | done]).
Defined.

Lemma Math_round_ge (d : num) (z : Z) : ofZ z ≤ d → (z ≤ Math_round d)%Z.
Proof.
  intros Hd. unfold Math_round.
  rewrite <- (Qfloor_Z z). apply Qfloor_resp_le.
  unfold Qcle in Hd. change (this (ofZ z)) with (inject_Z z) in Hd.
  change (this (Q2Qc (1 # 2))) with (1 # 2)%Q.
  apply Qle_trans with (this d + 0)%Q; [by rewrite Qplus_0_r|].
  apply Qplus_le_r. discriminate.
Qed.



(** ** Accepted messages and accepted blocks *)

Lemma Message_verify_accepted (db : Db) (chain : list Block)
    (mp : option Mempool) (siblings : list Message) (m : Message) :
  Message_verify db chain mp siblings m = Ret None →
  sha256 (payload m) = hash m
  ∧ startHeight (payload m) ≤ nextHeightOf chain
  ∧ nextHeightOf chain < startHeight (payload m) + MESSAGE_TTL
  ∧ replayed db (hash m) = false
  ∧ verifyBody db mp siblings (sha256 (payload m)) (signature m)
      (body (payload m)) = Ret None.
Proof.
  unfold Message_verify.
  destruct (String.eqb_spec (sha256 (payload m)) (hash m)) as [Hh|]; [|done].
  destruct (num_geb (nextHeightOf chain) (startHeight (payload m))) eqn:Hlo;
    [|done].
  destruct (num_ltb (nextHeightOf chain) (startHeight (payload m) + MESSAGE_TTL))
    eqn:Hhi; [|done].
  destruct (replayed db (hash m)) eqn:Hr; [done|]. simpl.
  intros Hbody. apply num_leb_true in Hlo. apply num_ltb_true in Hhi. done.
Qed.

Lemma verifyMessagesFrom_accepted (db : Db) (chain : list Block)
    (mp : option Mempool) (rest before l1 l2 : list Message) (m : Message) :
  verifyMessagesFrom db chain mp before rest = Ret None →
  rest = (l1 ++ m :: l2)%list →
  Message_verify db chain mp (before ++ l1 ++ l2) m = Ret None.
Proof.
  revert before l1. induction rest as [|x rest IH]; intros before l1 Hv Hrest.
  - by destruct l1.
  - simpl in Hv.
    destruct (Message_verify db chain mp (before ++ rest) x) as [[e|]|] eqn:E;
      try done.
    destruct l1 as [|y l1]; simpl in Hrest; injection Hrest as -> ->.
    + exact E.
    + change (verifyMessagesFrom db chain mp (before ++ [y]) (l1 ++ m :: l2)
              = Ret None) in Hv.
      specialize (IH (before ++ [y])%list l1 Hv eq_refl).
      by rewrite <- app_assoc in IH.
Qed.

Lemma accepted_block_messages (this : Block) (db : Db) (chain : list Block)
    (mp : option Mempool) (l1 l2 : list Message) (m : Message) :
  Block_verify this db chain mp = Ret None →
  messages this = (l1 ++ m :: l2)%list →
  Message_verify db chain mp (l1 ++ l2) m = Ret None.
Proof.
  intros Hok Hm.
  destruct (Block_verify_accepted _ _ _ _ Hok) as (_&_&_&_&_&_&_& Hv).
  exact (verifyMessagesFrom_accepted _ _ _ _ [] _ _ _ Hv Hm).
Qed.

Lemma verifyBody_not_unknown (db : Db) (mp : option Mempool)
    (siblings : list Message) (h : string) (sig : Signature) (b : Body) :
  verifyBody db mp siblings h sig b = Ret None →
  match b with Unknown _ => False | _ => True end.
Proof. by destruct b. Qed.

Lemma commitMessages_returns (msgs : list Message) (db : Db) :
  Forall (fun m => isUnknown m = false) msgs →
  ∃ db', commitMessages db msgs = Ret db'.
Proof.
  intros Hall. revert db.
  induction Hall as [|m rest Hm _ IH]; intros db; [by eexists|].
  simpl. unfold isUnknown in Hm. unfold commitMessage.
  destruct (body (payload m)); try done;
    try (simpl; apply IH).
  destruct (matchMint asset); simpl; apply IH.
Qed.

Lemma accepted_block_no_unknown (this : Block) (db : Db) (chain : list Block)
    (mp : option Mempool) :
  Block_verify this db chain mp = Ret None →
  Forall (fun m => isUnknown m = false) (messages this).
Proof.
  intros Hok. apply List.Forall_forall. intros m Hin.
  apply in_split in Hin as (l1 & l2 & Hm).
  pose proof (accepted_block_messages _ _ _ _ _ _ _ Hok Hm) as Hv.
  apply Message_verify_accepted in Hv as (_&_&_&_& Hb).
  apply verifyBody_not_unknown in Hb. unfold isUnknown.
  by destruct (body (payload m)).
Qed.

Lemma main_chain_commit (c : Crds) (block : Block) :
  Block_verify block (topDb c) (blocks c) None = Ret None →
  ∃ newDb : Db,
    _commitMainChainBlock (topDb c) (blocks c) (Some (mempool c)) block
    = Ret (newDb, Some (evictMempool (mempool c) block))
    ∧ addBlockAt c block mainChain
      = Ret (None,
             {| dbs := sliceLast 10 (dbs c ++ [newDb]);
                blocks := sliceLast 100 (blocks c ++ [block]);
                mempool := evictMempool (mempool c) block |},
             [BlockEvent block]).
Proof.
  intros Hok.
  destruct (commitMessages_returns (messages block) (_clone (topDb c))
              (accepted_block_no_unknown _ _ _ _ Hok)) as [db' Hdb'].
  exists (pushMessageHashes db' block).
  assert (Hc : _commitMainChainBlock (topDb c) (blocks c) (Some (mempool c)) block
               = Ret (pushMessageHashes db' block,
                      Some (evictMempool (mempool c) block))).
  { unfold _commitMainChainBlock. by rewrite Hdb'. }
  split; [exact Hc|].
  unfold addBlockAt, mbind, Comp_bind. rewrite Hok. cbv beta iota.
  rewrite Hc. reflexivity.
Qed.



(** X10. A call of [addBlock] that answers with an error leaves the node
    as it was and emits nothing, whatever the attach point. *)
Theorem rejected_block_changes_nothing (c c' : Crds) (block : Block)
    (attachPoint : AttachPoint) (e : ErrorObject) (events : list Event) :
  addBlockAt c block attachPoint = Ret (Some e, c', events) →
  c' = c ∧ events = [].
Proof.
  unfold addBlockAt. destruct attachPoint as [|fb scb| |dir].
  - destruct (Block_verify block (topDb c) (blocks c) None) as [[e'|]|];
      simpl; [by intros [= _ <- <-]| |done].
    by destruct (_commitMainChainBlock _ _ _ _).
  - destruct (Block_verify block (topDb c) scb None) as [[e'|]|];
      simpl; [by intros [= _ <- <-]| |done].
    destruct (_commitSideChainBlock_throws (dbs c) (blocks c) (mempool c) block
                fb scb) as [ex ->]. done.
  - by intros [= _ <- <-].
  - destruct (dir =? -1)%Z; by intros [= _ <- <-].
Qed.

Lemma rejected_block_changes_nothing_witness :
  addBlockAt nodeWithOneBlock rivalBlock (sideChain None [rivalBlock])
  = Ret (Some invalidPreviousHash, nodeWithOneBlock, [])
  ∧ nodeWithOneBlock = nodeWithOneBlock ∧ ([] : list Event) = [].
Proof.
  split; [by vm_compute|].
  apply (rejected_block_changes_nothing nodeWithOneBlock nodeWithOneBlock
           rivalBlock (sideChain None [rivalBlock]) invalidPreviousHash []).
  by vm_compute.
Defined.

(** ** Coinbases *)

Lemma verifyBody_coinbase (db : Db) (mp : option Mempool)
    (siblings : list Message) (h : string) (sig : Signature)
    (asset : string) (quantity : num) (address : string) :
  verifyBody db mp siblings h sig (Coinbase asset quantity address) = Ret None →
  eccrypto_verify NULL_PUBLIC_KEY h sig = true
  ∧ asset = CRD ∧ quantity = COINBASE_QUANTITY
  ∧ List.filter isCoinbase siblings = [].
Proof.
  simpl. destruct (eccrypto_verify NULL_PUBLIC_KEY h sig); [|done].
  destruct (String.eqb_spec asset CRD) as [->|]; [|done]. simpl.
  destruct (num_eqb quantity COINBASE_QUANTITY) eqn:Hq; [|done].
  apply num_eqb_true in Hq.
  change (List.filter _ siblings) with (List.filter isCoinbase siblings).
  destruct (List.filter isCoinbase siblings); [done|done].
Qed.

Lemma filter_at_most_one {A : Type} (p : A → bool) (l : list A) :
  (∀ l1 x l2, l = (l1 ++ x :: l2)%list → p x = true →
              List.filter p (l1 ++ l2) = []) →
  (length (List.filter p l) ≤ 1)%nat.
Proof.
  induction l as [|x l IH]; intros H; [simpl; lia|].
  simpl. destruct (p x) eqn:Hx.
  - pose proof (H [] x l eq_refl Hx) as E. simpl in E. rewrite E. simpl. lia.
  - apply IH. intros l1 y l2 -> Hy.
    specialize (H (x :: l1) y l2 eq_refl Hy). simpl in H.
    by rewrite Hx in H.
Qed.



(** ** Replay *)

Lemma sliceLast_snoc {A : Type} (n : nat) (l : list A) (x : A) :
  (0 < n)%nat → ∃ l', sliceLast n (l ++ [x]) = (l' ++ [x])%list.
Proof.
  intros Hn. unfold sliceLast. rewrite length_app. simpl.
  exists (List.skipn (length l + 1 - n) l).
  rewrite skipn_app.
  replace (length l + 1 - n - length l)%nat with 0%nat by lia.
  done.
Qed.

Lemma pushMessageHashes_replayed (db : Db) (block : Block) (m : Message) :
  m ∈ messages block →
  replayed (pushMessageHashes db block) (hash m) = true.
Proof.
  intros Hin. unfold replayed, pushMessageHashes. simpl.
  destruct (sliceLast_snoc 10 (messageHashes db) (List.map hash (messages block)))
    as [l' ->]; [lia|].
  rewrite existsb_app. apply orb_true_iff. right. simpl.
  apply orb_true_iff. left. apply existsb_exists. exists (hash m).
  split; [|apply String.eqb_refl].
  apply in_map. by apply list_elem_of_In.
Qed.

(** X12. Once a block is committed, the resulting Db refuses each of its
    messages: whatever the chain, the mempool and the siblings, the
    validator does not accept the message again, and when the hash matches
    and the height window still holds the verdict is the soft error
    "replay detected". *)
Theorem committed_message_is_replay (db newDb : Db) (chain chain' : list Block)
    (mp newMp mp' : option Mempool) (block : Block) (m : Message)
    (siblings : list Message) :
  _commitMainChainBlock db chain mp block = Ret (newDb, newMp) →
  m ∈ messages block →
  Message_verify newDb chain' mp' siblings m ≠ Ret None
  ∧ (sha256 (payload m) = hash m →
     startHeight (payload m) ≤ nextHeightOf chain' →
     nextHeightOf chain' < startHeight (payload m) + MESSAGE_TTL →
     Message_verify newDb chain' mp' siblings m = Ret (Some replayDetected)).
Proof.
  unfold _commitMainChainBlock.
  destruct (commitMessages (_clone db) (messages block)) as [db'|]; [|done].
  intros [= <- _] Hin.
  pose proof (pushMessageHashes_replayed db' block m Hin) as Hr.
  split.
  - intros Hok. apply Message_verify_accepted in Hok as (_&_&_& Hn &_).
    congruence.
  - intros Hh Hlo Hhi. unfold Message_verify.
    rewrite Hh, String.eqb_refl, Hr.
    apply num_leb_true in Hlo. apply num_ltb_true in Hhi.
    unfold num_geb. by rewrite Hlo, Hhi.
Qed.

Lemma committed_message_is_replay_witness :
  ∃ newDb : Db,
    _commitMainChainBlock DEFAULT_DB [] None crdMintBlock = Ret (newDb, None)
    ∧ Message_verify newDb [crdMintBlock] None [] mintAB
      = Ret (Some replayDetected).
Proof.
  eexists. split; [vm_compute; reflexivity|].
  refine (proj2 (committed_message_is_replay DEFAULT_DB _ [] [crdMintBlock]
                   None None None crdMintBlock mintAB [] _ _) _ _ _).
  - vm_compute; reflexivity.
  - apply list_elem_of_here.
  - reflexivity.
  - by vm_compute.
  - by vm_compute.
Defined.

(** ** The windows of the node *)

Lemma addBlockAt_success (c c' : Crds) (block : Block)
    (attachPoint : AttachPoint) (events : list Event) :
  addBlockAt c block attachPoint = Ret (None, c', events) →
  attachPoint = mainChain
  ∧ Block_verify block (topDb c) (blocks c) None = Ret None
  ∧ ∃ newDb : Db,
      _commitMainChainBlock (topDb c) (blocks c) (Some (mempool c)) block
      = Ret (newDb, Some (evictMempool (mempool c) block))
      ∧ c' = {| dbs := sliceLast 10 (dbs c ++ [newDb]);
                blocks := sliceLast 100 (blocks c ++ [block]);
                mempool := evictMempool (mempool c) block |}
      ∧ events = [BlockEvent block].
Proof.
  destruct attachPoint as [|fb scb| |dir].
  - intros H. split; [done|].
    destruct (Block_verify block (topDb c) (blocks c) None) as [[e|]|] eqn:Hv;
      try (unfold addBlockAt in H; rewrite Hv in H; done).
    split; [done|].
    destruct (main_chain_commit c block Hv) as (newDb & Hc & Ha).
    exists newDb. rewrite Ha in H. injection H as <- <-. done.
  - unfold addBlockAt.
    destruct (Block_verify block (topDb c) scb None) as [[e'|]|];
      simpl; [done| |done].
    destruct (_commitSideChainBlock_throws (dbs c) (blocks c) (mempool c) block
                fb scb) as [ex ->]. done.
  - done.
  - unfold addBlockAt. by destruct (dir =? -1)%Z.
Qed.



Lemma linked_snoc (chain : list Block) (block : Block) :
  linked chain →
  prevHash block = parentHash chain →
  height block = parentHeight chain + 1 →
  linked (chain ++ [block]).
Proof.
  intros Hl Hp Hh i b1 b2 H1 H2.
  destruct (decide (S i < length chain)%nat) as [Hlt|Hge].
  - rewrite lookup_app_l in H1 by lia. rewrite lookup_app_l in H2 by lia.
    by apply (Hl i).
  - assert (Hi : S i = length chain).
    { apply lookup_lt_Some in H2. rewrite length_app in H2. simpl in H2. lia. }
    rewrite lookup_app_l in H1 by lia.
    rewrite Hi, lookup_app_r in H2 by lia.
    rewrite Nat.sub_diag in H2. injection H2 as <-.
    assert (Hlast : last chain = Some b1).
    { rewrite last_lookup. rewrite <- Hi. exact H1. }
    unfold parentHash in Hp. unfold parentHeight in Hh.
    rewrite Hlast in Hp, Hh. done.
Qed.

Lemma linked_sliceLast (n : nat) (chain : list Block) :
  linked chain → linked (sliceLast n chain).
Proof.
  intros Hl i b1 b2. unfold sliceLast.
  rewrite !lookup_drop.
  replace (length chain - n + S i)%nat with (S (length chain - n + i)) by lia.
  apply Hl.
Qed.






(** ** The mempool entry point *)

Lemma existsb_equals_false (message : Message) (l : list Message) :
  existsb (fun mempoolMessage => Message_equals mempoolMessage message) l
  = false →
  hash message ∉ List.map hash l.
Proof.
  intros Hex Hin. apply list_elem_of_In, in_map_iff in Hin as (m & Hm & Hin).
  assert (existsb (fun mempoolMessage => Message_equals mempoolMessage message)
            l = true); [|congruence].
  apply existsb_exists. exists m. split; [done|].
  unfold Message_equals. rewrite Hm. apply String.eqb_refl.
Qed.

(** X16. [addMessage] keeps the mempool well formed: if the pending
    messages have pairwise different hashes and are at most 10000, the
    same holds after the call. The pending blocks are never touched, and
    the [message] event is emitted exactly when the message was appended,
    which happens only with a [null] verdict. *)
Theorem addMessage_keeps_mempool (db : Db) (chain : list Block)
    (mp mp' : Mempool) (message : Message) (verdict : Verdict)
    (events : list Event) :
  NoDup (List.map hash (mempoolMessages mp)) →
  (length (mempoolMessages mp) ≤ MESSAGES_PER_BLOCK_MAX)%nat →
  addMessage db chain mp message = Ret (verdict, mp', events) →
  NoDup (List.map hash (mempoolMessages mp'))
  ∧ (length (mempoolMessages mp') ≤ MESSAGES_PER_BLOCK_MAX)%nat
  ∧ mempoolBlocks mp' = mempoolBlocks mp
  ∧ ((verdict = None ∧ events = [MessageEvent message]
      ∧ mempoolMessages mp' = (mempoolMessages mp ++ [message])%list)
     ∨ (events = [] ∧ mp' = mp)).
Proof.
  intros Hnd Hlen. unfold addMessage.
  destruct (Nat.ltb_spec (length (mempoolMessages mp)) MESSAGES_PER_BLOCK_MAX)
    as [Hlt|Hge].
  - destruct (existsb _ (mempoolMessages mp)) eqn:Hex; simpl.
    + intros [= <- <- <-]. repeat split; try done. by right.
    + destruct (Message_verify db chain (Some mp) [] message)
        as [[e|]|ex]; simpl; [| |done].
      * intros [= <- <- <-]. repeat split; try done. by right.
      * intros [= <- <- <-]. simpl. repeat split.
        -- rewrite map_app. simpl. apply NoDup_app. split; [done|]. split.
           ++ intros h Hh Hin. apply list_elem_of_singleton in Hin as ->.
              by apply (existsb_equals_false _ _ Hex).
           ++ apply NoDup_singleton.
        -- rewrite length_app. simpl. lia.
        -- by left.
  - intros [= <- <- <-]. repeat split; try done. by right.
Qed.

Lemma addMessage_keeps_mempool_witness :
  ∃ mp' : Mempool,
    addMessage fiftyCrdDb [] {| mempoolBlocks := []; mempoolMessages := [] |}
      sendAB = Ret (None, mp', [MessageEvent sendAB])
    ∧ NoDup (List.map hash (mempoolMessages mp'))
    ∧ (length (mempoolMessages mp') ≤ MESSAGES_PER_BLOCK_MAX)%nat.
Proof.
  eexists. split; [vm_compute; reflexivity|].
  refine ((fun H => conj (proj1 H) (proj1 (proj2 H)))
            (addMessage_keeps_mempool fiftyCrdDb []
               {| mempoolBlocks := []; mempoolMessages := [] |} _ sendAB None
               [MessageEvent sendAB] _ _ _)).
  - apply NoDup_nil_2.
  - simpl. unfold MESSAGES_PER_BLOCK_MAX. lia.
  - vm_compute; reflexivity.
Defined.


(** ** Assets whose minter is [null] *)

Lemma minterPass_null (mintMessages : list Message) :
  minterPass MNull mintMessages = None.
Proof.
  induction mintMessages as [|message rest IH]; [done|].
  simpl. rewrite IH. by destruct (body (payload message)).
Qed.

Lemma _getPostMessagesMinter_null (asset : string) (msgs : list Message) :
  _getPostMessagesMinter MNull asset msgs = MNull.
Proof.
  unfold _getPostMessagesMinter.
  generalize (List.filter (isMintMessage asset) msgs). intros l.
  destruct (length l); simpl; [done|]. by rewrite minterPass_null.
Qed.

Lemma viewMinter_null (db : Db) (mp : option Mempool)
    (siblings : list Message) (asset : string) :
  readMinter db asset = MNull →
  viewMinter db mp siblings asset = MNull.
Proof.
  intros Hnull. destruct mp as [mp|]; simpl;
    unfold _getUnconfirmedMinter, _getConfirmedMinter; rewrite Hnull;
    by rewrite !_getPostMessagesMinter_null.
Qed.

(** X17. An asset whose stored minter is [null] (as [CRD] in the default
    Db) keeps the minter [null] in every confirmed and unconfirmed view,
    whatever messages are pending. So no [minter], [price] or [buy] message
    for it is ever accepted, and a [mint] of it is accepted only while one
    of its prices in view is 0. *)
Theorem null_minter_is_frozen (db : Db) (chain : list Block)
    (mp : option Mempool) (siblings : list Message) (asset : string)
    (m : Message) :
  readMinter db asset = MNull →
  viewMinter db mp siblings asset = MNull
  ∧ (Message_verify db chain mp siblings m = Ret None →
     match body (payload m) with
     | Minter a _ | Price a _ _ | Buy a _ _ _ => a ≠ asset
     | Mint a _ _ =>
         _getBaseAsset a = Ret asset →
         priceIsZero (viewPrice db mp siblings asset) = true
     | _ => True
     end).
Proof.
  intros Hnull. pose proof (viewMinter_null db mp siblings asset Hnull) as Hv.
  split; [exact Hv|]. intros Hok.
  apply Message_verify_accepted in Hok as (_ & _ & _ & _ & Hb).
  destruct (body (payload m)) as [| |a pk|a q pk| | | |a p pk|a q p pk|];
    try done; simpl in Hb.
  - intros ->. rewrite Hv in Hb.
    destruct (eccrypto_verify _ _ _); [|done].
    by destruct (_isBaseAsset asset).
  - intros Hbase.
    destruct (eccrypto_verify _ _ _); [|done].
    destruct (_isBasicAsset a); [|done].
    destruct (isPositiveInteger q); [|done].
    rewrite Hbase in Hb. simpl in Hb. unfold checkMint in Hb.
    rewrite Hv in Hb. simpl in Hb.
    by destruct (priceIsZero _).
  - intros ->. rewrite Hv in Hb.
    destruct (eccrypto_verify _ _ _); [|done].
    by destruct (_isBaseAsset asset).
  - intros ->. rewrite Hv in Hb.
    destruct (eccrypto_verify _ _ _); [|done].
    destruct (_isBaseAsset asset); [|done].
    destruct (isPositiveInteger q); [|done].
    destruct (num_gtb p 0 && num_eqb (Math_floor p) p); simpl in Hb; done.
Qed.

Lemma null_minter_is_frozen_witness :
  viewMinter DEFAULT_DB (Some {| mempoolBlocks := []; mempoolMessages := [mintAB] |})
    [mintBA] CRD = MNull.
Proof.
  refine (proj1 (null_minter_is_frozen DEFAULT_DB []
                   (Some {| mempoolBlocks := []; mempoolMessages := [mintAB] |})
                   [mintBA] CRD mintAB _)).
  vm_compute; reflexivity.
Defined.


(** ** Balance views and the commit loop *)

Lemma commitMessage_balances (db : Db) (mp : Mempool) (d d' : Db)
    (m : Message) :
  isBuy m = false →
  commitMessage d m = Ret d' →
  balances d' = allUnconfirmedStep db mp (balances d) m.
Proof.
  unfold isBuy, commitMessage, allUnconfirmedStep.
  destruct (body (payload m)); try done; intros _.
  - by intros [= <-].
  - destruct (matchMint asset); by intros [= <-].
  - by intros [= <-].
  - by intros [= <-].
  - by intros [= <-].
  - by intros [= <-].
  - by intros [= <-].
  - by intros [= <-].
Qed.

Lemma commitMessages_balances (db : Db) (mp : Mempool) (msgs : list Message) :
  ∀ d d' : Db,
    (∀ m, m ∈ msgs → isBuy m = false) →
    commitMessages d msgs = Ret d' →
    List.fold_left (allUnconfirmedStep db mp) msgs (balances d) = balances d'.
Proof.
  induction msgs as [|m rest IH]; intros d d' Hnb; simpl.
  - by intros [= <-].
  - destruct (commitMessage d m) as [d1|ex] eqn:Hm; [|done]. simpl.
    intros Hrest.
    rewrite <- (commitMessage_balances db mp d d1 m); [|apply Hnb; left|done].
    apply IH; [|done]. intros m' Hin. apply Hnb. by right.
Qed.

(** X18. For a mempool without [buy] messages the balances shown by
    [_getAllUnconfirmedBalances] are those that committing the pending
    messages, in order, on the same Db produces. *)
Theorem unconfirmed_balances_are_committed (db db' : Db) (mp : Mempool) :
  (∀ m, m ∈ mempoolMessages mp → isBuy m = false) →
  commitMessages db (mempoolMessages mp) = Ret db' →
  _getAllUnconfirmedBalances db mp = balances db'.
Proof.
  intros Hnb Hc. unfold _getAllUnconfirmedBalances, _getAllConfirmedBalances.
  by apply commitMessages_balances.
Qed.

Lemma unconfirmed_balances_are_committed_witness :
  ∃ db' : Db,
    commitMessages fiftyCrdDb [sendAB; sendBA] = Ret db'
    ∧ _getAllUnconfirmedBalances fiftyCrdDb
        {| mempoolBlocks := []; mempoolMessages := [sendAB; sendBA] |}
      = balances db'.
Proof.
  eexists. split; [vm_compute; reflexivity|].
  apply (unconfirmed_balances_are_committed fiftyCrdDb _
           {| mempoolBlocks := []; mempoolMessages := [sendAB; sendBA] |}).
  - intros m Hm. simpl in Hm.
    apply elem_of_cons in Hm as [->|Hm]; [done|].
    apply elem_of_cons in Hm as [->|Hm]; [done|].
    by apply elem_of_nil in Hm.
  - vm_compute; reflexivity.
Defined.

Lemma credit_lookup_eq (bal : Balances) (a asset : string) (q : num) :
  default ∅ (credit bal a asset q !! a)
  = entryCredit (default ∅ (bal !! a)) asset q.
Proof. unfold credit, entryCredit. by rewrite lookup_insert_eq. Qed.

Lemma credit_lookup_ne (bal : Balances) (a address asset : string) (q : num) :
  a ≠ address → credit bal a asset q !! address = bal !! address.
Proof. intros Hne. unfold credit. by rewrite lookup_insert_ne. Qed.

Lemma debit_lookup_eq (bal : Balances) (a asset : string) (q : num) :
  default ∅ (debit bal a asset q !! a)
  = entryDebit (default ∅ (bal !! a)) asset q.
Proof. unfold debit, entryDebit. by rewrite lookup_insert_eq. Qed.

Lemma debit_lookup_ne (bal : Balances) (a address asset : string) (q : num) :
  a ≠ address → debit bal a asset q !! address = bal !! address.
Proof. intros Hne. unfold debit. by rewrite lookup_insert_ne. Qed.

Lemma debitOrDelete_lookup_eq (bal : Balances) (a asset : string) (q : num) :
  default ∅ (debitOrDelete bal a asset q !! a)
  = entryDebitOrDelete (default ∅ (bal !! a)) asset q.
Proof.
  unfold debitOrDelete, entryDebitOrDelete.
  set (e := default ∅ (bal !! a)).
  assert (Hpr : default ∅ ((if bool_decide (size (delete asset e) = 0%nat)
                            then delete a bal
                            else <[a := delete asset e]> bal) !! a)
                = delete asset e).
  { case_bool_decide as Hs.
    - rewrite lookup_delete_eq. simpl. symmetry. by apply map_size_empty_inv.
    - by rewrite lookup_insert_eq. }
  destruct (e !! asset) as [assetEntry|]; [|exact Hpr].
  destruct (num_gtb (assetEntry - q) 0); [|exact Hpr].
  by rewrite lookup_insert_eq.
Qed.

Lemma debitOrDelete_lookup_ne (bal : Balances) (a address asset : string)
    (q : num) :
  a ≠ address → debitOrDelete bal a asset q !! address = bal !! address.
Proof.
  intros Hne. unfold debitOrDelete.
  assert (Hpr : (if bool_decide (size (delete asset (default ∅ (bal !! a)))
                                 = 0%nat)
                 then delete a bal
                 else <[a := delete asset (default ∅ (bal !! a))]> bal)
                !! address = bal !! address).
  { case_bool_decide.
    - by rewrite lookup_delete_ne.
    - by rewrite lookup_insert_ne. }
  destruct (default ∅ (bal !! a) !! asset) as [assetEntry|]; [|exact Hpr].
  destruct (num_gtb (assetEntry - q) 0); [|exact Hpr].
  by rewrite lookup_insert_ne.
Qed.

Lemma minterIs_minterKey (m : MinterValue) (address : string) :
  address ≠ "undefined" → address ≠ "null" →
  minterIs m address = String.eqb (minterKey m) address.
Proof.
  intros Hu Hn. destruct m as [| |a]; [| |done].
  - change (false = String.eqb "undefined" address). symmetry.
    apply String.eqb_neq. congruence.
  - change (false = String.eqb "null" address). symmetry.
    apply String.eqb_neq. congruence.
Qed.

Lemma postMessageBalances_step (db : Db) (mp : Mempool) (address : string)
    (result : Balances) (m : Message) :
  address ≠ "undefined" → address ≠ "null" →
  postMessageBalances db (Some mp) [] address (default ∅ (result !! address)) m
  = default ∅ (allUnconfirmedStep db mp result m !! address).
Proof.
  intros Hu Hn. unfold postMessageBalances, allUnconfirmedStep.
  destruct (body (payload m)) as
    [a q addr|a q src dst pk|a pk|a q pk|addr a q|a q pk|addr a q|a p pk
    |a q p pk|t]; try done;
    cbn [viewMinter];
    rewrite ?(minterIs_minterKey _ address Hu Hn);
    try rewrite (Qcmult_comm p q);
    repeat match goal with
    | |- context [String.eqb ?x address] =>
        destruct (String.eqb_spec x address) as [->|?]
    end;
    rewrite ?credit_lookup_eq, ?debit_lookup_eq, ?debitOrDelete_lookup_eq;
    rewrite ?credit_lookup_ne, ?debit_lookup_ne, ?debitOrDelete_lookup_ne
      by done;
    rewrite ?credit_lookup_eq, ?debit_lookup_eq, ?debitOrDelete_lookup_eq;
    rewrite ?credit_lookup_ne, ?debit_lookup_ne, ?debitOrDelete_lookup_ne
      by done;
    rewrite ?credit_lookup_eq, ?debit_lookup_eq, ?debitOrDelete_lookup_eq;
    done.
Qed.

(** X19. For an address other than the strings "undefined" and "null",
    the per-address view [_getUnconfirmedBalances] (with no confirming
    messages) is the entry of that address in [_getAllUnconfirmedBalances],
    or the empty object when the address has no entry there. *)
Theorem unconfirmed_balances_views_agree (db : Db) (mp : Mempool)
    (address : string) :
  address ≠ "undefined" → address ≠ "null" →
  _getUnconfirmedBalances db mp [] address
  = default ∅ (_getAllUnconfirmedBalances db mp !! address).
Proof.
  intros Hu Hn.
  unfold _getUnconfirmedBalances, _getConfirmedBalances,
    _getAllUnconfirmedBalances, _getAllConfirmedBalances,
    _getPostMessagesBalances.
  simpl. generalize (balances db) as result.
  induction (mempoolMessages mp) as [|m rest IH]; intros result; [done|].
  simpl. rewrite postMessageBalances_step by done. apply IH.
Qed.

Lemma unconfirmed_balances_views_agree_witness :
  _getUnconfirmedBalances fiftyCrdDb
    {| mempoolBlocks := []; mempoolMessages := [sendAB] |} [] "B"
  = default ∅ (_getAllUnconfirmedBalances fiftyCrdDb
                 {| mempoolBlocks := []; mempoolMessages := [sendAB] |}
               !! "B").
Proof.
  apply (unconfirmed_balances_views_agree fiftyCrdDb
           {| mempoolBlocks := []; mempoolMessages := [sendAB] |} "B");
    discriminate.
Defined.


Lemma decide_eqb (a b : string) (x y : num) :
  (if decide (a = b) then x else y) = (if String.eqb a b then x else y).
Proof. case_decide; destruct (String.eqb_spec a b); done. Qed.


(** ** The classification of a submitted block *)

Lemma num_sub_le (h k : num) : 0 ≤ k → h - k ≤ h.
Proof.
  intros Hk. apply Qcle_minus_iff.
  replace (h + - (h - k)) with k by ring. done.
Qed.

Lemma tip_block_attach_point (fuel : nat) (chain : list Block)
    (mp : Mempool) (block : Block) :
  prevHash block = parentHash chain →
  height block = topBlockHeightOf chain + 1 →
  0 ≤ topBlockHeightOf chain →
  _findBlockAttachPoint fuel chain mp block = Some (Ret mainChain).
Proof.
  intros Hp Hh Hnn. unfold _findBlockAttachPoint. rewrite Hh, Hp.
  set (h := topBlockHeightOf chain) in *.
  replace (h + 1 - 1) with h by ring.
  replace (h - 1 + 1) with h by ring.
  assert (H1 : num_geb h (Math_max (h - 1 - ofZ 10) 0) = true).
  { apply num_leb_true. apply Math_max_lub; [|done].
    replace (h - 1 - ofZ 10) with (h - (1 + ofZ 10)) by ring.
    apply num_sub_le. done. }
  assert (H2 : num_leb h h = true) by (apply num_leb_true, Qcle_refl).
  assert (H3 : num_eqb h h = true) by by apply num_eqb_true.
  rewrite H1, H2, H3. simpl.
  unfold parentHash, zeroHash. by rewrite String.eqb_refl.
Qed.




Lemma ofZ_plus (a b : Z) : ofZ (a + b) = ofZ a + ofZ b.
Proof.
  apply Qc_is_canon. unfold ofZ. simpl.
  rewrite Qred_correct. by rewrite inject_Z_plus.
Qed.

Lemma ofZ_1 : ofZ 1 = 1.
Proof. by apply Qc_is_canon. Qed.

Lemma ofZ_le (a b : Z) : (a ≤ b)%Z → ofZ a ≤ ofZ b.
Proof. intros H. unfold Qcle, ofZ, Qc_of_Z. simpl. unfold Qle. simpl. lia. Qed.

Lemma linked_height (chain : list Block) (i k : nat) (bi bk : Block) :
  linked chain →
  chain !! i = Some bi → chain !! (i + k)%nat = Some bk →
  height bk = height bi + ofZ (Z.of_nat k).
Proof.
  intros Hl Hi. revert bk. induction k as [|k IH]; intros bk Hk.
  - rewrite Nat.add_0_r, Hi in Hk. injection Hk as <-.
    change (Z.of_nat 0) with 0%Z. rewrite ofZ_0. ring.
  - replace (i + S k)%nat with (S (i + k)) in Hk by lia.
    destruct (chain !! (i + k)%nat) as [b|] eqn:Hb.
    + destruct (Hl (i + k)%nat b bk Hb Hk) as [_ Hh].
      rewrite Hh, (IH b eq_refl).
      replace (Z.of_nat (S k)) with (Z.of_nat k + 1)%Z by lia.
      rewrite ofZ_plus, ofZ_1. ring.
    + apply lookup_ge_None in Hb. apply lookup_lt_Some in Hk. lia.
Qed.

Lemma indexNum_nat {A : Type} (a : list A) (i : nat) :
  indexNum a (ofZ (Z.of_nat i)) = a !! i.
Proof.
  unfold indexNum.
  assert (H1 : num_leb 0 (ofZ (Z.of_nat i)) = true).
  { apply num_leb_true. rewrite <- ofZ_0. apply ofZ_le. lia. }
  assert (H2 : num_eqb (Math_floor (ofZ (Z.of_nat i))) (ofZ (Z.of_nat i))
               = true) by apply num_eqb_true, ofZ_floor.
  rewrite H1, H2. cbn [andb].
  change (Qfloor (ofZ (Z.of_nat i))) with (Qfloor (inject_Z (Z.of_nat i))).
  by rewrite Qfloor_Z, Nat2Z.id.
Qed.

Lemma main_chain_block_exists (chain : list Block) (mp : Mempool)
    (i : nat) (block : Block) :
  linked chain → chain !! i = Some block →
  _checkBlockExists chain mp block = true.
Proof.
  intros Hl Hi. unfold _checkBlockExists, topBlockHeightOf.
  destruct chain as [|b0 rest] eqn:Hchain; [done|]. rewrite <- Hchain in *.
  assert (H0 : chain !! 0%nat = Some b0) by by rewrite Hchain.
  pose proof (linked_height chain 0 i b0 block Hl H0 Hi) as Hh.
  destruct (last chain) as [bl|] eqn:Hlast;
    [|rewrite Hchain in Hlast; by apply last_None in Hlast].
  rewrite last_lookup in Hlast.
  assert (Hlt : (i < length chain)%nat) by by apply lookup_lt_Some in Hi.
  replace (Nat.pred (length chain)) with (i + (length chain - 1 - i))%nat
    in Hlast by lia.
  pose proof (linked_height chain i _ block bl Hl Hi Hlast) as Hhl.
  assert (H1 : num_leb (height block - 1) (height bl - 1) = true).
  { apply num_leb_true. rewrite Hhl. apply Qcle_minus_iff.
    replace (height block + ofZ (Z.of_nat (length chain - 1 - i)) - 1
             + - (height block - 1))
      with (ofZ (Z.of_nat (length chain - 1 - i))) by ring.
    rewrite <- ofZ_0. apply ofZ_le. lia. }
  rewrite H1.
  replace (height block - 1 - (height b0 - 1)) with (ofZ (Z.of_nat i))
    by (rewrite Hh; ring).
  rewrite indexNum_nat, Hi. by rewrite String.eqb_refl.
Qed.

(** X23. On a linked main chain every block of the buffer is recognised:
    submitting it again answers the soft error "block exists", whatever
    the mempool holds, and leaves the node as it is, with no event. *)
Theorem known_block_is_reported (fuel : nat) (c : Crds) (i : nat)
    (block : Block) :
  linked (blocks c) → blocks c !! i = Some block →
  addBlock fuel c block = Some (Ret (Some blockExists, c, [])).
Proof.
  intros Hl Hi. unfold addBlock.
  by rewrite (main_chain_block_exists (blocks c) (mempool c) i block Hl Hi).
Qed.

Lemma known_block_is_reported_witness :
  addBlock 0 nodeWithOneBlock (blockAtHeight 1)
  = Some (Ret (Some blockExists, nodeWithOneBlock, [])).
Proof.
  apply (known_block_is_reported 0 nodeWithOneBlock 0 (blockAtHeight 1)).
  - intros i b1 b2 H1 H2. destruct i; discriminate H2.
  - vm_compute; reflexivity.
Defined.


Lemma find_none_hash (mp : Mempool) (block : Block) :
  (∀ b, b ∈ mempoolBlocks mp → blockHash b ≠ prevHash block) →
  _getPreviousMempoolBlock mp block = None.
Proof.
  intros Hno. unfold _getPreviousMempoolBlock.
  destruct (List.find _ (mempoolBlocks mp)) as [b|] eqn:E; [|done].
  apply find_some in E as [Hin Heq].
  apply String.eqb_eq in Heq. apply list_elem_of_In in Hin.
  by destruct (Hno b Hin).
Qed.

(** X24. [_getBlockForkOrigin] looks for the parent of a block of height h
    at index h - 2 of the buffer of main-chain blocks, which is where the
    parent is while the buffer starts at height 1. A block within the height
    window whose parent is found there, and is not the tip, makes
    [addBlock] throw a [TypeError] when no pending block has that parent's
    hash: the loop that collects the side chain walks from the block to its
    parent through [mempool.blocks.find], which yields [undefined], and
    then reads [undefined.hash]. *)
Theorem fork_on_main_chain_parent_throws (fuel : nat) (c : Crds) (i : nat)
    (block parent : Block) :
  blocks c !! i = Some parent →
  height block = ofZ (Z.of_nat i) + 2 →
  prevHash block = blockHash parent →
  blockHash block ≠ blockHash parent →
  prevHash block ≠ parentHash (blocks c) →
  Math_max (topBlockHeightOf (blocks c) - 1 - ofZ 10) 0 ≤ height block - 1 →
  height block - 1 ≤ topBlockHeightOf (blocks c) - 1 + 1 →
  _checkBlockExists (blocks c) (mempool c) block = false →
  (∀ b, b ∈ mempoolBlocks (mempool c) → blockHash b ≠ prevHash block) →
  addBlock (S (S fuel)) c block = Some (Throw (TypeError "undefined.hash")).
Proof.
  intros Hi Hh Hp Hne Hnt Hlo Hhi Hex Hmp.
  unfold addBlock. rewrite Hex. cbn [negb].
  unfold _findBlockAttachPoint.
  apply num_leb_true in Hlo. apply num_leb_true in Hhi.
  unfold num_geb. rewrite Hlo, Hhi. cbn [andb].
  assert (Htip : String.eqb
                   match last (blocks c) with
                   | Some b => blockHash b
                   | None => zeroHash
                   end (prevHash block) = false).
  { apply String.eqb_neq. intros Heq. apply Hnt. by rewrite <- Heq. }
  rewrite Htip, andb_false_r.
  assert (Hprev : _getPreviousMainChainBlock (blocks c) block
                  = Ret (Some parent)).
  { unfold _getPreviousMainChainBlock.
    replace (height block - 1 - 1) with (ofZ (Z.of_nat i)) by (rewrite Hh; ring).
    assert (H1 : num_geb (ofZ (Z.of_nat i)) 0 = true).
    { apply num_leb_true. rewrite <- ofZ_0. apply ofZ_le. lia. }
    assert (H2 : num_ltb (ofZ (Z.of_nat i))
                   (ofZ (Z.of_nat (length (blocks c)))) = true).
    { apply num_ltb_true. apply lookup_lt_Some in Hi.
      unfold Qclt, ofZ, Qc_of_Z. simpl. unfold Qlt. simpl. lia. }
    rewrite H1, H2, indexNum_nat, Hi. cbn [andb].
    by rewrite Hp, String.eqb_refl. }
  cbn [_getBlockForkOrigin]. rewrite Hprev.
  cbn [extraBlocksLoop].
  assert (Hd : String.eqb (blockHash block) (blockHash parent) = false)
    by by apply String.eqb_neq.
  rewrite Hd. cbn [negb].
  by rewrite (find_none_hash (mempool c) block Hmp).
Qed.

Lemma fork_on_main_chain_parent_throws_witness :
  addBlock 2
    {| dbs := [DEFAULT_DB];
       blocks := [minedBlock "1f" "0" 1 1000 []; minedBlock "2f" "1f" 2 1000 []];
       mempool := DEFAULT_MEMPOOL |}
    (minedBlock "2e" "1f" 2 1000 [])
  = Some (Throw (TypeError "undefined.hash")).
Proof.
  apply (fork_on_main_chain_parent_throws 0 _ 0 _
           (minedBlock "1f" "0" 1 1000 [])).
  - reflexivity.
  - apply Qc_is_canon. vm_compute. reflexivity.
  - reflexivity.
  - discriminate.
  - discriminate.
  - vm_compute. discriminate.
  - vm_compute. discriminate.
  - vm_compute. reflexivity.
  - intros b Hb. by apply elem_of_nil in Hb.
Defined.


(** X25. The height window of [addBlock]. A block that is not already
    known and whose height is below 1, or more than 10 below the tip's, is
    answered with the soft error "stale block"; on a tip of non-negative
    height, one whose height is more than 1 above the tip's is answered
    with the soft error "desynchronized block". In both cases the node is
    unchanged and nothing is emitted, whatever the block contains. *)
Theorem out_of_range_block_is_refused (fuel : nat) (c : Crds) (block : Block) :
  _checkBlockExists (blocks c) (mempool c) block = false →
  (height block < 1
   ∨ height block < topBlockHeightOf (blocks c) - ofZ 10 →
   addBlock fuel c block
   = Some (Ret (Some (errSoft 400 "stale block"), c, [])))
  ∧ (0 ≤ topBlockHeightOf (blocks c) →
     topBlockHeightOf (blocks c) + 1 < height block →
     addBlock fuel c block
     = Some (Ret (Some (errSoft 400 "desynchronized block"), c, []))).
Proof.
  intros Hex. unfold addBlock, _findBlockAttachPoint. rewrite Hex. cbn [negb].
  set (h := height block). set (t := topBlockHeightOf (blocks c)).
  split.
  - intros Hlow.
    assert (Hlt : h - 1 < Math_max (t - 1 - ofZ 10) 0).
    { destruct Hlow as [H1|H10].
      - apply Qclt_le_trans with 0; [|apply Math_max_ge_r].
        apply Qclt_minus_iff. apply Qclt_minus_iff in H1.
        by replace (0 + - (h - 1)) with (1 + - h) by ring.
      - apply Qclt_le_trans with (t - 1 - ofZ 10); [|apply Math_max_ge_l].
        apply Qclt_minus_iff. apply Qclt_minus_iff in H10.
        by replace (t - 1 - ofZ 10 + - (h - 1)) with (t - ofZ 10 + - h)
          by ring. }
    assert (Hge : num_geb (h - 1) (Math_max (t - 1 - ofZ 10) 0) = false)
      by by apply num_leb_false.
    apply num_ltb_true in Hlt. by rewrite Hge, Hlt.
  - intros Hnn Hhigh.
    assert (Hle : num_leb (h - 1) (t - 1 + 1) = false).
    { apply num_leb_false. apply Qclt_minus_iff. apply Qclt_minus_iff in Hhigh.
      by replace (h - 1 + - (t - 1 + 1)) with (h + - (t + 1)) by ring. }
    assert (Hlt : num_ltb (h - 1) (Math_max (t - 1 - ofZ 10) 0) = false).
    { apply num_ltb_false. apply Math_max_lub.
      - apply Qcle_trans with t.
        + replace (t - 1 - ofZ 10) with (t - (1 + ofZ 10)) by ring.
          by apply num_sub_le.
        + apply Qclt_le_weak. apply Qclt_minus_iff.
          apply Qclt_minus_iff in Hhigh.
          replace (h - 1 + - t) with (h + - (t + 1)) by ring. done.
      - apply Qcle_trans with t; [done|].
        apply Qclt_le_weak. apply Qclt_minus_iff.
        apply Qclt_minus_iff in Hhigh.
        replace (h - 1 + - t) with (h + - (t + 1)) by ring. done. }
    by rewrite Hle, andb_false_r, Hlt.
Qed.

Lemma out_of_range_block_is_refused_witness :
  addBlock 0 nodeWithOneBlock (blockAtHeight 5)
  = Some (Ret (Some (errSoft 400 "desynchronized block"),
               nodeWithOneBlock, [])).
Proof.
  refine (proj2 (out_of_range_block_is_refused 0 nodeWithOneBlock
                   (blockAtHeight 5) _) _ _).
  - vm_compute. reflexivity.
  - vm_compute. discriminate.
  - vm_compute. reflexivity.
Defined.


(** ** What an accepted message has been checked for *)

(** X26. A message that [Message.verify] accepts, in any view, carries the
    digest of its payload as hash, is inside its time-to-live window, is
    not in the replay window of the Db, and its signature verifies over
    that digest: with the null key for [coinbase], [get] and [drop], with
    the public key of the payload otherwise; for a [send] that key hashes
    to the source address. No message of an unknown type is accepted. *)
Theorem accepted_message_is_authentic (db : Db) (chain : list Block)
    (mp : option Mempool) (siblings : list Message) (m : Message) :
  Message_verify db chain mp siblings m = Ret None →
  sha256 (payload m) = hash m
  ∧ startHeight (payload m) ≤ nextHeightOf chain
  ∧ nextHeightOf chain < startHeight (payload m) + MESSAGE_TTL
  ∧ replayed db (hash m) = false
  ∧ match body (payload m) with
    | Coinbase _ _ _ | Get _ _ _ | Drop _ _ _ =>
        eccrypto_verify NULL_PUBLIC_KEY (hash m) (signature m) = true
    | Send _ _ srcAddress _ publicKey =>
        eccrypto_verify publicKey (hash m) (signature m) = true
        ∧ _getAddressFromPublicKey publicKey = srcAddress
    | Minter _ publicKey | Mint _ _ publicKey | Burn _ _ publicKey
    | Price _ _ publicKey | Buy _ _ _ publicKey =>
        eccrypto_verify publicKey (hash m) (signature m) = true
    | Unknown _ => False
    end.
Proof.
  intros Hok.
  apply Message_verify_accepted in Hok as (Hh & Hlo & Hhi & Hrep & Hb).
  repeat (split; [done|]). rewrite <- Hh.
  destruct (body (payload m)) as
    [a q addr|a q src dst pk|a pk|a q pk|addr a q|a q pk|addr a q|a p pk
    |a q p pk|t]; simpl in Hb; try done;
    try (by destruct (eccrypto_verify _ _ _)).
  destruct (eccrypto_verify pk (sha256 (payload m)) (signature m)); [|done].
  destruct (String.eqb_spec (_getAddressFromPublicKey pk) src); done.
Qed.

Lemma accepted_message_is_authentic_witness :
  eccrypto_verify (keyOf "A") (hash sendAB) (signature sendAB) = true
  ∧ _getAddressFromPublicKey (keyOf "A") = "A".
Proof.
  refine (proj2 (proj2 (proj2 (proj2
            (accepted_message_is_authentic fiftyCrdDb [] None [] sendAB _))))).
  vm_compute. reflexivity.
Defined.

(** * Properties of the code over doubles *)

(** ** The retarget formula *)

Section Retarget.
Import Binary64.

Lemma firstLast_timestamps (l : list Block) (f la : Block) :
  ∃ f' la' : Block,
    List.fold_left firstLastStep l (Some f, Some la) = (Some f', Some la')
    ∧ timestamp f'
      = List.fold_left (fun best y => if (y <? best)%float then y else best)
          (map timestamp l) (timestamp f)
    ∧ timestamp la'
      = List.fold_left (fun best y => if (best <? y)%float then y else best)
          (map timestamp l) (timestamp la).
Proof.
  revert f la. induction l as [|b l IH]; intros f la; simpl.
  - by exists f, la.
  - assert (Hstep : firstLastStep (Some f, Some la) b
                    = (Some (if (timestamp b <? timestamp f)%float
                             then b else f),
                       Some (if (timestamp la <? timestamp b)%float
                             then b else la))).
    { unfold firstLastStep. simpl.
      by destruct (timestamp b <? timestamp f)%float,
                  (timestamp la <? timestamp b)%float. }
    rewrite Hstep.
    destruct (IH (if (timestamp b <? timestamp f)%float then b else f)
                (if (timestamp la <? timestamp b)%float then b else la))
      as (f' & la' & H & Hf & Hla).
    exists f', la'. split; [done|]. rewrite Hf, Hla.
    by destruct (timestamp b <? timestamp f)%float,
                (timestamp la <? timestamp b)%float.
Qed.

Lemma checkBlocksTimeDiff_value (window : list Block) :
  window ≠ [] →
  checkBlocksTimeDiff window
  = Ret (greatest (map timestamp window) - least (map timestamp window))%float.
Proof.
  intros Hne. destruct window as [|b rest]; [done|].
  unfold checkBlocksTimeDiff. simpl.
  destruct (firstLast_timestamps rest b b) as (f' & la' & H & Hf & Hla).
  unfold firstLastStep at 2. simpl. rewrite H. by rewrite Hf, Hla.
Qed.

Lemma sumLeft_difficulty (window : list Block) (acc : number) :
  List.fold_left (fun acc checkBlock => (acc + difficulty checkBlock)%float)
    window acc
  = List.fold_left PrimFloat.add (map difficulty window) acc.
Proof.
  revert acc. induction window as [|b rest IH]; intros acc; simpl; [done|].
  apply IH.
Qed.

Lemma averageDifficulty_value (window : list Block) :
  window ≠ [] →
  averageDifficulty window = meanOf (map difficulty window).
Proof.
  intros Hne. unfold averageDifficulty, meanOf, sumLeft.
  destruct window as [|b rest]; [done|].
  by rewrite length_map, sumLeft_difficulty.
Qed.

(** C7, amended. For a non-empty chain the next base difficulty is
    [max(mean / f, 1000)] evaluated in double precision: the mean is the
    running sum of the difficulties of the last [min(10, length)] blocks
    divided by their number, and [f = clamp((tmax - tmin) / 600000, 0.5, 2)]
    with [tmax] and [tmin] the greatest and the least timestamp of those
    blocks; every operation rounds to the nearest double. *)
Theorem base_difficulty_in_doubles (chain : list Block) :
  chain ≠ [] →
  let window := sliceLast 10 chain in
  length window = Nat.min 10 (length chain)
  ∧ (∃ older, chain = (older ++ window)%list)
  ∧ _getNextBlockBaseDifficulty chain
    = Ret (Math_max
             (meanOf (map difficulty window)
              / clamp ((greatest (map timestamp window)
                        - least (map timestamp window)) / 600000)
                  0.5 2)
             1000)%float.
Proof.
  intros Hne window. split; [apply sliceLast_length|].
  split; [apply sliceLast_suffix|].
  assert (Hw : window ≠ []) by (apply sliceLast_nonempty; [lia | done]).
  unfold _getNextBlockBaseDifficulty.
  change (sliceLast TARGET_BLOCKS chain) with window.
  by rewrite (checkBlocksTimeDiff_value window Hw),
    (averageDifficulty_value window Hw).
Qed.

End Retarget.

Lemma base_difficulty_in_doubles_witness :
  Binary64._getNextBlockBaseDifficulty Binary64.slowChain
  = Ret (Binary64.Math_max
           (Binary64.meanOf [1000; 2000]
            / Binary64.clamp ((700000 - 0) / 600000) 0.5 2) 1000)%float.
Proof.
  refine (proj2 (proj2 (base_difficulty_in_doubles Binary64.slowChain _))).
  discriminate.
Defined.

(** C7 at a chain on which the result is not the exact value of the
    formula: for two blocks of difficulties 1000 and 2000 that are 700
    seconds apart the formula gives [1500 / (7/6) = 9000/7], which no
    double equals; the source returns the double next to it. *)
Lemma base_difficulty_is_rounded :
  ∃ x : Binary64.number,
    Binary64._getNextBlockBaseDifficulty Binary64.slowChain = Ret x
    ∧ maxOf (meanOf [ofZ 1000; ofZ 2000]
             / clamp ((ofZ 700000 - ofZ 0) / ofZ 600000) (Q2Qc (1 # 2)) (ofZ 2))
        (ofZ 1000)
      = Q2Qc (9000 # 7)
    ∧ Binary64.valueOf x ≠ Q2Qc (9000 # 7).
Proof.
  eexists. split; [vm_compute; reflexivity|]. split.
  - apply Qc_is_canon. vm_compute. reflexivity.
  - intros H. apply (f_equal this) in H. vm_compute in H. discriminate H.
Qed.

(** ** The least admissible timestamp *)

Section MinTimestamp.
Import Binary64.

Variable Array_sort : (Block → Block → number) → list Block → list Block.
Variable BigInteger : Type.
Variable bigint_parse16 : string → Comp BigInteger.
Variable bigint_of_number : number → Comp BigInteger.
Variable bigint_divide : BigInteger → BigInteger → Comp BigInteger.
Variable bigint_leq : BigInteger → BigInteger → bool.
Variable bigint_valueOf : BigInteger → number.
Variable maxTarget : BigInteger.
Variables Db Mempool : Type.
Variable Message_verify :
  Db → list Block → option Mempool → list Message → Message → Comp Verdict.

Lemma timestampAt_nth64 (s : list Block) (i : nat) :
  (i < length s)%nat →
  timestampAt s i = Ret (nth i (map timestamp s) 0%float).
Proof.
  revert i. induction s as [|b s IH]; intros i Hi; simpl in Hi; [lia|].
  destruct i as [|i]; [done|]. unfold timestampAt in *. simpl.
  apply IH. lia.
Qed.

Lemma min_timestamp_median (chain : list Block) :
  _getNextBlockMinTimestamp Array_sort chain
  = Ret (medianOfSorted
           (map timestamp
              (Array_sort (fun a b => (timestamp a - timestamp b)%float)
                 (sliceLast TARGET_BLOCKS chain)))).
Proof.
  unfold _getNextBlockMinTimestamp, medianOfSorted.
  set (s := Array_sort _ (sliceLast TARGET_BLOCKS chain)).
  rewrite length_map.
  destruct (Nat.ltb_spec 0 (length s)) as [Hpos|Hzero].
  - replace (length s =? 0)%nat with false
      by (symmetry; apply Nat.eqb_neq; lia).
    destruct (Nat.eqb_spec (length s mod 2) 0) as [Hmod|Hmod].
    + destruct (half_even _ Hpos Hmod) as (-> & Hmid & Hnext & Hlt).
      rewrite Hnext, Hmid, !timestampAt_nth64 by lia. reflexivity.
    + destruct (half_odd _ Hmod) as (-> & Hmid & Hlt).
      rewrite timestampAt_nth64 by lia. by rewrite Hmid.
  - by replace (length s =? 0)%nat with true
      by (symmetry; apply Nat.eqb_eq; lia).
Qed.

(** C6, amended. When the engine's sort returns the window rearranged in
    the order of its comparator, the least admissible timestamp of the
    next block is the median of the timestamps of the last
    [min(10, length)] blocks, the median of an even-sized sample being the
    sum of the two middle values of the sorted sample divided by 2, both
    in double precision, and 0 for an empty chain; [Block.verify] rejects
    a block whose timestamp is not at least that value, with "invalid
    timestamp" once the hash, previous hash and height checks have
    passed. *)
Theorem min_timestamp_in_doubles (chain : list Block) :
  let window := sliceLast 10 chain in
  let comparefn := fun a b : Block => (timestamp a - timestamp b)%float in
  Permutation (Array_sort comparefn window) window →
  sortedBy comparefn (Array_sort comparefn window) →
  length window = Nat.min 10 (length chain)
  ∧ (∃ older, chain = (older ++ window)%list)
  ∧ ∃ (sorted : list Block) (median : number),
      Permutation sorted window
      ∧ sortedBy comparefn sorted
      ∧ _getNextBlockMinTimestamp Array_sort chain = Ret median
      ∧ median = medianOfSorted (map timestamp sorted)
      ∧ (chain = [] → median = 0%float)
      ∧ ∀ (this : Block) (db : Db) (mempool : option Mempool),
          (median <=? timestamp this)%float = false →
          ∃ e, Block_verify Array_sort BigInteger bigint_parse16
                 bigint_of_number bigint_divide bigint_leq bigint_valueOf
                 maxTarget Db Mempool Message_verify this db chain mempool
               = Ret (Some e)
               ∧ (getHash this = blockHash this →
                  prevHash this = parentHash chain →
                  (height this =? parentHeight chain + 1)%float = true →
                  e = invalidTimestamp).
Proof.
  intros window comparefn Hperm Hsorted.
  split; [apply sliceLast_length|]. split; [apply sliceLast_suffix|].
  exists (Array_sort comparefn window),
    (medianOfSorted (map timestamp (Array_sort comparefn window))).
  split; [done|]. split; [done|].
  split; [apply min_timestamp_median|]. split; [done|]. split.
  { intros Hnil.
    assert (Hs : Array_sort comparefn window = []).
    { apply Permutation_nil_r. rewrite Hperm. subst window. by rewrite Hnil. }
    by rewrite Hs. }
  intros this db mempool Hlt.
  unfold Block_verify, _checkTimestamp. rewrite min_timestamp_median.
  change (sliceLast TARGET_BLOCKS chain) with window.
  fold comparefn. simpl. rewrite Hlt. simpl.
  unfold _checkHash, _checkPrevHash, _checkHeight.
  change (match last chain with Some b => blockHash b | None => zeroHash end)
    with (parentHash chain).
  change (match last chain with Some b => height b | None => 0%float end)
    with (parentHeight chain).
  destruct (String.eqb_spec (getHash this) (blockHash this)) as [E1|E1]; simpl.
  2:{ eexists. split; [reflexivity|]. intros H. done. }
  destruct (String.eqb_spec (prevHash this) (parentHash chain)) as [E2|E2];
    simpl.
  2:{ eexists. split; [reflexivity|]. intros _ H. done. }
  destruct (height this =? parentHeight chain + 1)%float eqn:E3; simpl.
  2:{ eexists. split; [reflexivity|]. intros _ _ H. done. }
  eexists. split; [reflexivity | done].
Qed.

End MinTimestamp.

Lemma min_timestamp_in_doubles_witness :
  ∃ (sorted : list Binary64.Block) (median : Binary64.number),
    Permutation sorted Binary64.slowChain
    ∧ Binary64._getNextBlockMinTimestamp (@Binary64.insertionSort _)
        Binary64.slowChain = Ret median
    ∧ median = Binary64.medianOfSorted (map Binary64.timestamp sorted).
Proof.
  destruct (min_timestamp_in_doubles (@Binary64.insertionSort _) Z
              Binary64.hexParse Binary64.integerOf Binary64.integerDivide
              Z.leb Binary64.ofInteger maxTarget unit unit
              (fun _ _ _ _ _ => Ret None) Binary64.slowChain)
    as (_ & _ & sorted & median & Hp & _ & Hm & Hmed & _).
  - vm_compute. reflexivity.
  - intros i j a b Hij Hi Hj.
    destruct i as [|[|i]], j as [|[|j]]; try lia; try discriminate Hj;
      try discriminate Hi.
    vm_compute in Hi, Hj. injection Hi as <-. injection Hj as <-.
    vm_compute. reflexivity.
  - exists sorted, median. split; [exact Hp|]. split; [exact Hm | exact Hmed].
Defined.

(** C6 at a sample whose mean is not a double. The two timestamps
    [2^53 - 2] and [2^53 - 1] are already in order; their mean is
    [2^53 - 3/2], the source computes [2^53 - 2], and a block with that
    timestamp, which is below the mean, passes the timestamp check. *)
Lemma min_timestamp_is_rounded :
  Binary64.insertionSort
    (fun a b => (Binary64.timestamp a - Binary64.timestamp b)%float)
    Binary64.lateChain = Binary64.lateChain
  ∧ medianOfSorted [ofZ 9007199254740990; ofZ 9007199254740991]
    = Q2Qc (18014398509481981 # 2)
  ∧ ∃ m : Binary64.number,
      Binary64._getNextBlockMinTimestamp (@Binary64.insertionSort _)
        Binary64.lateChain = Ret m
      ∧ Binary64.valueOf m = ofZ 9007199254740990
      ∧ Binary64.valueOf m
        ≠ medianOfSorted [ofZ 9007199254740990; ofZ 9007199254740991]
      ∧ ofZ 9007199254740990
        < medianOfSorted [ofZ 9007199254740990; ofZ 9007199254740991]
      ∧ Binary64._checkTimestamp (@Binary64.insertionSort _)
          (Binary64.minedBlock "3f" "2f" 3 1000 9007199254740990 [])
          Binary64.lateChain
        = Ret true.
Proof.
  split; [vm_compute; reflexivity|]. split.
  { apply Qc_is_canon. vm_compute. reflexivity. }
  eexists. split; [vm_compute; reflexivity|]. split.
  { apply Qc_is_canon. vm_compute. reflexivity. }
  split.
  { intros H. apply (f_equal this) in H. vm_compute in H. discriminate H. }
  split; vm_compute; reflexivity.
Qed.

(** ** The order of the checks of [Block.verify] *)

Section BlockVerifyOrder.
Import Binary64.

Variable Array_sort : (Block → Block → number) → list Block → list Block.
Variable BigInteger : Type.
Variable bigint_parse16 : string → Comp BigInteger.
Variable bigint_of_number : number → Comp BigInteger.
Variable bigint_divide : BigInteger → BigInteger → Comp BigInteger.
Variable bigint_leq : BigInteger → BigInteger → bool.
Variable bigint_valueOf : BigInteger → number.
Variable maxTarget : BigInteger.
Variables Db Mempool : Type.
Variable Message_verify :
  Db → list Block → option Mempool → list Message → Message → Comp Verdict.

Lemma base_difficulty_value (blocks : list Block) :
  _getNextBlockBaseDifficulty blocks = Ret (baseDifficulty blocks).
Proof.
  unfold baseDifficulty.
  destruct (sliceLast 10 blocks) as [|b window] eqn:Hw.
  - unfold _getNextBlockBaseDifficulty.
    change (sliceLast TARGET_BLOCKS blocks) with (sliceLast 10 blocks).
    rewrite Hw. vm_compute. reflexivity.
  - assert (Hne : blocks ≠ []) by (intros ->; discriminate Hw).
    destruct (base_difficulty_in_doubles blocks Hne) as (_ & _ & H).
    rewrite H. by rewrite Hw.
Qed.

Lemma messages_difficulty_from (msgs : list Message) (result : number) :
  _getMessagesDifficulty_from BigInteger bigint_parse16 bigint_divide
    bigint_valueOf maxTarget result msgs
  = (ds ← hashDifficulties BigInteger bigint_parse16 bigint_divide
            bigint_valueOf maxTarget msgs;
     Ret (List.fold_left PrimFloat.add ds result)).
Proof.
  revert result. induction msgs as [|m rest IH]; intros result; [done|].
  simpl. unfold _getHashDifficulty, hashDifficulty.
  destruct (bigint_parse16 (hash m)) as [v|ex]; [|done]. simpl.
  destruct (bigint_divide v maxTarget) as [q|ex]; [|done]. simpl.
  rewrite IH.
  by destruct (hashDifficulties _ _ _ _ _ rest).
Qed.

Lemma verifyMessagesFrom_verdicts (db : Db) (blocks : list Block)
    (mempool : option Mempool) (before rest : list Message) :
  verifyMessagesFrom Db Mempool Message_verify db blocks mempool before rest
  = firstError
      (imap (fun i message =>
               Message_verify db blocks mempool
                 (delete (length before + i)%nat (before ++ rest)%list) message)
         rest).
Proof.
  revert before. induction rest as [|message after IH]; intros before; [done|].
  simpl. rewrite Nat.add_0_r.
  replace (delete (length before) (before ++ message :: after)%list)
    with (before ++ after)%list.
  2:{ clear. induction before as [|x before IH]; [done|].
      simpl. by rewrite <- IH. }
  destruct (Message_verify db blocks mempool (before ++ after) message)
    as [[e|]|ex]; simpl; try done.
  rewrite IH. f_equal. apply imap_ext. intros i x _. simpl.
  rewrite length_app. simpl.
  replace (length before + 1 + i)%nat with (length before + S i)%nat by lia.
  by rewrite <- app_assoc.
Qed.

(** C5. [Block.verify] runs the spec's eight checks in the spec's order and
    returns the error of the first one that fails; among the errors of
    checks 1-7 only "invalid previous hash" is soft. The checks are
    evaluated in double precision, for every behaviour of the engine's
    sort, of the big-integer package and of the message validator. *)
Theorem Block_verify_checks_in_order (this : Block) (db : Db)
    (blocks : list Block) :
  Block_verify Array_sort BigInteger bigint_parse16 bigint_of_number
    bigint_divide bigint_leq bigint_valueOf maxTarget Db Mempool
    Message_verify this db blocks None
  = firstFailure
      (orderedChecks Array_sort BigInteger bigint_parse16 bigint_of_number
         bigint_divide bigint_leq bigint_valueOf maxTarget this blocks)
      (firstError (messageVerdicts Db Mempool Message_verify this db blocks))
  ∧ ∀ (i : nat) (check : Comp bool) (e : ErrorObject),
      orderedChecks Array_sort BigInteger bigint_parse16 bigint_of_number
        bigint_divide bigint_leq bigint_valueOf maxTarget this blocks !! i
      = Some (check, e) →
      (soft e = true ↔ i = 1%nat).
Proof.
  split.
  - unfold Block_verify, orderedChecks, firstFailure.
    unfold _checkHash, _checkPrevHash, _checkHeight, _checkTimestamp,
      _checkDifficultyClaim, _checkMessagesCount, _checkSufficientDifficulty,
      _checkHashMeetsTarget, _verifyMessages, messageVerdicts,
      _getDifficultyTarget, difficultyTarget, _getMessagesDifficulty,
      messagesBonus, medianTimestamp.
    rewrite min_timestamp_median, base_difficulty_value,
      messages_difficulty_from, verifyMessagesFrom_verdicts.
    rewrite !String_eqb_decide, Nat_leb_decide.
    change (match last blocks with Some b => blockHash b | None => zeroHash end)
      with (parentHash blocks).
    change (match last blocks with Some b => height b | None => 0%float end)
      with (parentHeight blocks).
    change (sliceLast TARGET_BLOCKS blocks) with (sliceLast 10 blocks).
    simpl.
    destruct (bool_decide (getHash this = blockHash this)); [|done].
    destruct (bool_decide (prevHash this = _)); [|done]. simpl.
    destruct (height this =? parentHeight blocks + 1)%float; [|done]. simpl.
    destruct (medianOfSorted _ <=? timestamp this)%float; [|done]. simpl.
    destruct (bigint_of_number (Math_round (difficulty this))) as [r|ex];
      [|done]. simpl.
    destruct (bigint_divide maxTarget r) as [target|ex]; [|done]. simpl.
    destruct (bigint_parse16 (blockHash this)) as [value|ex]; [|done]. simpl.
    destruct (bigint_leq value target); [|done]. simpl.
    destruct (bool_decide (length (messages this) ≤ _)%nat); [|done]. simpl.
    destruct (hashDifficulties _ _ _ _ _ (messages this)) as [ds|ex]; [|done].
    simpl.
    change (List.fold_left PrimFloat.add ds 0%float) with (sumLeft ds).
    change MIN_DIFFICULTY with 1000%float.
    by destruct (Math_max (baseDifficulty blocks - sumLeft ds) 1000
                 <=? difficulty this)%float.
  - intros i check e Hi. unfold orderedChecks in Hi.
    do 7 (destruct i as [|i];
          [simpl in Hi; inversion Hi; subst; cbv; split; intros H;
           (reflexivity || discriminate H)|]).
    done.
Qed.

End BlockVerifyOrder.

(** ** The ledger over doubles *)

Lemma valueOf_zero : Binary64.valueOf 0%float = 0.
Proof. apply Qc_is_canon. vm_compute. reflexivity. Qed.

Lemma valueOf_one : Binary64.valueOf 1%float = 1.
Proof. apply Qc_is_canon. vm_compute. reflexivity. Qed.

Lemma storedValue_clone (v : Binary64.Stored) :
  Binary64.storedValue (Binary64._cloneStored v) = Binary64.storedValue v.
Proof.
  destruct v as [x|]; [|done].
  unfold Binary64._cloneStored, Binary64.storedValue.
  destruct (Prim2SF x) as [s|s| |s m e] eqn:E; simpl.
  - rewrite valueOf_zero. unfold Binary64.valueOf, Binary64.toQ. by rewrite E.
  - rewrite valueOf_zero. unfold Binary64.valueOf, Binary64.toQ. by rewrite E.
  - rewrite valueOf_zero. unfold Binary64.valueOf, Binary64.toQ. by rewrite E.
  - done.
Qed.

Lemma exactBalances_clone (db : Binary64.Db) :
  Binary64.exactBalances (Binary64.balances (Binary64._clone db))
  = Binary64.exactBalances (Binary64.balances db).
Proof.
  unfold Binary64.exactBalances, Binary64._clone. simpl.
  rewrite <- map_fmap_compose. apply map_fmap_ext. intros address entry _.
  simpl. rewrite <- map_fmap_compose. apply map_fmap_ext. intros asset v _.
  apply storedValue_clone.
Qed.

Lemma exactBalances_entry (bal : Binary64.Balances) (address : string) :
  default ∅ (Binary64.exactBalances bal !! address)
  = Binary64.storedValue <$> default ∅ (bal !! address).
Proof.
  unfold Binary64.exactBalances. rewrite lookup_fmap.
  destruct (bal !! address); simpl; [done|]. by rewrite fmap_empty.
Qed.

Lemma storedValue_entryOrZero (entry : gmap string Binary64.Stored)
    (asset : string) :
  default 0 ((Binary64.storedValue <$> entry) !! asset)
  = Binary64.valueOf (Binary64.entryOrZero entry asset).
Proof.
  unfold Binary64.entryOrZero. rewrite lookup_fmap.
  destruct (entry !! asset); simpl; [done|]. by rewrite valueOf_zero.
Qed.

(** A credit that does not round is the credit of the exact value. *)
Lemma exactBalances_credit (bal : Binary64.Balances) (address asset : string)
    (quantity : Binary64.number) :
  Binary64.exactCredit bal address asset quantity →
  Binary64.exactBalances (Binary64.credit bal address asset quantity)
  = credit (Binary64.exactBalances bal) address asset
      (Binary64.valueOf quantity).
Proof.
  intros [_ Hsum]. unfold Binary64.credit, credit.
  rewrite exactBalances_entry, storedValue_entryOrZero.
  unfold Binary64.exactBalances at 1. rewrite fmap_insert, fmap_insert.
  unfold Binary64.storedValue at 1. simpl. by rewrite Hsum.
Qed.

Lemma exactBalances_debit (bal : Binary64.Balances) (address asset : string)
    (quantity : Binary64.number) :
  Binary64.exactDebit bal address asset quantity →
  Binary64.exactBalances (Binary64.debit bal address asset quantity)
  = debit (Binary64.exactBalances bal) address asset
      (Binary64.valueOf quantity).
Proof.
  intros [_ Hdiff]. unfold Binary64.debit, debit.
  rewrite exactBalances_entry, storedValue_entryOrZero.
  unfold Binary64.exactBalances at 1. rewrite fmap_insert, fmap_insert.
  unfold Binary64.storedValue at 1. simpl. by rewrite Hdiff.
Qed.

Lemma supply_credit (bal : Binary64.Balances) (address asset asset' : string)
    (quantity : Binary64.number) :
  Binary64.exactCredit bal address asset quantity →
  Binary64.supply (Binary64.credit bal address asset quantity) asset'
  = Binary64.supply bal asset'
    + (if String.eqb asset asset' then Binary64.valueOf quantity else 0).
Proof.
  intros H. unfold Binary64.supply.
  by rewrite (exactBalances_credit _ _ _ _ H), totalSupply_credit, decide_eqb.
Qed.

Lemma supply_debit (bal : Binary64.Balances) (address asset asset' : string)
    (quantity : Binary64.number) :
  Binary64.exactDebit bal address asset quantity →
  Binary64.supply (Binary64.debit bal address asset quantity) asset'
  = Binary64.supply bal asset'
    - (if String.eqb asset asset' then Binary64.valueOf quantity else 0).
Proof.
  intros H. unfold Binary64.supply.
  by rewrite (exactBalances_debit _ _ _ _ H), totalSupply_debit, decide_eqb.
Qed.

(** Committing a message that moves amounts without rounding changes the
    supply by what the message issues. *)
Lemma commitMessage_supply (db : Binary64.Db) (m : Binary64.Message) :
  Binary64.isLedgerMove m = true →
  Binary64.exactStep db m →
  ∃ db' : Binary64.Db,
    Binary64.commitMessage db m = Ret db'
    ∧ ∀ asset,
        Binary64.supply (Binary64.balances db') asset
        = Binary64.supply (Binary64.balances db) asset
          + Binary64.issued asset m.
Proof.
  unfold Binary64.isLedgerMove, Binary64.exactStep, Binary64.commitMessage,
    Binary64.issued.
  destruct (Binary64.body (Binary64.payload m)) as
    [a q addr|a q src dst pk|a pk|a q pk|addr a q| | |a p pk|a q p pk|];
    try done; intros _ Hex.
  - eexists. split; [done|]. intros asset. simpl.
    by rewrite supply_credit.
  - destruct Hex as [Hd Hc].
    destruct (matchMint a); (eexists; split; [done|]); intros asset; simpl;
      rewrite supply_credit, supply_debit by done;
      destruct (String.eqb a asset); ring.
  - eexists. split; [done|]. intros asset. simpl.
    rewrite supply_credit by done. by rewrite valueOf_one.
  - eexists. split; [done|]. intros asset. simpl.
    by rewrite supply_credit.
  - eexists. split; [done|]. intros asset. simpl.
    by rewrite supply_credit.
  - eexists. split; [done|]. intros asset. simpl. ring.
  - destruct Hex as (H1 & H2 & H3).
    eexists. split; [done|]. intros asset.
    cbn [Binary64.balances Binary64.withBalances].
    rewrite supply_credit, supply_debit, supply_credit by done.
    destruct (String.eqb CRD asset), (String.eqb a asset); ring.
Qed.

Lemma commitMessages_supply (msgs : list Binary64.Message) :
  ∀ db : Binary64.Db,
    (∀ m, m ∈ msgs → Binary64.isLedgerMove m = true) →
    Binary64.exactRun db msgs →
    ∃ db' : Binary64.Db,
      Binary64.commitMessages db msgs = Ret db'
      ∧ ∀ asset,
          Binary64.supply (Binary64.balances db') asset
          = Binary64.supply (Binary64.balances db) asset
            + Binary64.totalIssued asset msgs.
Proof.
  induction msgs as [|m rest IH]; intros db Hmv Hrun; simpl.
  - exists db. split; [done|]. intros. ring.
  - destruct Hrun as [Hstep Hrest].
    destruct (commitMessage_supply db m) as (db1 & E1 & H1);
      [apply Hmv; left | done |].
    rewrite E1 in Hrest |- *. simpl.
    destruct (IH db1) as (db' & -> & H'); [|done|].
    { intros m' Hin. apply Hmv. by right. }
    exists db'. split; [done|]. intros asset. rewrite H', H1. ring.
Qed.

Lemma totalIssued_sends (asset : string) (msgs : list Binary64.Message) :
  Forall (fun message => Binary64.isSend message = true) msgs →
  Binary64.totalIssued asset msgs = 0.
Proof.
  induction 1 as [|m rest Hm _ IH]; [done|]. simpl. rewrite IH.
  unfold Binary64.isSend in Hm. unfold Binary64.issued.
  destruct (Binary64.body (Binary64.payload m)); first [done | ring].
Qed.

Lemma sends_are_ledger_moves (msgs : list Binary64.Message) :
  Forall (fun message => Binary64.isSend message = true) msgs →
  ∀ m, m ∈ msgs → Binary64.isLedgerMove m = true.
Proof.
  intros Hall m Hin. rewrite Forall_forall in Hall.
  specialize (Hall m Hin). unfold Binary64.isSend in Hall.
  unfold Binary64.isLedgerMove.
  by destruct (Binary64.body (Binary64.payload m)).
Qed.






(** Where an addition rounds, units are lost: after a [get] of [2^53]
    units and a [get] of one more, A holds [2^53] units, one less than
    the two messages issue. *)
Lemma commit_of_gets_rounds :
  ∃ (newDb : Binary64.Db) (newMempool : option Binary64.Mempool),
    Binary64._commitMainChainBlock Binary64.DEFAULT_DB [] None
      Binary64.crowdedGets = Ret (newDb, newMempool)
    ∧ Binary64.supply (Binary64.balances newDb) "NEW" = ofZ 9007199254740992
    ∧ Binary64.totalIssued "NEW" (Binary64.messages Binary64.crowdedGets)
      = ofZ 9007199254740993
    ∧ ¬ Binary64.exactRun (Binary64._clone Binary64.DEFAULT_DB)
          (Binary64.messages Binary64.crowdedGets).
Proof.
  eexists _, _. split; [vm_compute; reflexivity|].
  split; [apply Qc_is_canon; vm_compute; reflexivity|].
  split; [apply Qc_is_canon; vm_compute; reflexivity|].
  intros (_ & H & _). destruct H as [_ H].
  apply (f_equal this) in H. vm_compute in H. discriminate H.
Qed.

(** ** The quantity test of [send] *)

(** The test lets [Infinity] through, which [JSON.parse] yields for
    [1e999]: the funds check [balance >= quantity] that follows fails
    for every finite balance and holds for the balance [Infinity]. The
    test refuses 2.5, 0 and -1 and accepts 3. *)
Lemma send_quantity_test_values :
  Binary64.sendQuantityTest "CRD" PrimFloat.infinity = true
  ∧ (PrimFloat.infinity <=? 9007199254740992)%float = false
  ∧ (PrimFloat.infinity <=? PrimFloat.infinity)%float = true
  ∧ Binary64.sendQuantityTest "CRD" 3 = true
  ∧ Binary64.sendQuantityTest "CRD" 2.5 = false
  ∧ Binary64.sendQuantityTest "CRD" 0 = false
  ∧ Binary64.sendQuantityTest "CRD" (-1) = false
  ∧ Binary64.sendQuantityTest "CRD:mint" 2 = false
  ∧ Binary64.sendQuantityTest "CRD:mint" 1 = true.
Proof. vm_compute. repeat split. Qed.
